(** * ChainPulse webhook handler: a shallow embedding and its properties

    The development follows [backend/src/handlers/webhook.handler.ts]:
    the binary tuple decoder ([decodeClarityValue], [parseClarityTuple]),
    the payload shape resolution of [processPayload], the event handlers
    with the in-memory ledger and leaderboard, the rollback handler and
    the read queries.  Runtime services the handler calls (Buffer, JSON,
    EventEmitter) are modelled from their documented behaviour in the
    modules [Js], [Buf], [Json] and [Emitter].  [Handler] gives the
    methods at the types their signatures declare; [Layout] gives the
    documented encoding of a tuple, [Gather] the untyped front of
    [processTransaction] and [processPrintEvent], [Untyped] the methods
    on the values of the payload as they arrive, numbers or strings,
    and [Invariant] the predicates the properties of the typed store
    are stated with. *)

From Stdlib Require Import ZArith List Bool Ascii String Lia.
From Stdlib Require Import DecimalString.
From Stdlib Require Import Sorted Permutation.
From stdpp Require Import base decidable option list gmap.
Import ListNotations.

Local Open Scope Z_scope.
Set Warnings "-register-all".

(** ** JavaScript values *)

Module Js.

(** A JavaScript string is a sequence of UTF-16 code units. *)
Abbreviation JsString := (list Z).

(** The code units of an ASCII literal of the source. *)
Definition js (s : string) : JsString :=
  map (fun a => Z.of_nat (nat_of_ascii a)) (list_ascii_of_string s).

(** Values as they arrive from JSON and as the handler builds them.  A
    number [VNum m e] stands for the decimal [m * 10^e]; objects keep
    their properties in insertion order. *)
Inductive JsVal :=
| VUndefined
| VNull
| VBool (b : bool)
| VNum (m e : Z)
| VStr (s : JsString)
| VArr (xs : list JsVal)
| VObj (props : list (JsString * JsVal)).

Abbreviation JsObj := (list (JsString * JsVal)).

(** [o[k]] on the property list of an object. *)
Fixpoint getProp (k : JsString) (o : JsObj) : JsVal :=
  match o with
  | [] => VUndefined
  | (k', v) :: o' => if decide (k = k') then v else getProp k o'
  end.

(** Definition of an own data property: an existing key keeps its place
    and takes the new value, a new key goes last. *)
Fixpoint defineProp (k : JsString) (v : JsVal) (o : JsObj) : JsObj :=
  match o with
  | [] => [(k, v)]
  | (k', v') :: o' =>
      if decide (k = k') then (k, v) :: o' else (k', v') :: defineProp k v o'
  end.

(** [o[k] = v] on a plain object, for a primitive [v]: the key
    [__proto__] reaches the inherited setter, which ignores a value that
    is neither an object nor null; every other key defines a property. *)
Definition assignProp (k : JsString) (v : JsVal) (o : JsObj) : JsObj :=
  if decide (k = js "__proto__") then o else defineProp k v o.

(** [v.k] and [v?.k] on the values the handler meets: a property of an
    object, [undefined] on anything else that is not nullish. *)
Definition field (k : string) (v : JsVal) : JsVal :=
  match v with
  | VObj o => getProp (js k) o
  | _ => VUndefined
  end.

(** ToBoolean. *)
Definition truthy (v : JsVal) : bool :=
  match v with
  | VUndefined | VNull => false
  | VBool b => b
  | VNum m _ => negb (m =? 0)
  | VStr s => negb (bool_decide (s = []))
  | VArr _ | VObj _ => true
  end.

(** [a || b] *)
Definition orElse (a b : JsVal) : JsVal := if truthy a then a else b.

(** [a ?? b] *)
Definition nullish (a b : JsVal) : JsVal :=
  match a with
  | VUndefined | VNull => b
  | _ => a
  end.

(** [Array.isArray] *)
Definition isArray (v : JsVal) : bool :=
  match v with VArr _ => true | _ => false end.

(** [typeof v === 'object'] *)
Definition typeofObject (v : JsVal) : bool :=
  match v with VNull | VArr _ | VObj _ => true | _ => false end.

(** What a call can do: return, throw, or (in a model with fuel) stop
    for lack of fuel. *)
Inductive JsError := RangeError | TypeError | SyntaxError | ListenerError.

Inductive Outcome (A : Type) :=
| Ret (a : A)
| Throw (e : JsError)
| OutOfFuel.
Arguments Ret {A} a.
Arguments Throw {A} e.
Arguments OutOfFuel {A}.

#[global] Instance outcome_ret : MRet Outcome := fun A a => Ret a.
#[global] Instance outcome_bind : MBind Outcome := fun A B f m =>
  match m with
  | Ret a => f a
  | Throw e => Throw e
  | OutOfFuel => OutOfFuel
  end.

(** [try { m } catch { h }] *)
Definition tryCatch {A} (m : Outcome A) (h : JsError -> Outcome A) : Outcome A :=
  match m with
  | Throw e => h e
  | _ => m
  end.

End Js.
Import Js.

(** ** Node's Buffer *)

Module Buf.

(** A buffer is its list of bytes. *)
Abbreviation Buffer := (list Z).

Definition len (b : Buffer) : Z := Z.of_nat (length b).

Definition hexDigit (c : Z) : option Z :=
  if (48 <=? c) && (c <=? 57) then Some (c - 48)
  else if (97 <=? c) && (c <=? 102) then Some (c - 87)
  else if (65 <=? c) && (c <=? 70) then Some (c - 55)
  else None.

(** [Buffer.from(s, 'hex')]: one byte per pair of hex digits, the data
    cut at the first pair that is not two hex digits. *)
Fixpoint fromHex (s : JsString) : Buffer :=
  match s with
  | a :: b :: rest =>
      match hexDigit a, hexDigit b with
      | Some h, Some l => (16 * h + l) :: fromHex rest
      | _, _ => []
      end
  | _ => []
  end.

Definition hexChar (d : Z) : Z := if d <? 10 then 48 + d else 87 + d.

(** [b.toString('hex')] *)
Definition toHex (b : Buffer) : JsString :=
  flat_map (fun x => [hexChar (x / 16); hexChar (x mod 16)]) b.

(** [b[i]] *)
Definition at_ (b : Buffer) (i : Z) : option Z :=
  if (0 <=? i) && (i <? len b) then nth_error b (Z.to_nat i) else None.

(** [b.slice(s, e)], both ends clamped to the buffer. *)
Definition clamp (n : Z) (i : Z) : Z :=
  if i <? 0 then Z.max 0 (n + i) else Z.min i n.

Definition slice (b : Buffer) (s e : Z) : Buffer :=
  let s' := clamp (len b) s in
  let e' := clamp (len b) e in
  firstn (Z.to_nat (e' - s')) (skipn (Z.to_nat s') b).

(** Big-endian value of a run of bytes. *)
Definition beValue (bs : list Z) : Z :=
  fold_left (fun acc x => 256 * acc + x) bs 0.

(** [b.readUInt16BE(off)]: a RangeError when the two bytes are not all
    inside the buffer. *)
Definition readUInt16BE (b : Buffer) (off : Z) : Outcome Z :=
  if (0 <=? off) && (off + 2 <=? len b)
  then Ret (beValue (firstn 2 (skipn (Z.to_nat off) b)))
  else Throw RangeError.

(** [b.readBigUInt64BE(off)]: the eight bytes that start at [off]. *)
Definition readBigUInt64BE (b : Buffer) (off : Z) : Outcome Z :=
  if (0 <=? off) && (off + 8 <=? len b)
  then Ret (beValue (firstn 8 (skipn (Z.to_nat off) b)))
  else Throw RangeError.

(** [n.toString()] for a non-negative BigInt. *)
Definition bigintToString (n : Z) : JsString :=
  js (NilZero.string_of_uint (N.to_uint (Z.to_N n))).

(** *** UTF-8 decoding, [b.toString('utf-8')]

    The decoder of the Encoding Standard: an ill-formed sequence gives
    U+FFFD and decoding resumes at the byte that broke it. *)

Record Utf8State := {
  needed : Z; seen : Z; codepoint : Z; lower : Z; upper : Z
}.

Definition utf8Init : Utf8State :=
  {| needed := 0; seen := 0; codepoint := 0; lower := 128; upper := 191 |}.

(** A byte met with no sequence open: the code points to emit and the
    next state. *)
Definition utf8Lead (b : Z) : list Z * Utf8State :=
  if b <=? 127 then ([b], utf8Init)
  else if (194 <=? b) && (b <=? 223) then
    ([], {| needed := 1; seen := 0; codepoint := Z.land b 31;
            lower := 128; upper := 191 |})
  else if (224 <=? b) && (b <=? 239) then
    ([], {| needed := 2; seen := 0; codepoint := Z.land b 15;
            lower := (if b =? 224 then 160 else 128);
            upper := (if b =? 237 then 159 else 191) |})
  else if (240 <=? b) && (b <=? 244) then
    ([], {| needed := 3; seen := 0; codepoint := Z.land b 7;
            lower := (if b =? 240 then 144 else 128);
            upper := (if b =? 244 then 143 else 191) |})
  else ([65533], utf8Init).

Definition utf8Step (st : Utf8State) (b : Z) : list Z * Utf8State :=
  if needed st =? 0 then utf8Lead b
  else if (lower st <=? b) && (b <=? upper st) then
    let cp := Z.lor (Z.shiftl (codepoint st) 6) (Z.land b 63) in
    if seen st + 1 =? needed st then ([cp], utf8Init)
    else ([], {| needed := needed st; seen := seen st + 1; codepoint := cp;
                 lower := 128; upper := 191 |})
  else
    let '(out, st') := utf8Lead b in (65533 :: out, st').

Fixpoint utf8Decode (st : Utf8State) (bs : list Z) : list Z :=
  match bs with
  | [] => if needed st =? 0 then [] else [65533]
  | b :: bs' => let '(out, st') := utf8Step st b in out ++ utf8Decode st' bs'
  end.

(** The UTF-16 code units of a code point. *)
Definition utf16 (cp : Z) : list Z :=
  if cp <? 65536 then [cp]
  else [55296 + Z.shiftr (cp - 65536) 10; 56320 + Z.land (cp - 65536) 1023].

Definition toUtf8String (b : Buffer) : JsString :=
  flat_map utf16 (utf8Decode utf8Init b).

End Buf.

(** ** JSON.parse *)

Module Json.

Inductive Token :=
| TLBrace | TRBrace | TLBrack | TRBrack | TColon | TComma
| TString (s : JsString)
| TNumber (m e : Z)
| TTrue | TFalse | TNull.

(** Where the scanner stands inside a number literal. *)
Inductive NumPos :=
| NMinus | NZero | NInt | NDot | NFrac | NE | NESign | NExp.

Record NumAcc := {
  negative : bool; mantissa : Z; fracDigits : Z; expNegative : bool; expo : Z
}.

Inductive LexState :=
| LStart
| LStr (acc : list Z)
| LEsc (acc : list Z)
| LUni (acc : list Z) (k : nat) (v : Z)
| LLit (rest : list Z) (tok : Token)
| LNum (pos : NumPos) (a : NumAcc).

Definition isDigit (c : Z) : bool := (48 <=? c) && (c <=? 57).

Definition numToken (a : NumAcc) : Token :=
  TNumber (if negative a then - mantissa a else mantissa a)
          ((if expNegative a then - expo a else expo a) - fracDigits a).

Definition numAccepting (p : NumPos) : bool :=
  match p with
  | NZero | NInt | NFrac | NExp => true
  | _ => false
  end.

Definition pushDigit (a : NumAcc) (c : Z) (frac : bool) : NumAcc :=
  {| negative := negative a; mantissa := 10 * mantissa a + (c - 48);
     fracDigits := (if frac then fracDigits a + 1 else fracDigits a);
     expNegative := expNegative a; expo := expo a |}.

Definition pushExp (a : NumAcc) (c : Z) : NumAcc :=
  {| negative := negative a; mantissa := mantissa a;
     fracDigits := fracDigits a;
     expNegative := expNegative a; expo := 10 * expo a + (c - 48) |}.

Definition setExpNeg (a : NumAcc) : NumAcc :=
  {| negative := negative a; mantissa := mantissa a;
     fracDigits := fracDigits a; expNegative := true; expo := expo a |}.

Definition numStart (neg : bool) (m : Z) : NumAcc :=
  {| negative := neg; mantissa := m; fracDigits := 0;
     expNegative := false; expo := 0 |}.

(** A code unit met between tokens. *)
Definition lexStart (c : Z) : option (LexState * list Token) :=
  if (c =? 32) || (c =? 9) || (c =? 10) || (c =? 13) then Some (LStart, [])
  else if c =? 123 then Some (LStart, [TLBrace])
  else if c =? 125 then Some (LStart, [TRBrace])
  else if c =? 91 then Some (LStart, [TLBrack])
  else if c =? 93 then Some (LStart, [TRBrack])
  else if c =? 58 then Some (LStart, [TColon])
  else if c =? 44 then Some (LStart, [TComma])
  else if c =? 34 then Some (LStr [], [])
  else if c =? 45 then Some (LNum NMinus (numStart true 0), [])
  else if c =? 48 then Some (LNum NZero (numStart false 0), [])
  else if isDigit c then Some (LNum NInt (numStart false (c - 48)), [])
  else if c =? 116 then Some (LLit (js "rue") TTrue, [])
  else if c =? 102 then Some (LLit (js "alse") TFalse, [])
  else if c =? 110 then Some (LLit (js "ull") TNull, [])
  else None.

(** A code unit met inside a number: the literal goes on, or it ends
    here (when it may) and the code unit starts what follows. *)
Definition lexNum (p : NumPos) (a : NumAcc) (c : Z)
  : option (LexState * list Token) :=
  let finish :=
    if numAccepting p then
      match lexStart c with
      | Some (st, toks) => Some (st, numToken a :: toks)
      | None => None
      end
    else None in
  let isE := (c =? 101) || (c =? 69) in
  match p with
  | NMinus =>
      if c =? 48 then Some (LNum NZero a, [])
      else if isDigit c then Some (LNum NInt (pushDigit a c false), [])
      else None
  | NZero =>
      if c =? 46 then Some (LNum NDot a, [])
      else if isE then Some (LNum NE a, [])
      else finish
  | NInt =>
      if isDigit c then Some (LNum NInt (pushDigit a c false), [])
      else if c =? 46 then Some (LNum NDot a, [])
      else if isE then Some (LNum NE a, [])
      else finish
  | NDot =>
      if isDigit c then Some (LNum NFrac (pushDigit a c true), []) else None
  | NFrac =>
      if isDigit c then Some (LNum NFrac (pushDigit a c true), [])
      else if isE then Some (LNum NE a, [])
      else finish
  | NE =>
      if c =? 43 then Some (LNum NESign a, [])
      else if c =? 45 then Some (LNum NESign (setExpNeg a), [])
      else if isDigit c then Some (LNum NExp (pushExp a c), [])
      else None
  | NESign =>
      if isDigit c then Some (LNum NExp (pushExp a c), []) else None
  | NExp =>
      if isDigit c then Some (LNum NExp (pushExp a c), []) else finish
  end.

Definition lexStep (st : LexState) (c : Z) : option (LexState * list Token) :=
  match st with
  | LStart => lexStart c
  | LStr acc =>
      if c =? 34 then Some (LStart, [TString (rev acc)])
      else if c =? 92 then Some (LEsc acc, [])
      else if c <? 32 then None
      else Some (LStr (c :: acc), [])
  | LEsc acc =>
      if c =? 34 then Some (LStr (34 :: acc), [])
      else if c =? 92 then Some (LStr (92 :: acc), [])
      else if c =? 47 then Some (LStr (47 :: acc), [])
      else if c =? 98 then Some (LStr (8 :: acc), [])
      else if c =? 102 then Some (LStr (12 :: acc), [])
      else if c =? 110 then Some (LStr (10 :: acc), [])
      else if c =? 114 then Some (LStr (13 :: acc), [])
      else if c =? 116 then Some (LStr (9 :: acc), [])
      else if c =? 117 then Some (LUni acc 4 0, [])
      else None
  | LUni acc k v =>
      match Buf.hexDigit c with
      | Some d =>
          match k with
          | S (S k') => Some (LUni acc (S k') (16 * v + d), [])
          | _ => Some (LStr ((16 * v + d) :: acc), [])
          end
      | None => None
      end
  | LLit rest tok =>
      match rest with
      | c' :: rest' =>
          if c =? c' then
            match rest' with
            | [] => Some (LStart, [tok])
            | _ => Some (LLit rest' tok, [])
            end
          else None
      | [] => None
      end
  | LNum p a => lexNum p a c
  end.

Fixpoint lex (st : LexState) (s : JsString) : option (list Token) :=
  match s with
  | [] =>
      match st with
      | LStart => Some []
      | LNum p a => if numAccepting p then Some [numToken a] else None
      | _ => None
      end
  | c :: s' =>
      match lexStep st c with
      | Some (st', toks) =>
          match lex st' s' with
          | Some more => Some (toks ++ more)
          | None => None
          end
      | None => None
      end
  end.

(** The containers that are open around the value being read. *)
Inductive Frame :=
| FArr (done : list JsVal)
| FObj (done : JsObj) (key : JsString).

Inductive PState :=
| PValue (stack : list Frame)
| PArrStart (stack : list Frame)
| PObjStart (stack : list Frame)
| PObjKey (props : JsObj) (stack : list Frame)
| PObjColon (props : JsObj) (key : JsString) (stack : list Frame)
| PAfter (v : JsVal) (stack : list Frame).

Definition pValue (stack : list Frame) (t : Token) : option PState :=
  match t with
  | TLBrack => Some (PArrStart stack)
  | TLBrace => Some (PObjStart stack)
  | TString s => Some (PAfter (VStr s) stack)
  | TNumber m e => Some (PAfter (VNum m e) stack)
  | TTrue => Some (PAfter (VBool true) stack)
  | TFalse => Some (PAfter (VBool false) stack)
  | TNull => Some (PAfter VNull stack)
  | _ => None
  end.

Definition pStep (st : PState) (t : Token) : option PState :=
  match st with
  | PValue stack => pValue stack t
  | PArrStart stack =>
      match t with
      | TRBrack => Some (PAfter (VArr []) stack)
      | _ => pValue (FArr [] :: stack) t
      end
  | PObjStart stack =>
      match t with
      | TRBrace => Some (PAfter (VObj []) stack)
      | TString k => Some (PObjColon [] k stack)
      | _ => None
      end
  | PObjKey props stack =>
      match t with
      | TString k => Some (PObjColon props k stack)
      | _ => None
      end
  | PObjColon props k stack =>
      match t with
      | TColon => Some (PValue (FObj props k :: stack))
      | _ => None
      end
  | PAfter v stack =>
      match stack, t with
      | FArr acc :: stack', TComma => Some (PValue (FArr (v :: acc) :: stack'))
      | FArr acc :: stack', TRBrack => Some (PAfter (VArr (rev (v :: acc))) stack')
      | FObj props k :: stack', TComma =>
          Some (PObjKey (defineProp k v props) stack')
      | FObj props k :: stack', TRBrace =>
          Some (PAfter (VObj (defineProp k v props)) stack')
      | _, _ => None
      end
  end.

Fixpoint parseTokens (st : PState) (ts : list Token) : option JsVal :=
  match ts with
  | [] => match st with PAfter v [] => Some v | _ => None end
  | t :: ts' =>
      match pStep st t with
      | Some st' => parseTokens st' ts'
      | None => None
      end
  end.

(** [JSON.parse(text)]: the value, or a SyntaxError. *)
Definition parse (text : JsString) : Outcome JsVal :=
  match lex LStart text with
  | Some ts =>
      match parseTokens (PValue []) ts with
      | Some v => Ret v
      | None => Throw SyntaxError
      end
  | None => Throw SyntaxError
  end.

End Json.

(** ** The binary tuple decoder *)

Module Decoder.
Import Buf.

(** [s.startsWith(p)] *)
Fixpoint startsWith (p s : JsString) : bool :=
  match p, s with
  | [], _ => true
  | a :: p', b :: s' => (a =? b) && startsWith p' s'
  | _ :: _, [] => false
  end.

(** The while loop of [parseClarityTuple], one field per turn.  [fuel]
    bounds the number of turns (a turn moves [offset] forward by three
    bytes at least, so the length of the buffer is enough); every
    [break] returns the fields read so far. *)
Fixpoint walk (fuel : nat) (buffer : Buffer) (offset : Z) (result : JsObj)
  : Outcome JsObj :=
  match fuel with
  | O => OutOfFuel
  | S fuel' =>
    if negb (offset <? len buffer - 1) then Ret result
    else if len buffer <? offset + 2 then Ret result
    else
      keyLen ← readUInt16BE buffer offset;
      let offset := offset + 2 in
      if len buffer <? offset + keyLen then Ret result
      else
        let key := toUtf8String (slice buffer offset (offset + keyLen)) in
        let offset := offset + keyLen in
        if len buffer <=? offset then Ret result
        else
          match at_ buffer offset with
          | None => Throw TypeError
          | Some valueType =>
            let offset := offset + 1 in
            if (valueType =? 0) || (valueType =? 1) then
              if len buffer <? offset + 16 then Ret result
              else
                value ← readBigUInt64BE buffer offset;
                walk fuel' buffer (offset + 16)
                     (assignProp key (VStr (bigintToString value)) result)
            else if (valueType =? 6) || (valueType =? 7) then
              if len buffer <? offset + 2 then Ret result
              else
                strLen ← readUInt16BE buffer offset;
                let offset := offset + 2 in
                if len buffer <? offset + strLen then Ret result
                else
                  let value :=
                    toUtf8String (slice buffer offset (offset + strLen)) in
                  walk fuel' buffer (offset + strLen)
                       (assignProp key (VStr value) result)
            else if valueType =? 9 then
              if len buffer <? offset + 21 then Ret result
              else
                let principal :=
                  js "0x" ++ toHex (slice buffer offset (offset + 21)) in
                walk fuel' buffer (offset + 21)
                     (assignProp key (VStr principal) result)
            else Ret result
          end
  end.

(** [parseClarityTuple(buffer)]: the walk starts after the type byte and
    the two length bytes; an exception inside gives the empty object. *)
Definition parseClarityTuple (buffer : Buffer) : Outcome JsVal :=
  tryCatch (result ← walk (S (length buffer)) buffer 3 []; Ret (VObj result))
           (fun _ => Ret (VObj [])).

Definition rawFallback (hexValue : JsString) : JsVal :=
  VObj [(js "raw", VStr hexValue)].

(** [decodeClarityValue(hexValue)] *)
Definition decodeClarityValue (hexValue : JsString) : Outcome JsVal :=
  let hex :=
    if startsWith (js "0x") hexValue then skipn 2 hexValue else hexValue in
  tryCatch
    (let asString := toUtf8String (fromHex hex) in
     match Json.parse asString with
     | Ret v => Ret v
     | OutOfFuel => OutOfFuel
     | Throw _ =>
         let buffer := fromHex hex in
         if (0 <? len buffer) && bool_decide (at_ buffer 0 = Some 12)
         then parseClarityTuple buffer
         else Ret (rawFallback hexValue)
     end)
    (fun _ => Ret (rawFallback hexValue)).

End Decoder.

(** ** Payload shape resolution *)

Module Normalizer.
Local Open Scope string_scope.

(** An object literal of the source. *)
Definition obj (props : list (string * JsVal)) : JsVal :=
  VObj (map (fun kv => (js (fst kv), snd kv)) props).

(** The elements of an array value. *)
Definition elements (v : JsVal) : list JsVal :=
  match v with VArr xs => xs | _ => [] end.

Definition defaultBlockInfo : JsVal :=
  obj [("index", VNum 0 0); ("hash", VStr [])].

(** The block list [applyBlocks] that [processPayload] settles on for
    the payload [p]; [nowMs] is what [Date.now()] reads. *)
Definition resolveApplyBlocks (nowMs : Z) (p : JsVal) : list JsVal :=
  let event := field "event" p in
  if isArray (field "apply" p) then elements (field "apply" p)
  else if isArray (field "apply" event) then elements (field "apply" event)
  else if isArray (field "blocks" event) then elements (field "blocks" event)
  else if truthy event && typeofObject event then
    if truthy (orElse (orElse (field "transaction_identifier" event)
                              (field "transaction" event))
                      (field "metadata" event)) then
      let tx := orElse (field "transaction" event) event in
      let blockInfo :=
        orElse (orElse (field "block_identifier" event) (field "block" event))
               defaultBlockInfo in
      let timestamp :=
        orElse (orElse (field "timestamp" event) (field "block_timestamp" event))
               (VNum nowMs (-3)) in
      [obj [("block_identifier",
             if typeofObject blockInfo then blockInfo
             else obj [("index", blockInfo); ("hash", VStr [])]);
            ("timestamp", timestamp);
            ("transactions", VArr [tx])]]
    else if truthy (field "contract_log" event) then
      let contractLog := field "contract_log" event in
      let blockInfo :=
        orElse (field "block_identifier" contractLog) defaultBlockInfo in
      let timestamp :=
        orElse (field "timestamp" contractLog) (VNum nowMs (-3)) in
      [obj [("block_identifier", blockInfo);
            ("timestamp", timestamp);
            ("transactions",
             VArr [obj [("transaction_identifier",
                         obj [("hash", orElse (field "tx_id" contractLog)
                                              (VStr []))]);
                        ("metadata",
                         obj [("receipt",
                               obj [("events",
                                     VArr [obj [("type", VStr (js "contract_log"));
                                                ("data", contractLog)]])])])]])]]
    else []
  else [].

(** The rollback list: [p?.rollback ?? p?.event?.rollback ?? []]. *)
Definition resolveRollback (p : JsVal) : JsVal :=
  nullish (nullish (field "rollback" p) (field "rollback" (field "event" p)))
          (VArr []).

(** *** The resolution as the specification words it

    Six rules, each a test with what it extracts, tried in order. *)

Definition Rule := Z -> JsVal -> option (list JsVal).

Definition ruleTopLevelApply : Rule := fun _ p =>
  match field "apply" p with VArr bs => Some bs | _ => None end.

Definition ruleEventApply : Rule := fun _ p =>
  match field "apply" (field "event" p) with VArr bs => Some bs | _ => None end.

Definition ruleEventBlocks : Rule := fun _ p =>
  match field "blocks" (field "event" p) with VArr bs => Some bs | _ => None end.

Definition isObjectValue (v : JsVal) : bool :=
  match v with VArr _ | VObj _ => true | _ => false end.

Definition ruleInlineTransaction : Rule := fun nowMs p =>
  let event := field "event" p in
  if isObjectValue event
     && (truthy (field "transaction_identifier" event)
         || truthy (field "transaction" event)
         || truthy (field "metadata" event)) then
    let tx := orElse (field "transaction" event) event in
    let blockInfo :=
      orElse (orElse (field "block_identifier" event) (field "block" event))
             defaultBlockInfo in
    let timestamp :=
      orElse (orElse (field "timestamp" event) (field "block_timestamp" event))
             (VNum nowMs (-3)) in
    Some [obj [("block_identifier",
                if typeofObject blockInfo then blockInfo
                else obj [("index", blockInfo); ("hash", VStr [])]);
               ("timestamp", timestamp);
               ("transactions", VArr [tx])]]
  else None.

Definition ruleContractLog : Rule := fun nowMs p =>
  let event := field "event" p in
  let contractLog := field "contract_log" event in
  if isObjectValue event && truthy contractLog then
    Some [obj [("block_identifier",
                orElse (field "block_identifier" contractLog) defaultBlockInfo);
               ("timestamp",
                orElse (field "timestamp" contractLog) (VNum nowMs (-3)));
               ("transactions",
                VArr [obj [("transaction_identifier",
                            obj [("hash", orElse (field "tx_id" contractLog)
                                                 (VStr []))]);
                           ("metadata",
                            obj [("receipt",
                                  obj [("events",
                                        VArr [obj [("type", VStr (js "contract_log"));
                                                   ("data", contractLog)]])])])]])]]
  else None.

Definition ruleNothing : Rule := fun _ _ => Some [].

Definition documentedRules : list Rule :=
  [ruleTopLevelApply; ruleEventApply; ruleEventBlocks;
   ruleInlineTransaction; ruleContractLog; ruleNothing].

(** The first rule that matches gives the result. *)
Fixpoint firstMatch (rules : list Rule) (nowMs : Z) (p : JsVal)
  : option (list JsVal) :=
  match rules with
  | [] => None
  | r :: rules' =>
      match r nowMs p with
      | Some bs => Some bs
      | None => firstMatch rules' nowMs p
      end
  end.

End Normalizer.

(** ** EventEmitter *)

Module Emitter.
Section Emitter.
Context {P : Type}.

(** A listener as the emitter sees it: a number to tell it apart in a
    trace, and what a call with a payload does, return ([None]) or
    throw. *)
Record Listener := { lid : nat; call : P -> option JsError }.

(** The listeners of every channel, in the order of their registration. *)
Definition Registry := JsString -> list Listener.

Definition noListeners : Registry := fun _ => [].

(** [emitter.on(channel, l)] *)
Definition on (channel : JsString) (l : Listener) (r : Registry) : Registry :=
  fun c => if decide (c = channel) then r c ++ [l] else r c.

(** One call of a listener. *)
Record Call := { callee : nat; channel : JsString; payload : P }.

(** The calls [emit] makes: the listeners one after the other; what a
    listener throws leaves [emit] at once. *)
Fixpoint callListeners (ls : list Listener) (ch : JsString) (p : P)
  : Outcome unit * list Call :=
  match ls with
  | [] => (Ret tt, [])
  | l :: ls' =>
      let c := {| callee := lid l; channel := ch; payload := p |} in
      match call l p with
      | Some e => (Throw e, [c])
      | None => let rc := callListeners ls' ch p in (fst rc, c :: snd rc)
      end
  end.

(** [emitter.emit(channel, p)] *)
Definition emit (r : Registry) (ch : JsString) (p : P)
  : Outcome unit * list Call :=
  callListeners (r ch) ch p.

End Emitter.
Arguments Listener : clear implicits.
Arguments Registry : clear implicits.
Arguments Call : clear implicits.
End Emitter.

(** ** The handler: ledger, leaderboard and notifications

    Events, records and entries are the interfaces of the source, their
    [number] fields integers and a [Date] its milliseconds. *)

Module PulseEvent.
Record t := { user : JsString; points : Z; streak : Z; fee : Z; total_pulses : Z }.
End PulseEvent.

Module BoostEvent.
Record t := { user : JsString; points : Z; fee : Z; total_boosts : Z }.
End BoostEvent.

Module CheckinEvent.
Record t := { user : JsString; day : Z; points : Z }.
End CheckinEvent.

Module MegaPulseEvent.
Record t := { user : JsString; multiplier : Z; points : Z; fee : Z }.
End MegaPulseEvent.

Module ChallengeEvent.
Record t := { user : JsString; challenge_id : Z; points : Z; fee : Z }.
End ChallengeEvent.

Module RewardEvent.
Record t := {
  user : JsString; reward_id : Z; points_spent : Z; stx_value : Z;
  new_tier : JsString
}.
End RewardEvent.

Module TierEvent.
Record t := {
  user : JsString; tier : JsString; total_points : Z; previous_tier : JsString
}.
End TierEvent.

Module STXTransferEvent.
Record t := {
  sender : JsString; recipient : JsString; amount : Z; block_height : Z
}.
End STXTransferEvent.

(** The data of an NFT mint event, as far as [processNFTEvent] reads it:
    a recipient that is a string or missing, and the asset identifier. *)
Module NFTEvent.
Record t := { recipient : option JsString; asset_identifier : JsVal }.
End NFTEvent.

Module ActivityRecord.
Record t := {
  id : JsString;
  user : JsString;
  eventType : JsString;
  points : Z;
  fee : Z;
  blockHeight : Z;
  txHash : JsString;
  timestamp : Z;
  metadata : JsObj
}.
End ActivityRecord.

Module LeaderboardEntry.
Record t := {
  user : JsString;
  totalPoints : Z;
  totalPulses : Z;
  currentStreak : Z;
  longestStreak : Z;
  tier : JsString;
  lastActive : Z
}.
End LeaderboardEntry.

Module Handler.

(** What a listener is called with. *)
Inductive Payload :=
| OfActivity (activity : ActivityRecord.t)
| OfEntry (entry : LeaderboardEntry.t)
| OfRollback (rollback : list Z).

(** The fields of [WebhookHandler] with the listeners it inherits from
    [EventEmitter]; [calls] is the trace of the listener calls made so
    far, [clock] what the successive [new Date()] read and [ticks] how
    many were read. *)
Record State := {
  activities : list ActivityRecord.t;
  leaderboard : list (JsString * LeaderboardEntry.t);
  totalFees : Z;
  totalTransactions : Z;
  listeners : Emitter.Registry Payload;
  calls : list (Emitter.Call Payload);
  clock : nat -> Z;
  ticks : nat
}.

(** [new WebhookHandler()] *)
Definition initial (clock : nat -> Z) : State :=
  {| activities := []; leaderboard := []; totalFees := 0;
     totalTransactions := 0; listeners := Emitter.noListeners; calls := [];
     clock := clock; ticks := 0 |}.

Definition setActivities (v : list ActivityRecord.t) (s : State) : State :=
  {| activities := v; leaderboard := leaderboard s; totalFees := totalFees s;
     totalTransactions := totalTransactions s; listeners := listeners s;
     calls := calls s; clock := clock s; ticks := ticks s |}.

Definition setLeaderboard (v : list (JsString * LeaderboardEntry.t)) (s : State)
  : State :=
  {| activities := activities s; leaderboard := v; totalFees := totalFees s;
     totalTransactions := totalTransactions s; listeners := listeners s;
     calls := calls s; clock := clock s; ticks := ticks s |}.

Definition setTotalFees (v : Z) (s : State) : State :=
  {| activities := activities s; leaderboard := leaderboard s; totalFees := v;
     totalTransactions := totalTransactions s; listeners := listeners s;
     calls := calls s; clock := clock s; ticks := ticks s |}.

Definition setTotalTransactions (v : Z) (s : State) : State :=
  {| activities := activities s; leaderboard := leaderboard s;
     totalFees := totalFees s; totalTransactions := v; listeners := listeners s;
     calls := calls s; clock := clock s; ticks := ticks s |}.

Definition setListeners (v : Emitter.Registry Payload) (s : State) : State :=
  {| activities := activities s; leaderboard := leaderboard s;
     totalFees := totalFees s; totalTransactions := totalTransactions s;
     listeners := v; calls := calls s; clock := clock s; ticks := ticks s |}.

Definition setCalls (v : list (Emitter.Call Payload)) (s : State) : State :=
  {| activities := activities s; leaderboard := leaderboard s;
     totalFees := totalFees s; totalTransactions := totalTransactions s;
     listeners := listeners s; calls := v; clock := clock s; ticks := ticks s |}.

Definition setTicks (v : nat) (s : State) : State :=
  {| activities := activities s; leaderboard := leaderboard s;
     totalFees := totalFees s; totalTransactions := totalTransactions s;
     listeners := listeners s; calls := calls s; clock := clock s; ticks := v |}.

(** A method of the handler: it runs on a state and leaves a state,
    also when it throws. *)
Definition M (A : Type) : Type := State -> Outcome A * State.

Definition ret {A} (a : A) : M A := fun s => (Ret a, s).

Definition bind {A B} (m : M A) (k : A -> M B) : M B := fun s =>
  match m s with
  | (Ret a, s') => k a s'
  | (Throw e, s') => (Throw e, s')
  | (OutOfFuel, s') => (OutOfFuel, s')
  end.

Notation "m >> k" := (bind m (fun _ => k))
  (at level 90, right associativity).
Notation "'do' x <- m 'in' k" := (bind m (fun x => k))
  (at level 10, x name, m at level 100, k at level 200).

(** [try { m } catch { }] *)
Definition tryM (m : M unit) : M unit := fun s =>
  match m s with
  | (Throw _, s') => (Ret tt, s')
  | r => r
  end.

(** [for (const x of xs) { await f(x) }] *)
Fixpoint forOf {X} (xs : list X) (f : X -> M unit) : M unit :=
  match xs with
  | [] => ret tt
  | x :: xs' => f x >> forOf xs' f
  end.

Definition modify (f : State -> State) : M unit := fun s => (Ret tt, f s).

Definition run {A} (m : M A) (s : State) : State := snd (m s).
Definition outcome {A} (m : M A) (s : State) : Outcome A := fst (m s).

(** [new Date()] *)
Definition newDate : M Z := fun s =>
  (Ret (clock s (ticks s)), setTicks (S (ticks s)) s).

(** [this.on(channel, l)] *)
Definition on (channel : string) (l : Emitter.Listener Payload) : M unit :=
  modify (fun s => setListeners (Emitter.on (js channel) l (listeners s)) s).

(** [this.emit(channel, p)] *)
Definition emit (channel : string) (p : Payload) : M unit := fun s =>
  let rc := Emitter.emit (listeners s) (js channel) p in
  (fst rc, setCalls (calls s ++ snd rc) s).

(** [this.activities.push(activity)] *)
Definition push (activity : ActivityRecord.t) : M unit :=
  modify (fun s => setActivities (activities s ++ [activity]) s).

(** [this.totalFees += fee] *)
Definition addFees (fee : Z) : M unit :=
  modify (fun s => setTotalFees (totalFees s + fee) s).

(** [Map.prototype.get] and [set] on the leaderboard, whose entries stay
    in the order of their first [set]. *)
Fixpoint mapGet {V} (k : JsString) (m : list (JsString * V)) : option V :=
  match m with
  | [] => None
  | (k', v) :: m' => if decide (k = k') then Some v else mapGet k m'
  end.

Fixpoint mapSet {V} (k : JsString) (v : V) (m : list (JsString * V))
  : list (JsString * V) :=
  match m with
  | [] => [(k, v)]
  | (k', v') :: m' =>
      if decide (k = k') then (k, v) :: m' else (k', v') :: mapSet k v m'
  end.

(** *** The event handlers *)

(** The entry [updateLeaderboard] makes for a user it has not seen. *)
Definition newEntry (user : JsString) (now : Z) : LeaderboardEntry.t :=
  {| LeaderboardEntry.user := user;
     LeaderboardEntry.totalPoints := 0;
     LeaderboardEntry.totalPulses := 0;
     LeaderboardEntry.currentStreak := 0;
     LeaderboardEntry.longestStreak := 0;
     LeaderboardEntry.tier := js "none";
     LeaderboardEntry.lastActive := now |}.

(** The if-chain on the points of the entry: a tier is set from 100
    points on, and left as it is below. *)
Definition tierUpdate (totalPoints : Z) (tier : JsString) : JsString :=
  if 5000 <=? totalPoints then js "platinum"
  else if 1000 <=? totalPoints then js "gold"
  else if 500 <=? totalPoints then js "silver"
  else if 100 <=? totalPoints then js "bronze"
  else tier.

Definition updateEntry (points pulses streak now : Z) (entry : LeaderboardEntry.t)
  : LeaderboardEntry.t :=
  let totalPoints := LeaderboardEntry.totalPoints entry + points in
  {| LeaderboardEntry.user := LeaderboardEntry.user entry;
     LeaderboardEntry.totalPoints := totalPoints;
     LeaderboardEntry.totalPulses := LeaderboardEntry.totalPulses entry + pulses;
     LeaderboardEntry.currentStreak :=
       (if 0 <? streak then streak else LeaderboardEntry.currentStreak entry);
     LeaderboardEntry.longestStreak :=
       (if (0 <? streak) && (LeaderboardEntry.longestStreak entry <? streak)
        then streak else LeaderboardEntry.longestStreak entry);
     LeaderboardEntry.tier := tierUpdate totalPoints (LeaderboardEntry.tier entry);
     LeaderboardEntry.lastActive := now |}.

(** [updateLeaderboard(user, points, pulses, streak)] *)
Definition updateLeaderboard (user : JsString) (points pulses streak : Z)
  : M unit :=
  do entry <- (fun s =>
      match mapGet user (leaderboard s) with
      | Some entry => ret entry s
      | None =>
          (do now <- newDate in
           let entry := newEntry user now in
           modify (fun s => setLeaderboard (mapSet user entry (leaderboard s)) s)
           >> ret entry) s
      end) in
  do now <- newDate in
  let entry := updateEntry points pulses streak now entry in
  modify (fun s => setLeaderboard (mapSet user entry (leaderboard s)) s)
  >> emit "leaderboard-update" (OfEntry entry).

(** [entry.tier = tier] on the entry of [user], if there is one. *)
Definition setTier (tier : JsString) (entry : LeaderboardEntry.t)
  : LeaderboardEntry.t :=
  {| LeaderboardEntry.user := LeaderboardEntry.user entry;
     LeaderboardEntry.totalPoints := LeaderboardEntry.totalPoints entry;
     LeaderboardEntry.totalPulses := LeaderboardEntry.totalPulses entry;
     LeaderboardEntry.currentStreak := LeaderboardEntry.currentStreak entry;
     LeaderboardEntry.longestStreak := LeaderboardEntry.longestStreak entry;
     LeaderboardEntry.tier := tier;
     LeaderboardEntry.lastActive := LeaderboardEntry.lastActive entry |}.

Definition overwriteTier (user tier : JsString) : M unit :=
  modify (fun s =>
    match mapGet user (leaderboard s) with
    | Some entry =>
        setLeaderboard (mapSet user (setTier tier entry) (leaderboard s)) s
    | None => s
    end).

Definition num (n : Z) : JsVal := VNum n 0.

Definition handlePulseEvent (event : PulseEvent.t) (txHash : JsString)
    (blockHeight timestamp : Z) : M unit :=
  let activity :=
    {| ActivityRecord.id := txHash ++ js "-pulse";
       ActivityRecord.user := PulseEvent.user event;
       ActivityRecord.eventType := js "pulse";
       ActivityRecord.points := PulseEvent.points event;
       ActivityRecord.fee := PulseEvent.fee event;
       ActivityRecord.blockHeight := blockHeight;
       ActivityRecord.txHash := txHash;
       ActivityRecord.timestamp := timestamp * 1000;
       ActivityRecord.metadata :=
         [(js "streak", num (PulseEvent.streak event));
          (js "totalPulses", num (PulseEvent.total_pulses event))] |} in
  push activity
  >> addFees (PulseEvent.fee event)
  >> updateLeaderboard (PulseEvent.user event) (PulseEvent.points event) 1
                       (PulseEvent.streak event)
  >> emit "pulse" (OfActivity activity).

Definition handleBoostEvent (event : BoostEvent.t) (txHash : JsString)
    (blockHeight timestamp : Z) : M unit :=
  let activity :=
    {| ActivityRecord.id := txHash ++ js "-boost";
       ActivityRecord.user := BoostEvent.user event;
       ActivityRecord.eventType := js "boost";
       ActivityRecord.points := BoostEvent.points event;
       ActivityRecord.fee := BoostEvent.fee event;
       ActivityRecord.blockHeight := blockHeight;
       ActivityRecord.txHash := txHash;
       ActivityRecord.timestamp := timestamp * 1000;
       ActivityRecord.metadata :=
         [(js "totalBoosts", num (BoostEvent.total_boosts event))] |} in
  push activity
  >> addFees (BoostEvent.fee event)
  >> updateLeaderboard (BoostEvent.user event) (BoostEvent.points event) 0 0
  >> emit "boost" (OfActivity activity).

Definition handleCheckinEvent (event : CheckinEvent.t) (txHash : JsString)
    (blockHeight timestamp : Z) : M unit :=
  let activity :=
    {| ActivityRecord.id := txHash ++ js "-checkin";
       ActivityRecord.user := CheckinEvent.user event;
       ActivityRecord.eventType := js "checkin";
       ActivityRecord.points := CheckinEvent.points event;
       ActivityRecord.fee := 0;
       ActivityRecord.blockHeight := blockHeight;
       ActivityRecord.txHash := txHash;
       ActivityRecord.timestamp := timestamp * 1000;
       ActivityRecord.metadata := [(js "day", num (CheckinEvent.day event))] |} in
  push activity
  >> updateLeaderboard (CheckinEvent.user event) (CheckinEvent.points event) 0 0
  >> emit "checkin" (OfActivity activity).

Definition handleMegaPulseEvent (event : MegaPulseEvent.t) (txHash : JsString)
    (blockHeight timestamp : Z) : M unit :=
  let activity :=
    {| ActivityRecord.id := txHash ++ js "-mega";
       ActivityRecord.user := MegaPulseEvent.user event;
       ActivityRecord.eventType := js "mega-pulse";
       ActivityRecord.points := MegaPulseEvent.points event;
       ActivityRecord.fee := MegaPulseEvent.fee event;
       ActivityRecord.blockHeight := blockHeight;
       ActivityRecord.txHash := txHash;
       ActivityRecord.timestamp := timestamp * 1000;
       ActivityRecord.metadata :=
         [(js "multiplier", num (MegaPulseEvent.multiplier event))] |} in
  push activity
  >> addFees (MegaPulseEvent.fee event)
  >> updateLeaderboard (MegaPulseEvent.user event) (MegaPulseEvent.points event)
                       (MegaPulseEvent.multiplier event) 0
  >> emit "mega-pulse" (OfActivity activity).

Definition handleChallengeEvent (event : ChallengeEvent.t) (txHash : JsString)
    (blockHeight timestamp : Z) : M unit :=
  let activity :=
    {| ActivityRecord.id := txHash ++ js "-challenge";
       ActivityRecord.user := ChallengeEvent.user event;
       ActivityRecord.eventType := js "challenge";
       ActivityRecord.points := ChallengeEvent.points event;
       ActivityRecord.fee := ChallengeEvent.fee event;
       ActivityRecord.blockHeight := blockHeight;
       ActivityRecord.txHash := txHash;
       ActivityRecord.timestamp := timestamp * 1000;
       ActivityRecord.metadata :=
         [(js "challengeId", num (ChallengeEvent.challenge_id event))] |} in
  push activity
  >> addFees (ChallengeEvent.fee event)
  >> updateLeaderboard (ChallengeEvent.user event) (ChallengeEvent.points event)
                       0 0
  >> emit "challenge" (OfActivity activity).

Definition handleRewardEvent (event : RewardEvent.t) (txHash : JsString)
    (blockHeight timestamp : Z) : M unit :=
  let activity :=
    {| ActivityRecord.id := txHash ++ js "-reward";
       ActivityRecord.user := RewardEvent.user event;
       ActivityRecord.eventType := js "reward";
       ActivityRecord.points := - RewardEvent.points_spent event;
       ActivityRecord.fee := 0;
       ActivityRecord.blockHeight := blockHeight;
       ActivityRecord.txHash := txHash;
       ActivityRecord.timestamp := timestamp * 1000;
       ActivityRecord.metadata :=
         [(js "rewardId", num (RewardEvent.reward_id event));
          (js "stxValue", num (RewardEvent.stx_value event));
          (js "newTier", VStr (RewardEvent.new_tier event))] |} in
  push activity
  >> overwriteTier (RewardEvent.user event) (RewardEvent.new_tier event)
  >> emit "reward" (OfActivity activity).

Definition handleTierEvent (event : TierEvent.t) (txHash : JsString)
    (blockHeight timestamp : Z) : M unit :=
  let activity :=
    {| ActivityRecord.id := txHash ++ js "-tier";
       ActivityRecord.user := TierEvent.user event;
       ActivityRecord.eventType := js "tier";
       ActivityRecord.points := 0;
       ActivityRecord.fee := 0;
       ActivityRecord.blockHeight := blockHeight;
       ActivityRecord.txHash := txHash;
       ActivityRecord.timestamp := timestamp * 1000;
       ActivityRecord.metadata :=
         [(js "tier", VStr (TierEvent.tier event));
          (js "previousTier", VStr (TierEvent.previous_tier event));
          (js "totalPoints", num (TierEvent.total_points event))] |} in
  push activity
  >> overwriteTier (TierEvent.user event) (TierEvent.tier event)
  >> emit "tier" (OfActivity activity).

(** [data.recipient || 'unknown'] *)
Definition recipientOrUnknown (recipient : option JsString) : JsString :=
  match recipient with
  | Some r => if bool_decide (r = []) then js "unknown" else r
  | None => js "unknown"
  end.

Definition optStr (v : option JsString) : JsVal :=
  match v with Some s => VStr s | None => VUndefined end.

Definition processNFTEvent (data : NFTEvent.t) (txHash : JsString)
    (blockHeight timestamp : Z) : M unit :=
  let activity :=
    {| ActivityRecord.id := txHash ++ js "-nft";
       ActivityRecord.user := recipientOrUnknown (NFTEvent.recipient data);
       ActivityRecord.eventType := js "badge-minted";
       ActivityRecord.points := 0;
       ActivityRecord.fee := 0;
       ActivityRecord.blockHeight := blockHeight;
       ActivityRecord.txHash := txHash;
       ActivityRecord.timestamp := timestamp * 1000;
       ActivityRecord.metadata :=
         [(js "tokenId", NFTEvent.asset_identifier data);
          (js "recipient", optStr (NFTEvent.recipient data))] |} in
  push activity
  >> emit "badge" (OfActivity activity).

Definition processSTXTransfer (data : STXTransferEvent.t) (txHash : JsString)
    (blockHeight timestamp : Z) : M unit :=
  let activity :=
    {| ActivityRecord.id := txHash ++ js "-stx";
       ActivityRecord.user := STXTransferEvent.sender data;
       ActivityRecord.eventType := js "stx-transfer";
       ActivityRecord.points := 0;
       ActivityRecord.fee := STXTransferEvent.amount data;
       ActivityRecord.blockHeight := blockHeight;
       ActivityRecord.txHash := txHash;
       ActivityRecord.timestamp := timestamp * 1000;
       ActivityRecord.metadata :=
         [(js "sender", VStr (STXTransferEvent.sender data));
          (js "recipient", VStr (STXTransferEvent.recipient data));
          (js "amount", num (STXTransferEvent.amount data))] |} in
  push activity
  >> emit "stx-transfer" (OfActivity activity).

(** *** Dispatch *)

(** The data of a print event once parsed, by the tag in its [event]
    field; [UnknownTag] stands for every tag the switch has no case
    for. *)
Inductive PrintEvent :=
| PulseSent (event : PulseEvent.t)
| BoostActivated (event : BoostEvent.t)
| DailyCheckin (event : CheckinEvent.t)
| MegaPulse (event : MegaPulseEvent.t)
| ChallengeCompleted (event : ChallengeEvent.t)
| RewardClaimed (event : RewardEvent.t)
| TierAchieved (event : TierEvent.t)
| UnknownTag.

(** [processPrintEvent(data, txHash, blockHeight, timestamp)]: the switch
    inside its try, the catch only logs. *)
Definition processPrintEvent (eventData : PrintEvent) (txHash : JsString)
    (blockHeight timestamp : Z) : M unit :=
  tryM
    match eventData with
    | PulseSent event => handlePulseEvent event txHash blockHeight timestamp
    | BoostActivated event => handleBoostEvent event txHash blockHeight timestamp
    | DailyCheckin event => handleCheckinEvent event txHash blockHeight timestamp
    | MegaPulse event => handleMegaPulseEvent event txHash blockHeight timestamp
    | ChallengeCompleted event =>
        handleChallengeEvent event txHash blockHeight timestamp
    | RewardClaimed event => handleRewardEvent event txHash blockHeight timestamp
    | TierAchieved event => handleTierEvent event txHash blockHeight timestamp
    | UnknownTag => ret tt
    end.

(** An entry of the [events] array that [processTransaction] goes
    through, by its [type]. *)
Inductive TxEvent :=
| PrintEventOf (data : PrintEvent)
| NFTMintEvent (data : NFTEvent.t)
| STXTransfer (data : STXTransferEvent.t)
| OtherEvent.

Record Transaction := { hash : JsString; events : list TxEvent }.

(** [processTransaction(tx, blockHeight, timestamp)], from the events
    gathered (line 362 on). *)
Definition processTransaction (tx : Transaction) (blockHeight timestamp : Z)
  : M unit :=
  let txHash := hash tx in
  forOf (events tx) (fun event =>
    match event with
    | PrintEventOf data => processPrintEvent data txHash blockHeight timestamp
    | NFTMintEvent data => processNFTEvent data txHash blockHeight timestamp
    | STXTransfer data => processSTXTransfer data txHash blockHeight timestamp
    | OtherEvent => ret tt
    end).

(** A block of [applyBlocks]; a field the payload may lack is an
    option. *)
Record Block := {
  index : option Z;
  blockTimestamp : option Z;
  transactions : option (list Transaction)
}.

(** [handleRollback(rollback)], the rollback given by the block indices
    of its entries. *)
Definition handleRollback (rollback : list Z) : M unit :=
  forOf rollback (fun index =>
    modify (fun s =>
      setActivities
        (List.filter
           (fun activity => negb (ActivityRecord.blockHeight activity =? index))
           (activities s)) s))
  >> emit "rollback" (OfRollback rollback).

(** [block.transactions || []] *)
Definition transactionsOf (block : Block) : list Transaction :=
  match transactions block with Some txs => txs | None => [] end.

Definition txCount (applyBlocks : list Block) : Z :=
  fold_left (fun sum block => sum + Z.of_nat (length (transactionsOf block)))
            applyBlocks 0.

(** [processPayload(payload)], from the rollback list and the blocks
    the payload resolves to. *)
Definition processPayload (rollback : list Z) (applyBlocks : list Block)
  : M unit :=
  (if (0 <? Z.of_nat (length rollback)) then handleRollback rollback else ret tt)
  >> forOf applyBlocks (fun block =>
       forOf (transactionsOf block) (fun tx =>
         processTransaction tx
           (match index block with Some i => i | None => 0 end)
           (match blockTimestamp block with Some t => t | None => 0 end)))
  >> modify (fun s =>
       setTotalTransactions (totalTransactions s + txCount applyBlocks) s).

(** *** Queries *)

(** [xs.slice(start)] *)
Definition sliceFrom {X} (xs : list X) (start : Z) : list X :=
  skipn (Z.to_nat (Buf.clamp (Z.of_nat (length xs)) start)) xs.

(** [xs.slice(0, stop)] *)
Definition sliceTo {X} (xs : list X) (stop : Z) : list X :=
  firstn (Z.to_nat (Buf.clamp (Z.of_nat (length xs)) stop)) xs.

Definition getActivities (limit : Z) (s : State) : list ActivityRecord.t :=
  rev (sliceFrom (activities s) (- limit)).

Definition getUserActivities (user : JsString) (limit : Z) (s : State)
  : list ActivityRecord.t :=
  rev (sliceFrom
         (List.filter (fun a => bool_decide (ActivityRecord.user a = user))
                      (activities s))
         (- limit)).

(** [sort((a, b) => b.totalPoints - a.totalPoints)]: the sort is stable,
    entries of equal points keep their order. *)
Fixpoint insertSorted (e : LeaderboardEntry.t) (sorted : list LeaderboardEntry.t)
  : list LeaderboardEntry.t :=
  match sorted with
  | [] => [e]
  | x :: rest =>
      if LeaderboardEntry.totalPoints x <=? LeaderboardEntry.totalPoints e
      then e :: sorted
      else x :: insertSorted e rest
  end.

Definition sortByPoints (entries : list LeaderboardEntry.t)
  : list LeaderboardEntry.t :=
  fold_right insertSorted [] entries.

Definition getLeaderboard (limit : Z) (s : State) : list LeaderboardEntry.t :=
  sliceTo (sortByPoints (map snd (leaderboard s))) limit.

Definition getTotalFees (s : State) : Z := totalFees s.

Definition getTotalTransactions (s : State) : Z := totalTransactions s.

Record Stats := {
  totalUsers : Z;
  totalActivities : Z;
  statsTotalFees : Z;
  statsTotalTransactions : Z
}.

Definition getStats (s : State) : Stats :=
  {| totalUsers := Z.of_nat (length (leaderboard s));
     totalActivities := Z.of_nat (length (activities s));
     statsTotalFees := totalFees s;
     statsTotalTransactions := totalTransactions s |}.

(** The call of the listener [l] on a channel with a payload. *)
Definition callOf (channel : JsString) (p : Payload)
    (l : Emitter.Listener Payload) : Emitter.Call Payload :=
  {| Emitter.callee := Emitter.lid l; Emitter.channel := channel;
     Emitter.payload := p |}.

(** A method leaves a component [f] of the state as it found it,
    whether it returns or throws. *)
Definition preserves {A X} (f : State -> X) (m : M A) : Prop :=
  forall s, f (snd (m s)) = f s.

End Handler.

(** ** The documented layout of an encoded tuple

    The fields of a well-formed buffer: a key with its two length bytes,
    the tag byte, and the bytes of the value: sixteen of an integer, a
    string after its two length bytes, twenty-one of a principal. *)

Module Layout.
Import Buf.

Definition be16 (n : Z) : list Z := [n / 256; n mod 256].

(** The [k] bytes of [v], most significant first. *)
Fixpoint beBytes (k : nat) (v : Z) : list Z :=
  match k with
  | O => []
  | S k' => (v / 256 ^ Z.of_nat k') mod 256 :: beBytes k' v
  end.

Inductive Field :=
| IntField (key : list Z) (tag : Z) (value : list Z)
| StrField (key : list Z) (tag : Z) (value : list Z)
| PrincipalField (key : list Z) (value : list Z).

Definition fieldKey (f : Field) : list Z :=
  match f with
  | IntField key _ _ | StrField key _ _ | PrincipalField key _ => key
  end.

Definition encodeField (f : Field) : list Z :=
  match f with
  | IntField key tag value => be16 (len key) ++ key ++ [tag] ++ value
  | StrField key tag value =>
      be16 (len key) ++ key ++ [tag] ++ be16 (len value) ++ value
  | PrincipalField key value => be16 (len key) ++ key ++ [9] ++ value
  end.

Definition wfField (f : Field) : Prop :=
  len (fieldKey f) < 65536 /\
  match f with
  | IntField _ tag value => (tag = 0 \/ tag = 1) /\ len value = 16
  | StrField _ tag value => (tag = 6 \/ tag = 7) /\ len value < 65536
  | PrincipalField _ value => len value = 21
  end.

(** The marker byte, the two bytes of the declared length, the fields. *)
Definition encodeTuple (fields : list Field) : list Z :=
  12 :: be16 (Z.of_nat (length fields)) ++ flat_map encodeField fields.

(** What the decoder stores for a field. *)
Definition decodedValue (f : Field) : JsVal :=
  match f with
  | IntField _ _ value => VStr (bigintToString (beValue (firstn 8 value)))
  | StrField _ _ value => VStr (toUtf8String value)
  | PrincipalField _ value => VStr (js "0x" ++ toHex value)
  end.

Definition decodedFields (fields : list Field) (result : JsObj) : JsObj :=
  fold_left
    (fun result f => assignProp (toUtf8String (fieldKey f)) (decodedValue f) result)
    fields result.

(** A field that cannot be read to its end: the bytes left are too few
    for what the field declares, or its tag is none of the five. *)
Inductive Malformed : list Z -> Prop :=
| NoKeyLength (b : Z) :
    Malformed [b]
| KeyOverrun (k1 k2 : Z) (rest : list Z) :
    len rest < 256 * k1 + k2 -> Malformed (k1 :: k2 :: rest)
| NoTag (key : list Z) :
    len key < 65536 -> Malformed (be16 (len key) ++ key)
| UnknownTag (key : list Z) (tag : Z) (rest : list Z) :
    len key < 65536 ->
    tag <> 0 -> tag <> 1 -> tag <> 6 -> tag <> 7 -> tag <> 9 ->
    Malformed (be16 (len key) ++ key ++ tag :: rest)
| IntOverrun (key : list Z) (tag : Z) (rest : list Z) :
    len key < 65536 -> tag = 0 \/ tag = 1 -> len rest < 16 ->
    Malformed (be16 (len key) ++ key ++ tag :: rest)
| NoStrLength (key : list Z) (tag : Z) (rest : list Z) :
    len key < 65536 -> tag = 6 \/ tag = 7 -> len rest < 2 ->
    Malformed (be16 (len key) ++ key ++ tag :: rest)
| StrOverrun (key : list Z) (tag s1 s2 : Z) (rest : list Z) :
    len key < 65536 -> tag = 6 \/ tag = 7 -> len rest < 256 * s1 + s2 ->
    Malformed (be16 (len key) ++ key ++ tag :: s1 :: s2 :: rest)
| PrincipalOverrun (key : list Z) (rest : list Z) :
    len key < 65536 -> len rest < 21 ->
    Malformed (be16 (len key) ++ key ++ 9 :: rest).

(** The bytes a buffer holds. *)
Definition isBytes (b : list Z) : Prop := Forall (fun x => 0 <= x < 256) b.

End Layout.

(** ** The events of a transaction, as they come in the payload

    The first part of [processTransaction] (lines 308 to 358), which
    gathers the events of a transaction from its receipt and from its
    operations, and the test on the type of an event that picks its
    handler (lines 362 to 370), on the values of the payload.
    [Math.abs(parseInt(v))] is left to the runtime. *)

Module Gather.
Import Normalizer.
Local Open Scope string_scope.

Section Gather.
Variable absParseInt : JsVal -> JsVal.

(** [v === 'literal'] *)
Definition isStr (literal : string) (v : JsVal) : bool :=
  match v with
  | VStr x => bool_decide (x = js literal)
  | _ => false
  end.

(** [v.k], a TypeError when [v] is null or undefined. *)
Definition member (k : string) (v : JsVal) : Outcome JsVal :=
  match v with
  | VUndefined | VNull => Throw TypeError
  | _ => Ret (field k v)
  end.

(** [this.decodeClarityValue(hexValue)] on a value that need not be a
    string: [hexValue.startsWith] is a function on strings only. *)
Definition decodeAny (hexValue : JsVal) : Outcome JsVal :=
  match hexValue with
  | VStr s => Decoder.decodeClarityValue s
  | _ => Throw TypeError
  end.

(** The events one operation adds to [events]. *)
Definition opEvents (blockHeight : JsVal) (op : JsVal) : Outcome (list JsVal) :=
  type ← member "type" op;
  if isStr "contract_log" type
     && isStr "print" (field "topic" (field "metadata" op)) then
    let hexValue := field "value" (field "metadata" op) in
    if truthy hexValue then
      match decodeAny hexValue with
      | Ret decoded =>
          Ret [obj [("type", VStr (js "print_event")); ("data", decoded)]]
      | Throw _ =>
          Ret [obj [("type", VStr (js "print_event"));
                    ("data", field "metadata" op)]]
      | OutOfFuel => OutOfFuel
      end
    else Ret []
  else if isStr "stx_transfer" type then
    let value := field "value" (field "amount" op) in
    Ret [obj [("type", VStr (js "stx_transfer_event"));
              ("data",
               obj [("sender",
                     orElse (field "address" (field "account" op)) (VStr []));
                    ("recipient",
                     if truthy value then VStr (js "fee-receiver") else VStr []);
                    ("amount", absParseInt (orElse value (VStr (js "0"))));
                    ("block_height", blockHeight)])]]
  else Ret [].

Fixpoint allOpEvents (blockHeight : JsVal) (ops : list JsVal)
  : Outcome (list JsVal) :=
  match ops with
  | [] => Ret []
  | op :: ops' =>
      first ← opEvents blockHeight op;
      rest ← allOpEvents blockHeight ops';
      Ret (first ++ rest)%list
  end.

(** The hash of the transaction and its events, those of the receipt
    and then those of the operations. *)
Definition gatherEvents (tx blockHeight : JsVal) : Outcome (JsVal * list JsVal) :=
  identifier ← member "transaction_identifier" tx;
  txHash ← member "hash" identifier;
  let receiptEvents := field "events" (field "receipt" (field "metadata" tx)) in
  let events := if isArray receiptEvents then elements receiptEvents else [] in
  more ← (if isArray (field "operations" tx)
          then allOpEvents blockHeight (elements (field "operations" tx))
          else Ret []);
  Ret (txHash, (events ++ more)%list).

End Gather.

(** Where the loop over the events sends an event. *)
Inductive Branch := ToPrintEvent | ToNFTEvent | ToSTXTransfer | NoHandler.

Definition branchOf (event : JsVal) : Outcome Branch :=
  type ← member "type" event;
  if isStr "print_event" type || isStr "SmartContractEvent" type
  then Ret ToPrintEvent
  else if isStr "nft_mint_event" type || isStr "NFTMintEvent" type
  then Ret ToNFTEvent
  else if isStr "stx_transfer_event" type || isStr "STXTransferEvent" type
  then Ret ToSTXTransfer
  else Ret NoHandler.

(** The case of the switch of [processPrintEvent] that the data of a
    print event reaches: the data is parsed when it is a string, and
    its [event] is compared with the seven tags; [Caught] is the catch
    of the method, reached when the parse or the read of [event]
    throws. *)
Inductive Case :=
| CasePulse | CaseBoost | CaseCheckin | CaseMegaPulse | CaseChallenge
| CaseReward | CaseTier | CaseDefault | Caught.

Definition caseOfTag (eventType : JsVal) : Case :=
  if isStr "pulse-sent" eventType then CasePulse
  else if isStr "boost-activated" eventType then CaseBoost
  else if isStr "daily-checkin" eventType then CaseCheckin
  else if isStr "mega-pulse" eventType then CaseMegaPulse
  else if isStr "challenge-completed" eventType then CaseChallenge
  else if isStr "reward-claimed" eventType then CaseReward
  else if isStr "tier-achieved" eventType then CaseTier
  else CaseDefault.

Definition printCase (data : JsVal) : Case :=
  match
    (eventData ← match data with
                 | VStr text => Json.parse text
                 | _ => Ret data
                 end;
     member "event" eventData)
  with
  | Ret eventType => caseOfTag eventType
  | _ => Caught
  end.

End Gather.

(** ** The handlers on the values as they arrive

    [Handler] gives the methods at the types their signatures declare.
    The data of an event reaches them through casts that check nothing
    ([eventData as PulseEvent], [data: any]), and the tuple decoder
    stores every integer as a string ([value.toString()]).  This module
    gives the same methods on the values of the payload, with [+=], [>],
    [>=], the unary minus, [===] and the template literals as JavaScript
    computes them on numbers and strings.

    A number is a double: the operations are given on the integers a
    double holds exactly, from [-(2^53 - 1)] to [2^53 - 1], where they
    are exact.  An operation on an operand beyond these (a number that
    is not such an integer, the numeric reading of a string that is not
    a run of digits with or without a sign, an object where a number or
    a string is needed) is [Unmodelled], and so is the method that meets
    it: nothing is said about such a run. *)

Module Untyped.
Import Normalizer Gather.
Local Open Scope string_scope.

(** *** Numbers and strings *)

Definition maxSafe : Z := 9007199254740991.

Definition safe (n : Z) : bool := (- maxSafe <=? n)%Z && (n <=? maxSafe)%Z.

(** The integer of a number value, when it is a safe integer. *)
Definition intOf (v : JsVal) : option Z :=
  match v with
  | VNum m e =>
      if (0 <=? e)%Z then
        if safe (m * 10 ^ e) then Some (m * 10 ^ e)%Z else None
      else if (m mod 10 ^ (- e) =? 0)%Z && safe (m / 10 ^ (- e))
      then Some (m / 10 ^ (- e))%Z
      else None
  | _ => None
  end.

(** [String(n)] for a safe integer. *)
Definition decimal (n : Z) : JsString :=
  if (n <? 0)%Z then (45 :: Buf.bigintToString (- n))%Z
  else Buf.bigintToString n.

(** ToString on a primitive value. *)
Definition toStringPrim (v : JsVal) : option JsString :=
  match v with
  | VUndefined => Some (js "undefined")
  | VNull => Some (js "null")
  | VBool true => Some (js "true")
  | VBool false => Some (js "false")
  | VNum _ _ => n ← intOf v; Some (decimal n)
  | VStr s => Some s
  | VArr _ | VObj _ => None
  end.

Definition isDigit (c : Z) : bool := (48 <=? c)%Z && (c <=? 57)%Z.

Fixpoint digitsValue (acc : Z) (s : JsString) : option Z :=
  match s with
  | [] => Some acc
  | c :: s' => if isDigit c then digitsValue (10 * acc + (c - 48)) s' else None
  end.

Definition safeOnly (n : Z) : option Z := if safe n then Some n else None.

(** The number a string reads as: the empty string is 0, a run of
    decimal digits its value, also behind a sign. *)
Definition strNumber (s : JsString) : option Z :=
  match s with
  | [] => Some 0%Z
  | 45%Z :: (_ :: _) as digits => n ← digitsValue 0 digits; safeOnly (- n)
  | 43%Z :: (_ :: _) as digits => n ← digitsValue 0 digits; safeOnly n
  | _ => n ← digitsValue 0 s; safeOnly n
  end.

(** ToNumber on a primitive value. *)
Definition numberOf (v : JsVal) : option Z :=
  match v with
  | VNull => Some 0%Z
  | VBool b => Some (if b then 1 else 0)%Z
  | VNum _ _ => intOf v
  | VStr s => strNumber s
  | VUndefined | VArr _ | VObj _ => None
  end.

(** [a + b], the operation of [a += b]: the concatenation when one of
    the two is a string, the sum of the two numbers otherwise. *)
Definition plus (a b : JsVal) : option JsVal :=
  match a, b with
  | VArr _, _ | VObj _, _ | _, VArr _ | _, VObj _ => None
  | VStr s, _ => t ← toStringPrim b; Some (VStr (s ++ t)%list)
  | _, VStr t => s ← toStringPrim a; Some (VStr (s ++ t)%list)
  | _, _ =>
      x ← numberOf a; y ← numberOf b;
      if safe (x + y) then Some (VNum (x + y) 0) else None
  end.

(** The order of two strings: by their code units, a proper prefix
    first. *)
Fixpoint strLt (s t : JsString) : bool :=
  match s, t with
  | _, [] => false
  | [], _ :: _ => true
  | a :: s', b :: t' =>
      if (a <? b)%Z then true else if (b <? a)%Z then false else strLt s' t'
  end.

(** [a > b]: the order of strings when both are strings, of their
    numbers otherwise. *)
Definition gt (a b : JsVal) : option bool :=
  match a, b with
  | VStr s, VStr t => Some (strLt t s)
  | _, _ => x ← numberOf a; y ← numberOf b; Some (y <? x)%Z
  end.

(** [a >= b] *)
Definition ge (a b : JsVal) : option bool :=
  match a, b with
  | VStr s, VStr t => Some (negb (strLt s t))
  | _, _ => x ← numberOf a; y ← numberOf b; Some (y <=? x)%Z
  end.

(** [-a] *)
Definition neg (a : JsVal) : option JsVal :=
  x ← numberOf a; Some (VNum (- x) 0).

(** [a === b].  Two objects are equal when they are one object, which
    two values of different events, blocks or payloads never are. *)
Definition strictEq (a b : JsVal) : option bool :=
  match a, b with
  | VUndefined, VUndefined | VNull, VNull => Some true
  | VBool x, VBool y => Some (eqb x y)
  | VStr s, VStr t => Some (bool_decide (s = t))
  | VNum m e, VNum m' e' =>
      if (m =? m')%Z && (e =? e')%Z then Some true
      else x ← intOf a; y ← intOf b; Some (x =? y)%Z
  | _, _ => Some false
  end.

(** The equality of the keys of a [Map]; it differs from [===] on NaN
    alone, which no value here is. *)
Definition sameValueZero (a b : JsVal) : option bool := strictEq a b.

(** *** Records, entries and the state *)

(** An activity record.  [timestamp] is the value [t] the record's
    [new Date(t * 1000)] is made from. *)
Module Activity.
Record t := {
  id : JsString;
  user : JsVal;
  eventType : JsString;
  points : JsVal;
  fee : JsVal;
  blockHeight : JsVal;
  txHash : JsVal;
  timestamp : JsVal;
  metadata : JsObj
}.
End Activity.

Module Entry.
Record t := {
  user : JsVal;
  totalPoints : JsVal;
  totalPulses : JsVal;
  currentStreak : JsVal;
  longestStreak : JsVal;
  tier : JsVal;
  lastActive : Z
}.
End Entry.

Inductive Payload :=
| OfActivity (activity : Activity.t)
| OfEntry (entry : Entry.t)
| OfRollback (rollback : list JsVal).

Record State := {
  activities : list Activity.t;
  leaderboard : list (JsVal * Entry.t);
  totalFees : JsVal;
  totalTransactions : Z;
  listeners : Emitter.Registry Payload;
  calls : list (Emitter.Call Payload);
  clock : nat -> Z;
  ticks : nat
}.

(** [new WebhookHandler()] *)
Definition initial (clock : nat -> Z) : State :=
  {| activities := []; leaderboard := []; totalFees := VNum 0 0;
     totalTransactions := 0; listeners := Emitter.noListeners; calls := [];
     clock := clock; ticks := 0 |}.

Definition setActivities (v : list Activity.t) (s : State) : State :=
  {| activities := v; leaderboard := leaderboard s; totalFees := totalFees s;
     totalTransactions := totalTransactions s; listeners := listeners s;
     calls := calls s; clock := clock s; ticks := ticks s |}.

Definition setLeaderboard (v : list (JsVal * Entry.t)) (s : State) : State :=
  {| activities := activities s; leaderboard := v; totalFees := totalFees s;
     totalTransactions := totalTransactions s; listeners := listeners s;
     calls := calls s; clock := clock s; ticks := ticks s |}.

Definition setTotalFees (v : JsVal) (s : State) : State :=
  {| activities := activities s; leaderboard := leaderboard s; totalFees := v;
     totalTransactions := totalTransactions s; listeners := listeners s;
     calls := calls s; clock := clock s; ticks := ticks s |}.

Definition setTotalTransactions (v : Z) (s : State) : State :=
  {| activities := activities s; leaderboard := leaderboard s;
     totalFees := totalFees s; totalTransactions := v; listeners := listeners s;
     calls := calls s; clock := clock s; ticks := ticks s |}.

Definition setListeners (v : Emitter.Registry Payload) (s : State) : State :=
  {| activities := activities s; leaderboard := leaderboard s;
     totalFees := totalFees s; totalTransactions := totalTransactions s;
     listeners := v; calls := calls s; clock := clock s; ticks := ticks s |}.

Definition setCalls (v : list (Emitter.Call Payload)) (s : State) : State :=
  {| activities := activities s; leaderboard := leaderboard s;
     totalFees := totalFees s; totalTransactions := totalTransactions s;
     listeners := listeners s; calls := v; clock := clock s; ticks := ticks s |}.

Definition setTicks (v : nat) (s : State) : State :=
  {| activities := activities s; leaderboard := leaderboard s;
     totalFees := totalFees s; totalTransactions := totalTransactions s;
     listeners := listeners s; calls := calls s; clock := clock s; ticks := v |}.

(** *** Methods *)

(** What a call does: it returns, it throws, or it leaves what is
    modelled. *)
Inductive Result (A : Type) :=
| Returned (a : A)
| Thrown (e : JsError)
| Unmodelled.
Arguments Returned {A} a.
Arguments Thrown {A} e.
Arguments Unmodelled {A}.

Definition W (A : Type) : Type := State -> Result A * State.

Definition ret {A} (a : A) : W A := fun s => (Returned a, s).

Definition bind {A B} (m : W A) (k : A -> W B) : W B := fun s =>
  match m s with
  | (Returned a, s') => k a s'
  | (Thrown e, s') => (Thrown e, s')
  | (Unmodelled, s') => (Unmodelled, s')
  end.

Notation "m >> k" := (bind m (fun _ => k))
  (at level 90, right associativity).
Notation "'do' x <- m 'in' k" := (bind m (fun x => k))
  (at level 10, x name, m at level 100, k at level 200).

(** The value of an operation, where it is modelled. *)
Definition lift {A} (o : option A) : W A := fun s =>
  match o with
  | Some a => (Returned a, s)
  | None => (Unmodelled, s)
  end.

(** The value of an operation on the fields of the handler. *)
Definition read {A} (g : State -> option A) : W A := fun s => lift (g s) s.

(** The outcome of a call that touches no field of the handler. *)
Definition ofOutcome {A} (o : Outcome A) : W A := fun s =>
  match o with
  | Ret a => (Returned a, s)
  | Throw e => (Thrown e, s)
  | OutOfFuel => (Unmodelled, s)
  end.

(** [try { m } catch { }] *)
Definition tryW (m : W unit) : W unit := fun s =>
  match m s with
  | (Thrown _, s') => (Returned tt, s')
  | r => r
  end.

(** [for (const x of xs) { await f(x) }] *)
Fixpoint forOf {X} (xs : list X) (f : X -> W unit) : W unit :=
  match xs with
  | [] => ret tt
  | x :: xs' => f x >> forOf xs' f
  end.

Definition modify (f : State -> State) : W unit := fun s => (Returned tt, f s).

(** [new Date()] *)
Definition newDate : W Z := fun s =>
  (Returned (clock s (ticks s)), setTicks (S (ticks s)) s).

(** [this.on(channel, l)] *)
Definition on (channel : string) (l : Emitter.Listener Payload) : W unit :=
  modify (fun s => setListeners (Emitter.on (js channel) l (listeners s)) s).

(** [this.emit(channel, p)] *)
Definition emit (channel : string) (p : Payload) : W unit := fun s =>
  let rc := Emitter.emit (listeners s) (js channel) p in
  (match fst rc with
   | Ret a => Returned a
   | Throw e => Thrown e
   | OutOfFuel => Unmodelled
   end,
   setCalls (calls s ++ snd rc) s).

(** The values a template literal of a [console.log] turns into
    strings: a primitive value has its string and nothing else
    happens; the string of an object is not modelled. *)
Definition logs (values : list JsVal) : W unit :=
  lift (if existsb isObjectValue values then None else Some tt).

(** [this.activities.push(activity)] *)
Definition push (activity : Activity.t) : W unit :=
  modify (fun s => setActivities (activities s ++ [activity]) s).

(** [this.totalFees += fee] *)
Definition addFees (fee : JsVal) : W unit :=
  do total <- read (fun s => plus (totalFees s) fee) in
  modify (setTotalFees total).

(** [this.leaderboard.get(key)] on the entries in the order of their
    first [set]. *)
Fixpoint findKey (key : JsVal) (m : list (JsVal * Entry.t))
  : option (option Entry.t) :=
  match m with
  | [] => Some None
  | (key', entry) :: m' =>
      same ← sameValueZero key key';
      if same : bool then Some (Some entry) else findKey key m'
  end.

(** The entry under [key], which the map has, changed to [entry]. *)
Fixpoint replaceKey (key : JsVal) (entry : Entry.t) (m : list (JsVal * Entry.t))
  : list (JsVal * Entry.t) :=
  match m with
  | [] => []
  | (key', entry') :: m' =>
      match sameValueZero key key' with
      | Some true => (key', entry) :: m'
      | _ => (key', entry') :: replaceKey key entry m'
      end
  end.

(** *** The event handlers *)

(** The entry [updateLeaderboard] makes for a user it has not seen. *)
Definition newEntry (user : JsVal) (now : Z) : Entry.t :=
  {| Entry.user := user;
     Entry.totalPoints := VNum 0 0;
     Entry.totalPulses := VNum 0 0;
     Entry.currentStreak := VNum 0 0;
     Entry.longestStreak := VNum 0 0;
     Entry.tier := VStr (js "none");
     Entry.lastActive := now |}.

(** The if-chain on the points of the entry. *)
Definition tierUpdate (totalPoints tier : JsVal) : option JsVal :=
  platinum ← ge totalPoints (VNum 5000 0);
  if platinum : bool then Some (VStr (js "platinum")) else
  gold ← ge totalPoints (VNum 1000 0);
  if gold : bool then Some (VStr (js "gold")) else
  silver ← ge totalPoints (VNum 500 0);
  if silver : bool then Some (VStr (js "silver")) else
  bronze ← ge totalPoints (VNum 100 0);
  if bronze : bool then Some (VStr (js "bronze")) else Some tier.

(** The assignments of [updateLeaderboard] to the entry: the two [+=],
    the date, the streaks and the tier. *)
Definition updateEntry (points pulses streak : JsVal) (now : Z) (entry : Entry.t)
  : option Entry.t :=
  totalPoints ← plus (Entry.totalPoints entry) points;
  totalPulses ← plus (Entry.totalPulses entry) pulses;
  positive ← gt streak (VNum 0 0);
  longer ← (if positive : bool
            then gt streak (Entry.longestStreak entry)
            else Some false);
  tier ← tierUpdate totalPoints (Entry.tier entry);
  Some {| Entry.user := Entry.user entry;
          Entry.totalPoints := totalPoints;
          Entry.totalPulses := totalPulses;
          Entry.currentStreak :=
            (if positive : bool then streak else Entry.currentStreak entry);
          Entry.longestStreak :=
            (if longer : bool then streak else Entry.longestStreak entry);
          Entry.tier := tier;
          Entry.lastActive := now |}.

(** The entry [updateLeaderboard] starts from: the one found, or a new
    one with the date read. *)
Definition startEntry (user : JsVal) (found : option Entry.t) (s : State)
  : Entry.t :=
  match found with
  | Some entry => entry
  | None => newEntry user (clock s (ticks s))
  end.

(** [updateLeaderboard(user, points, pulses, streak)]: the entry of the
    user, or a new one, takes the assignments and has its place in the
    map when the listeners are called. *)
Definition updateLeaderboard (user points pulses streak : JsVal) : W unit :=
  do found <- read (fun s => findKey user (leaderboard s)) in
  do entry <- match found with
              | Some entry => ret entry
              | None => do now <- newDate in ret (newEntry user now)
              end in
  do now <- newDate in
  do entry' <- lift (updateEntry points pulses streak now entry) in
  modify (fun s =>
    setLeaderboard
      match found with
      | Some _ => replaceKey user entry' (leaderboard s)
      | None => (leaderboard s ++ [(user, entry')])%list
      end s)
  >> emit "leaderboard-update" (OfEntry entry').

Definition setTier (tier : JsVal) (entry : Entry.t) : Entry.t :=
  {| Entry.user := Entry.user entry;
     Entry.totalPoints := Entry.totalPoints entry;
     Entry.totalPulses := Entry.totalPulses entry;
     Entry.currentStreak := Entry.currentStreak entry;
     Entry.longestStreak := Entry.longestStreak entry;
     Entry.tier := tier;
     Entry.lastActive := Entry.lastActive entry |}.

(** [const entry = this.leaderboard.get(user); if (entry) entry.tier = tier] *)
Definition overwriteTier (user tier : JsVal) : W unit :=
  do found <- read (fun s => findKey user (leaderboard s)) in
  match found with
  | Some entry =>
      modify (fun s =>
        setLeaderboard (replaceKey user (setTier tier entry) (leaderboard s)) s)
  | None => ret tt
  end.

(** The [id] and the [timestamp] of a record: the template literal
    [`${txHash}-suffix`] and the argument of [new Date(timestamp * 1000)]. *)
Definition idOf (txHash : JsVal) (suffix : string) : option JsString :=
  hash ← toStringPrim txHash; Some (hash ++ js suffix)%list.

Definition dateOf (timestamp : JsVal) : option JsVal :=
  match timestamp with
  | VArr _ | VObj _ => None
  | _ => Some timestamp
  end.

Definition record (id : JsString) (eventType : string) (user points fee : JsVal)
    (txHash blockHeight date : JsVal) (metadata : list (string * JsVal))
  : Activity.t :=
  {| Activity.id := id;
     Activity.user := user;
     Activity.eventType := js eventType;
     Activity.points := points;
     Activity.fee := fee;
     Activity.blockHeight := blockHeight;
     Activity.txHash := txHash;
     Activity.timestamp := date;
     Activity.metadata := map (fun kv => (js (fst kv), snd kv)) metadata |}.

Definition handlePulseEvent (event txHash blockHeight timestamp : JsVal)
  : W unit :=
  do id <- lift (idOf txHash "-pulse") in
  do date <- lift (dateOf timestamp) in
  let activity :=
    record id "pulse" (field "user" event) (field "points" event)
           (field "fee" event) txHash blockHeight date
           [("streak", field "streak" event);
            ("totalPulses", field "total_pulses" event)] in
  push activity
  >> addFees (field "fee" event)
  >> updateLeaderboard (field "user" event) (field "points" event) (VNum 1 0)
                       (field "streak" event)
  >> emit "pulse" (OfActivity activity)
  >> logs [field "user" event; field "points" event; field "streak" event].

Definition handleBoostEvent (event txHash blockHeight timestamp : JsVal)
  : W unit :=
  do id <- lift (idOf txHash "-boost") in
  do date <- lift (dateOf timestamp) in
  let activity :=
    record id "boost" (field "user" event) (field "points" event)
           (field "fee" event) txHash blockHeight date
           [("totalBoosts", field "total_boosts" event)] in
  push activity
  >> addFees (field "fee" event)
  >> updateLeaderboard (field "user" event) (field "points" event) (VNum 0 0)
                       (VNum 0 0)
  >> emit "boost" (OfActivity activity)
  >> logs [field "user" event; field "points" event].

Definition handleCheckinEvent (event txHash blockHeight timestamp : JsVal)
  : W unit :=
  do id <- lift (idOf txHash "-checkin") in
  do date <- lift (dateOf timestamp) in
  let activity :=
    record id "checkin" (field "user" event) (field "points" event)
           (VNum 0 0) txHash blockHeight date
           [("day", field "day" event)] in
  push activity
  >> updateLeaderboard (field "user" event) (field "points" event) (VNum 0 0)
                       (VNum 0 0)
  >> emit "checkin" (OfActivity activity)
  >> logs [field "user" event; field "day" event].

Definition handleMegaPulseEvent (event txHash blockHeight timestamp : JsVal)
  : W unit :=
  do id <- lift (idOf txHash "-mega") in
  do date <- lift (dateOf timestamp) in
  let activity :=
    record id "mega-pulse" (field "user" event) (field "points" event)
           (field "fee" event) txHash blockHeight date
           [("multiplier", field "multiplier" event)] in
  push activity
  >> addFees (field "fee" event)
  >> updateLeaderboard (field "user" event) (field "points" event)
                       (field "multiplier" event) (VNum 0 0)
  >> emit "mega-pulse" (OfActivity activity)
  >> logs [field "user" event; field "multiplier" event; field "points" event].

Definition handleChallengeEvent (event txHash blockHeight timestamp : JsVal)
  : W unit :=
  do id <- lift (idOf txHash "-challenge") in
  do date <- lift (dateOf timestamp) in
  let activity :=
    record id "challenge" (field "user" event) (field "points" event)
           (field "fee" event) txHash blockHeight date
           [("challengeId", field "challenge_id" event)] in
  push activity
  >> addFees (field "fee" event)
  >> updateLeaderboard (field "user" event) (field "points" event) (VNum 0 0)
                       (VNum 0 0)
  >> emit "challenge" (OfActivity activity)
  >> logs [field "challenge_id" event; field "user" event].

Definition handleRewardEvent (event txHash blockHeight timestamp : JsVal)
  : W unit :=
  do id <- lift (idOf txHash "-reward") in
  do points <- lift (neg (field "points_spent" event)) in
  do date <- lift (dateOf timestamp) in
  let activity :=
    record id "reward" (field "user" event) points (VNum 0 0)
           txHash blockHeight date
           [("rewardId", field "reward_id" event);
            ("stxValue", field "stx_value" event);
            ("newTier", field "new_tier" event)] in
  push activity
  >> overwriteTier (field "user" event) (field "new_tier" event)
  >> emit "reward" (OfActivity activity)
  >> logs [field "user" event; field "stx_value" event].

Definition handleTierEvent (event txHash blockHeight timestamp : JsVal)
  : W unit :=
  do id <- lift (idOf txHash "-tier") in
  do date <- lift (dateOf timestamp) in
  let activity :=
    record id "tier" (field "user" event) (VNum 0 0) (VNum 0 0)
           txHash blockHeight date
           [("tier", field "tier" event);
            ("previousTier", field "previous_tier" event);
            ("totalPoints", field "total_points" event)] in
  push activity
  >> overwriteTier (field "user" event) (field "tier" event)
  >> emit "tier" (OfActivity activity)
  >> logs [field "user" event; field "tier" event].

Definition processNFTEvent (data txHash blockHeight timestamp : JsVal)
  : W unit :=
  do id <- lift (idOf txHash "-nft") in
  do recipient <- ofOutcome (member "recipient" data) in
  do date <- lift (dateOf timestamp) in
  let activity :=
    record id "badge-minted" (orElse recipient (VStr (js "unknown")))
           (VNum 0 0) (VNum 0 0) txHash blockHeight date
           [("tokenId", field "asset_identifier" data);
            ("recipient", recipient)] in
  push activity
  >> emit "badge" (OfActivity activity)
  >> logs [recipient].

Definition processSTXTransfer (data txHash blockHeight timestamp : JsVal)
  : W unit :=
  do id <- lift (idOf txHash "-stx") in
  do sender <- ofOutcome (member "sender" data) in
  do date <- lift (dateOf timestamp) in
  let activity :=
    record id "stx-transfer" sender (VNum 0 0) (field "amount" data)
           txHash blockHeight date
           [("sender", sender);
            ("recipient", field "recipient" data);
            ("amount", field "amount" data)] in
  push activity
  >> emit "stx-transfer" (OfActivity activity).

(** *** Dispatch *)

(** [typeof data === 'string' ? JSON.parse(data) : data] *)
Definition parsed (data : JsVal) : Outcome JsVal :=
  match data with
  | VStr text => Json.parse text
  | _ => Ret data
  end.

(** [processPrintEvent(data, txHash, blockHeight, timestamp)] *)
Definition processPrintEvent (data txHash blockHeight timestamp : JsVal)
  : W unit :=
  tryW
    (do eventData <- ofOutcome (parsed data) in
     do eventType <- ofOutcome (member "event" eventData) in
     logs [eventType]
     >> match caseOfTag eventType with
        | CasePulse => handlePulseEvent eventData txHash blockHeight timestamp
        | CaseBoost => handleBoostEvent eventData txHash blockHeight timestamp
        | CaseCheckin => handleCheckinEvent eventData txHash blockHeight timestamp
        | CaseMegaPulse =>
            handleMegaPulseEvent eventData txHash blockHeight timestamp
        | CaseChallenge =>
            handleChallengeEvent eventData txHash blockHeight timestamp
        | CaseReward => handleRewardEvent eventData txHash blockHeight timestamp
        | CaseTier => handleTierEvent eventData txHash blockHeight timestamp
        | CaseDefault | Caught => logs [eventType]
        end).

(** The loop of [processTransaction] over the events gathered. *)
Definition dispatch (txHash blockHeight timestamp : JsVal) (events : list JsVal)
  : W unit :=
  forOf events (fun event =>
    do branch <- ofOutcome (branchOf event) in
    match branch with
    | ToPrintEvent =>
        processPrintEvent (field "data" event) txHash blockHeight timestamp
    | ToNFTEvent =>
        processNFTEvent (field "data" event) txHash blockHeight timestamp
    | ToSTXTransfer =>
        processSTXTransfer (field "data" event) txHash blockHeight timestamp
    | NoHandler => ret tt
    end).

(** [Math.abs(parseInt(v))] is left to the runtime, which has an answer
    for a primitive [v]: the amount of a transfer operation is no
    object, which [parseInt] would have to turn into a string. *)
Definition amountsModelled (tx : JsVal) : option unit :=
  if forallb
       (fun op =>
          negb (isStr "stx_transfer" (field "type" op)
                && isObjectValue (field "value" (field "amount" op))))
       (elements (field "operations" tx))
  then Some tt
  else None.

(** [processTransaction(tx, blockHeight, timestamp)] *)
Definition processTransaction (absParseInt : JsVal -> JsVal)
    (tx blockHeight timestamp : JsVal) : W unit :=
  do _ <- lift (amountsModelled tx) in
  do gathered <- ofOutcome (gatherEvents absParseInt tx blockHeight) in
  logs [fst gathered]
  >> dispatch (fst gathered) blockHeight timestamp (snd gathered).

(** The activities [filter] keeps: those whose [blockHeight] is not
    [index]. *)
Fixpoint keepOthers (index : JsVal) (acts : list Activity.t)
  : option (list Activity.t) :=
  match acts with
  | [] => Some []
  | activity :: acts' =>
      same ← strictEq (Activity.blockHeight activity) index;
      rest ← keepOthers index acts';
      Some (if same : bool then rest else activity :: rest)
  end.

(** [handleRollback(rollback)] *)
Definition handleRollback (rollback : list JsVal) : W unit :=
  forOf rollback (fun block =>
    do identifier <- ofOutcome (member "block_identifier" block) in
    do index <- ofOutcome (member "index" identifier) in
    logs [index]
    >> do kept <- read (fun s => keepOthers index (activities s)) in
       modify (setActivities kept))
  >> emit "rollback" (OfRollback rollback).

Definition hookUuid (p : JsVal) : JsVal :=
  nullish (field "uuid" (field "chainhook" p))
    (nullish (field "chainhook_uuid" p)
       (nullish (field "hook_uuid" p)
          (nullish (field "uuid" p) (VStr (js "unknown"))))).

(** [block.transactions || []] *)
Definition transactionsOf (block : JsVal) : JsVal :=
  orElse (field "transactions" block) (VArr []).

(** What [for (const tx of transactions)] goes through, for an array. *)
Definition iterate (v : JsVal) : option (list JsVal) :=
  match v with
  | VArr xs => Some xs
  | _ => None
  end.

Definition txCount (applyBlocks : list JsVal) : Z :=
  fold_left
    (fun sum block => (sum + Z.of_nat (length (elements (transactionsOf block))))%Z)
    applyBlocks 0%Z.

(** [processPayload(payload)]; [nowMs] is what [Date.now()] reads. *)
Definition processPayload (absParseInt : JsVal -> JsVal) (nowMs : Z) (p : JsVal)
  : W unit :=
  logs [hookUuid p]
  >> (let rollback := resolveRollback p in
      if isArray rollback && (0 <? Z.of_nat (length (elements rollback)))%Z
      then handleRollback (elements rollback)
      else ret tt)
  >> (let applyBlocks := resolveApplyBlocks nowMs p in
      forOf applyBlocks (fun block =>
        do identifier <- ofOutcome (member "block_identifier" block) in
        logs [nullish (field "index" identifier) (VStr (js "unknown"))]
        >> do transactions <- lift (iterate (transactionsOf block)) in
           forOf transactions (fun tx =>
             processTransaction absParseInt tx
               (nullish (field "index" identifier) (VNum 0 0))
               (nullish (field "timestamp" block) (VNum 0 0))))
      >> modify (fun s =>
           setTotalTransactions (totalTransactions s + txCount applyBlocks) s)).

(** *** What the properties are stated with *)

(** A run that stays within what is modelled. *)
Definition modelled {A} (r : Result A * State) : Prop := fst r <> Unmodelled.

(** A method leaves a component [f] of the state as it found it,
    whatever its result. *)
Definition preserves {A X} (f : State -> X) (m : W A) : Prop :=
  forall s, f (snd (m s)) = f s.

(** Points and pulses of an entry as a handler leaves them: what [+=]
    makes of them and of [points] and [pulses]. *)
Definition moved (entry entry' : Entry.t) (points pulses : JsVal) : Prop :=
  plus (Entry.totalPoints entry) points = Some (Entry.totalPoints entry')
  /\ plus (Entry.totalPulses entry) pulses = Some (Entry.totalPulses entry').

Definition sameStreaks (entry entry' : Entry.t) : Prop :=
  Entry.currentStreak entry' = Entry.currentStreak entry
  /\ Entry.longestStreak entry' = Entry.longestStreak entry.

(** A method keeps a property of the state, whatever its result. *)
Definition keeps {A} (I : State -> Prop) (m : W A) : Prop :=
  forall s, I s -> I (snd (m s)).

(** The streaks of an entry are numbers, the current one at most the
    longest. *)
Definition streaksOrdered (entry : Entry.t) : Prop :=
  exists current longest : Z,
    intOf (Entry.currentStreak entry) = Some current
    /\ intOf (Entry.longestStreak entry) = Some longest
    /\ (current <= longest)%Z.

Definition allStreaksOrdered (s : State) : Prop :=
  Forall (fun kv => streaksOrdered (snd kv)) (leaderboard s).

(** The records whose fee their handler has added to [totalFees]. *)
Definition feeCounted (a : Activity.t) : bool :=
  existsb (fun kind => bool_decide (Activity.eventType a = js kind))
          ["pulse"; "boost"; "mega-pulse"; "challenge"].

(** [total += fee] for the fees in turn. *)
Fixpoint plusAll (total : JsVal) (fees : list JsVal) : option JsVal :=
  match fees with
  | [] => Some total
  | fee :: fees' => total' ← plus total fee; plusAll total' fees'
  end.

(** From [s0] to [s] records were appended, and [totalFees] took the
    fees of those that count, one after the other. *)
Definition accounted (s0 s : State) : Prop :=
  exists new,
    activities s = (activities s0 ++ new)%list
    /\ plusAll (totalFees s0) (map Activity.fee (List.filter feeCounted new))
       = Some (totalFees s).

(** A method whose modelled runs are accounted. *)
Definition accounts {A} (m : W A) : Prop :=
  forall s, modelled (m s) -> accounted s (snd (m s)).

(** Every listener of every channel returns, whatever it is called
    with. *)
Definition quiet (s : State) : Prop :=
  forall channel p,
    Forall (fun l => Emitter.call l p = None) (listeners s channel).








End Untyped.

(** ** Invariants of the store *)

Module Invariant.
Import Handler.

(** A method keeps a property of the state, whether it returns or
    throws. *)
Definition keeps {A} (I : State -> Prop) (m : M A) : Prop :=
  forall s, I s -> I (snd (m s)).

(** Every entry sits under the key of its user, and no key comes
    twice. *)
Definition keyedByUser (s : State) : Prop :=
  NoDup (map fst (leaderboard s))
  /\ Forall (fun kv => LeaderboardEntry.user (snd kv) = fst kv) (leaderboard s).

(** Every listener of every channel returns, whatever it is called
    with. *)
Definition quiet (s : State) : Prop :=
  forall channel p,
    Forall (fun l => Emitter.call l p = None) (listeners s channel).

(** A method that does not stop for lack of fuel. *)
Definition fueled {A} (m : M A) : Prop :=
  forall s, fst (m s) <> OutOfFuel.

End Invariant.

(** * Properties *)

(** ** Buffers *)

Module BufFacts.
Import Buf Layout.

Lemma len_app (a b : list Z) : len (a ++ b) = len a + len b.
Proof. unfold len. rewrite length_app. lia. Qed.

Lemma len_cons (x : Z) (a : list Z) : len (x :: a) = 1 + len a.
Proof. unfold len. simpl length. lia. Qed.

Lemma len_nil : len [] = 0.
Proof. reflexivity. Qed.

Lemma len_nonneg (a : list Z) : 0 <= len a.
Proof. unfold len. lia. Qed.

Lemma len_be16 (n : Z) : len (be16 n) = 2.
Proof. reflexivity. Qed.

Lemma skipn_len_app (pre rest : list Z) :
  skipn (Z.to_nat (len pre)) (pre ++ rest) = rest.
Proof.
  unfold len. rewrite Nat2Z.id.
  induction pre as [|x pre IH]; [reflexivity | exact IH].
Qed.

Lemma firstn_length_app (x rest : list Z) :
  firstn (length x) (x ++ rest) = x.
Proof. induction x as [|y x IH]; simpl; [reflexivity | now rewrite IH]. Qed.

Lemma be16_value (n : Z) : 256 * (n / 256) + n mod 256 = n.
Proof. symmetry. apply Z.div_mod. lia. Qed.

Lemma readUInt16BE_at (buffer pre rest : list Z) (a b offset : Z) :
  buffer = pre ++ a :: b :: rest -> offset = len pre ->
  readUInt16BE buffer offset = Ret (256 * a + b).
Proof.
  intros -> ->. unfold readUInt16BE.
  assert (H := len_nonneg pre).
  rewrite len_app, !len_cons.
  assert (Hr := len_nonneg rest).
  replace ((0 <=? len pre) && (len pre + 2 <=? len pre + (1 + (1 + len rest))))
    with true by (symmetry; apply andb_true_intro; split; apply Z.leb_le; lia).
  rewrite skipn_len_app. simpl. unfold beValue. simpl. f_equal; lia.
Qed.

Lemma readUInt16BE_be16 (buffer pre rest : list Z) (n offset : Z) :
  buffer = pre ++ be16 n ++ rest -> offset = len pre ->
  readUInt16BE buffer offset = Ret n.
Proof.
  intros Hb Ho. rewrite (readUInt16BE_at buffer pre rest (n / 256) (n mod 256) offset Hb Ho).
  now rewrite be16_value.
Qed.

Lemma slice_at (buffer pre x rest : list Z) (offset stop : Z) :
  buffer = pre ++ x ++ rest -> offset = len pre -> stop = offset + len x ->
  slice buffer offset stop = x.
Proof.
  intros -> -> ->. unfold slice, clamp.
  rewrite !len_app.
  assert (H := len_nonneg pre). assert (Hx := len_nonneg x).
  assert (Hr := len_nonneg rest).
  replace (len pre <? 0) with false by (symmetry; apply Z.ltb_ge; lia).
  replace (len pre + len x <? 0) with false by (symmetry; apply Z.ltb_ge; lia).
  rewrite !Z.min_l by lia.
  rewrite skipn_len_app.
  replace (len pre + len x - len pre) with (len x) by lia.
  unfold len. rewrite Nat2Z.id. apply firstn_length_app.
Qed.

Lemma at_at (buffer pre rest : list Z) (t offset : Z) :
  buffer = pre ++ t :: rest -> offset = len pre ->
  at_ buffer offset = Some t.
Proof.
  intros -> ->. unfold at_.
  rewrite len_app, len_cons.
  assert (H := len_nonneg pre). assert (Hr := len_nonneg rest).
  replace ((0 <=? len pre) && (len pre <? len pre + (1 + len rest)))
    with true
    by (symmetry; apply andb_true_intro; split;
        [apply Z.leb_le | apply Z.ltb_lt]; lia).
  unfold len. rewrite Nat2Z.id.
  induction pre as [|y pre IH]; [reflexivity|].
  simpl. apply IH; unfold len; lia.
Qed.

Lemma firstn_app_le {X} (k : nat) (x rest : list X) :
  (k <= length x)%nat -> firstn k (x ++ rest) = firstn k x.
Proof.
  revert x. induction k as [|k IH]; intros x Hk; [reflexivity|].
  destruct x as [|y x]; simpl in *; [lia|]. f_equal. apply IH. lia.
Qed.

Lemma readBigUInt64BE_at (buffer pre x rest : list Z) (offset : Z) :
  buffer = pre ++ x ++ rest -> offset = len pre -> 8 <= len x ->
  readBigUInt64BE buffer offset = Ret (beValue (firstn 8 x)).
Proof.
  intros -> -> Hx. unfold readBigUInt64BE.
  rewrite !len_app.
  assert (H := len_nonneg pre). assert (Hr := len_nonneg rest).
  replace ((0 <=? len pre) && (len pre + 8 <=? len pre + (len x + len rest)))
    with true by (symmetry; apply andb_true_intro; split; apply Z.leb_le; lia).
  rewrite skipn_len_app, firstn_app_le; [reflexivity|].
  unfold len in Hx. lia.
Qed.

End BufFacts.

(** ** The decoder *)

Module DecoderFacts.
Import Buf Layout BufFacts Decoder.

Ltac decide_tests :=
  repeat match goal with
  | |- context [?a <? ?b] =>
      first [ rewrite (proj2 (Z.ltb_lt a b)) by lia
            | rewrite (proj2 (Z.ltb_ge a b)) by lia ]
  | |- context [?a <=? ?b] =>
      first [ rewrite (proj2 (Z.leb_le a b)) by lia
            | rewrite (proj2 (Z.leb_gt a b)) by lia ]
  | |- context [?a =? ?b] =>
      first [ rewrite (proj2 (Z.eqb_eq a b)) by lia
            | rewrite (proj2 (Z.eqb_neq a b)) by lia ]
  end.

Ltac lens := rewrite ?len_app, ?len_cons, ?len_be16, ?len_nil in *.

Ltac split_buffer := subst; rewrite <- ?app_assoc; simpl; reflexivity.

(** One turn of the loop over a well-formed field. *)
Lemma walk_field (fuel : nat) (pre suf : list Z) (f : Field) (result : JsObj) :
  wfField f ->
  walk (S fuel) (pre ++ encodeField f ++ suf) (len pre) result
  = walk fuel (pre ++ encodeField f ++ suf) (len pre + len (encodeField f))
         (assignProp (toUtf8String (fieldKey f)) (decodedValue f) result).
Proof.
  intros [Hk Hf].
  assert (Hp := len_nonneg pre). assert (Hs := len_nonneg suf).
  assert (Hkey := len_nonneg (fieldKey f)).
  remember (pre ++ encodeField f ++ suf) as buffer eqn:Hb.
  destruct f as [key tag value | key tag value | key value];
    cbn [encodeField fieldKey decodedValue] in *.
  - destruct Hf as [Ht Hv].
    assert (Hlen : len buffer = len pre + (2 + len key + 1 + 16) + len suf)
      by (subst; lens; lia).
    cbn [walk]. decide_tests. cbn [negb].
    rewrite (readUInt16BE_be16 buffer pre (key ++ [tag] ++ value ++ suf)
               (len key) (len pre)) by (try split_buffer; reflexivity).
    unfold mbind, outcome_bind. decide_tests.
    rewrite (at_at buffer (pre ++ be16 (len key) ++ key) (value ++ suf) tag)
      by (try split_buffer; lens; lia).
    replace ((tag =? 0) || (tag =? 1)) with true
      by (destruct Ht; subst tag; reflexivity).
    decide_tests.
    rewrite (readBigUInt64BE_at buffer (pre ++ be16 (len key) ++ key ++ [tag])
               value suf) by (try split_buffer; lens; lia).
    rewrite (slice_at buffer (pre ++ be16 (len key))
               key ([tag] ++ value ++ suf)) by (try split_buffer; lens; lia).
    f_equal. lens. lia.
  - destruct Hf as [Ht Hv]. assert (Hval := len_nonneg value).
    assert (Hlen : len buffer
                   = len pre + (2 + len key + 1 + 2 + len value) + len suf)
      by (subst; lens; lia).
    cbn [walk]. decide_tests. cbn [negb].
    rewrite (readUInt16BE_be16 buffer pre
               (key ++ [tag] ++ be16 (len value) ++ value ++ suf)
               (len key) (len pre)) by (try split_buffer; reflexivity).
    unfold mbind, outcome_bind. decide_tests.
    rewrite (at_at buffer (pre ++ be16 (len key) ++ key)
               (be16 (len value) ++ value ++ suf) tag)
      by (try split_buffer; lens; lia).
    replace ((tag =? 0) || (tag =? 1)) with false
      by (destruct Ht; subst tag; reflexivity).
    replace ((tag =? 6) || (tag =? 7)) with true
      by (destruct Ht; subst tag; reflexivity).
    decide_tests.
    rewrite (readUInt16BE_be16 buffer (pre ++ be16 (len key) ++ key ++ [tag])
               (value ++ suf) (len value))
      by (try split_buffer; lens; lia).
    decide_tests.
    rewrite (slice_at buffer (pre ++ be16 (len key))
               key ([tag] ++ be16 (len value) ++ value ++ suf))
      by (try split_buffer; lens; lia).
    rewrite (slice_at buffer
               (pre ++ be16 (len key) ++ key ++ [tag] ++ be16 (len value))
               value suf) by (try split_buffer; lens; lia).
    f_equal. lens. lia.
  - rename Hf into Hv.
    assert (Hlen : len buffer = len pre + (2 + len key + 1 + 21) + len suf)
      by (subst; lens; lia).
    cbn [walk]. decide_tests. cbn [negb].
    rewrite (readUInt16BE_be16 buffer pre (key ++ [9] ++ value ++ suf)
               (len key) (len pre)) by (try split_buffer; reflexivity).
    unfold mbind, outcome_bind. decide_tests.
    rewrite (at_at buffer (pre ++ be16 (len key) ++ key) (value ++ suf) 9)
      by (try split_buffer; lens; lia).
    cbn [Z.eqb Pos.eqb orb]. decide_tests.
    rewrite (slice_at buffer (pre ++ be16 (len key))
               key ([9] ++ value ++ suf)) by (try split_buffer; lens; lia).
    rewrite (slice_at buffer (pre ++ be16 (len key) ++ key ++ [9])
               value suf) by (try split_buffer; lens; lia).
    f_equal. lens. lia.
Qed.

(** The loop ends where the buffer ends. *)
Lemma walk_end (fuel : nat) (pre : list Z) (result : JsObj) :
  walk (S fuel) (pre ++ []) (len pre) result = Ret result.
Proof.
  rewrite app_nil_r. cbn [walk]. now decide_tests.
Qed.

(** The loop ends at a field it cannot read to its end. *)
Lemma walk_malformed (fuel : nat) (pre tail : list Z) (result : JsObj) :
  Malformed tail ->
  walk (S fuel) (pre ++ tail) (len pre) result = Ret result.
Proof.
  intros Hm. assert (Hp := len_nonneg pre).
  remember (pre ++ tail) as buffer eqn:Hb.
  destruct Hm as [b | k1 k2 rest Hr | key Hk | key tag rest Hk H0 H1 H6 H7 H9
                  | key tag rest Hk Ht Hr | key tag rest Hk Ht Hr
                  | key tag s1 s2 rest Hk Ht Hr | key rest Hk Hr];
    try assert (Hkey := len_nonneg key);
    try assert (Hrest := len_nonneg rest).
  - assert (Hlen : len buffer = len pre + 1) by (subst; lens; lia).
    cbn [walk]. now decide_tests.
  - assert (Hlen : len buffer = len pre + 2 + len rest) by (subst; lens; lia).
    cbn [walk]. decide_tests. cbn [negb].
    rewrite (readUInt16BE_at buffer pre rest k1 k2 (len pre))
      by (try split_buffer; reflexivity).
    unfold mbind, outcome_bind. now decide_tests.
  - assert (Hlen : len buffer = len pre + 2 + len key) by (subst; lens; lia).
    cbn [walk]. decide_tests. cbn [negb].
    rewrite (readUInt16BE_be16 buffer pre key (len key) (len pre))
      by (try split_buffer; reflexivity).
    unfold mbind, outcome_bind. now decide_tests.
  - assert (Hlen : len buffer = len pre + 2 + len key + 1 + len rest)
      by (subst; lens; lia).
    cbn [walk]. decide_tests. cbn [negb].
    rewrite (readUInt16BE_be16 buffer pre (key ++ tag :: rest) (len key) (len pre))
      by (try split_buffer; reflexivity).
    unfold mbind, outcome_bind. decide_tests.
    rewrite (at_at buffer (pre ++ be16 (len key) ++ key) rest tag)
      by (try split_buffer; lens; lia).
    now decide_tests.
  - assert (Hlen : len buffer = len pre + 2 + len key + 1 + len rest)
      by (subst; lens; lia).
    cbn [walk]. decide_tests. cbn [negb].
    rewrite (readUInt16BE_be16 buffer pre (key ++ tag :: rest) (len key) (len pre))
      by (try split_buffer; reflexivity).
    unfold mbind, outcome_bind. decide_tests.
    rewrite (at_at buffer (pre ++ be16 (len key) ++ key) rest tag)
      by (try split_buffer; lens; lia).
    replace ((tag =? 0) || (tag =? 1)) with true
      by (destruct Ht; subst tag; reflexivity).
    now decide_tests.
  - assert (Hlen : len buffer = len pre + 2 + len key + 1 + len rest)
      by (subst; lens; lia).
    cbn [walk]. decide_tests. cbn [negb].
    rewrite (readUInt16BE_be16 buffer pre (key ++ tag :: rest) (len key) (len pre))
      by (try split_buffer; reflexivity).
    unfold mbind, outcome_bind. decide_tests.
    rewrite (at_at buffer (pre ++ be16 (len key) ++ key) rest tag)
      by (try split_buffer; lens; lia).
    replace ((tag =? 0) || (tag =? 1)) with false
      by (destruct Ht; subst tag; reflexivity).
    replace ((tag =? 6) || (tag =? 7)) with true
      by (destruct Ht; subst tag; reflexivity).
    now decide_tests.
  - assert (Hlen : len buffer = len pre + 2 + len key + 1 + 2 + len rest)
      by (subst; lens; lia).
    cbn [walk]. decide_tests. cbn [negb].
    rewrite (readUInt16BE_be16 buffer pre (key ++ tag :: s1 :: s2 :: rest)
               (len key) (len pre))
      by (try split_buffer; reflexivity).
    unfold mbind, outcome_bind. decide_tests.
    rewrite (at_at buffer (pre ++ be16 (len key) ++ key) (s1 :: s2 :: rest) tag)
      by (try split_buffer; lens; lia).
    replace ((tag =? 0) || (tag =? 1)) with false
      by (destruct Ht; subst tag; reflexivity).
    replace ((tag =? 6) || (tag =? 7)) with true
      by (destruct Ht; subst tag; reflexivity).
    decide_tests.
    rewrite (readUInt16BE_at buffer (pre ++ be16 (len key) ++ key ++ [tag])
               rest s1 s2)
      by (try split_buffer; lens; lia).
    now decide_tests.
  - assert (Hlen : len buffer = len pre + 2 + len key + 1 + len rest)
      by (subst; lens; lia).
    cbn [walk]. decide_tests. cbn [negb].
    rewrite (readUInt16BE_be16 buffer pre (key ++ 9 :: rest) (len key) (len pre))
      by (try split_buffer; reflexivity).
    unfold mbind, outcome_bind. decide_tests.
    rewrite (at_at buffer (pre ++ be16 (len key) ++ key) rest 9)
      by (try split_buffer; lens; lia).
    cbn [Z.eqb Pos.eqb orb]. now decide_tests.
Qed.

Lemma decodedFields_cons (f : Field) (fs : list Field) (result : JsObj) :
  decodedFields (f :: fs) result
  = decodedFields fs
      (assignProp (toUtf8String (fieldKey f)) (decodedValue f) result).
Proof. reflexivity. Qed.

(** The loop over well-formed fields followed by bytes at which it
    stops: the fields are all read, in their order. *)
Lemma walk_fields (fs : list Field) (tail : list Z) :
  Forall wfField fs ->
  (forall fuel pre result,
      walk (S fuel) (pre ++ tail) (len pre) result = Ret result) ->
  forall (fuel : nat) (pre : list Z) (result : JsObj),
    (length fs < fuel)%nat ->
    walk fuel (pre ++ flat_map encodeField fs ++ tail) (len pre) result
    = Ret (decodedFields fs result).
Proof.
  intros Hwf Hstop. induction Hwf as [|f fs Hf Hfs IH]; intros fuel pre result Hfuel.
  - destruct fuel as [|fuel]; [simpl in Hfuel; lia|]. apply Hstop.
  - destruct fuel as [|fuel]; [simpl in Hfuel; lia|].
    cbn [flat_map]. rewrite <- app_assoc.
    rewrite walk_field by exact Hf.
    rewrite <- len_app, decodedFields_cons.
    rewrite (app_assoc pre). apply IH. simpl in Hfuel. lia.
Qed.

Lemma length_encoded (fs : list Field) :
  (length fs <= length (flat_map encodeField fs))%nat.
Proof.
  induction fs as [|f fs IH]; [reflexivity|].
  cbn [flat_map]. rewrite length_app.
  assert (1 <= length (encodeField f))%nat by (destruct f; simpl; lia).
  simpl. lia.
Qed.

(** C7.  A buffer made of the marker byte, the two length bytes,
    well-formed fields and then a field that has an unknown tag or that
    declares more bytes than are left: [parseClarityTuple] returns, and
    what it returns is the object of the fields before that one. *)
Theorem parseClarityTuple_partial (l1 l2 : Z) (fs : list Field) (tail : list Z) :
  Forall wfField fs -> Malformed tail ->
  parseClarityTuple (12 :: l1 :: l2 :: flat_map encodeField fs ++ tail)
  = Ret (VObj (decodedFields fs [])).
Proof.
  intros Hwf Hm. unfold parseClarityTuple.
  change (12 :: l1 :: l2 :: flat_map encodeField fs ++ tail)
    with ([12; l1; l2] ++ flat_map encodeField fs ++ tail).
  change 3 with (len [12; l1; l2]).
  rewrite (walk_fields fs tail Hwf).
  - reflexivity.
  - intros fuel pre result. now apply walk_malformed.
  - rewrite !length_app. assert (H := length_encoded fs).
    cbn [length Nat.add]. lia.
Qed.

Lemma parseClarityTuple_partial_witness :
  parseClarityTuple
    [12; 0; 2; 0; 1; 97; 6; 0; 2; 104; 105; 0; 1; 98; 5; 1; 2]
  = Ret (VObj [(js "a", VStr (js "hi"))]).
Proof.
  apply (parseClarityTuple_partial 0 2 [StrField [97] 6 [104; 105]]
           [0; 1; 98; 5; 1; 2]).
  - repeat constructor; simpl; lia.
  - apply (UnknownTag [98] 5 [1; 2]); first [reflexivity | discriminate].
Defined.

(** *** The decoder returns *)

Lemma hexDigit_range (c d : Z) : hexDigit c = Some d -> 0 <= d < 16.
Proof.
  unfold hexDigit.
  destruct ((48 <=? c) && (c <=? 57)) eqn:E1;
    [|destruct ((97 <=? c) && (c <=? 102)) eqn:E2;
      [|destruct ((65 <=? c) && (c <=? 70)) eqn:E3]];
    intros [= <-]; lia.
Qed.

Lemma isBytes_fromHex (s : JsString) : isBytes (fromHex s).
Proof.
  assert (H : isBytes (fromHex s) /\ forall a, isBytes (fromHex (a :: s))).
  { induction s as [|b s [IH1 IH2]].
    - split; [constructor | intros a; constructor].
    - split; [apply IH2|]. intros a. cbn [fromHex].
      destruct (hexDigit a) as [h|] eqn:Ea; [|constructor].
      destruct (hexDigit b) as [l|] eqn:Eb; [|constructor].
      apply hexDigit_range in Ea, Eb.
      constructor; [lia | exact IH1]. }
  apply H.
Qed.

Lemma beValue_nonneg (bs : list Z) : isBytes bs -> 0 <= beValue bs.
Proof.
  intros Hb. unfold beValue.
  assert (H : forall acc, 0 <= acc ->
              0 <= fold_left (fun acc x => 256 * acc + x) bs acc).
  { induction Hb as [|x bs Hx Hbs IH]; intros acc Hacc; simpl; [exact Hacc|].
    apply IH. lia. }
  apply H. lia.
Qed.

Lemma readUInt16BE_returns (buffer : list Z) (offset : Z) :
  isBytes buffer -> 0 <= offset -> offset + 2 <= len buffer ->
  exists n, readUInt16BE buffer offset = Ret n /\ 0 <= n.
Proof.
  intros Hb Ho Hl. unfold readUInt16BE. decide_tests. cbn [andb].
  eexists. split; [reflexivity|].
  apply beValue_nonneg, Forall_take, Forall_drop, Hb.
Qed.

Lemma readBigUInt64BE_returns (buffer : list Z) (offset : Z) :
  0 <= offset -> offset + 8 <= len buffer ->
  exists n, readBigUInt64BE buffer offset = Ret n.
Proof.
  intros Ho Hl. unfold readBigUInt64BE. decide_tests. cbn [andb]. eauto.
Qed.

Lemma at_in_range (buffer : list Z) (offset : Z) :
  0 <= offset < len buffer -> exists t, at_ buffer offset = Some t.
Proof.
  intros Ho. unfold at_. decide_tests. cbn [andb].
  destruct (nth_error buffer (Z.to_nat offset)) as [t|] eqn:E; [eauto|].
  apply nth_error_None in E. unfold len in Ho. lia.
Qed.

(** The loop returns on every buffer, with the fuel [parseClarityTuple]
    gives it. *)
Lemma walk_returns (fuel : nat) :
  forall (buffer : list Z) (offset : Z) (result : JsObj),
    isBytes buffer -> 0 <= offset -> (1 <= fuel)%nat ->
    len buffer < offset + Z.of_nat fuel ->
    exists r, walk fuel buffer offset result = Ret r.
Proof.
  induction fuel as [|fuel IH]; intros buffer offset result Hb Ho H1 Hf; [lia|].
  cbn [walk].
  destruct (offset <? len buffer - 1) eqn:E1; cbn [negb]; [|eauto].
  destruct (len buffer <? offset + 2) eqn:E2; [eauto|].
  apply Z.ltb_lt in E1. apply Z.ltb_ge in E2.
  destruct (readUInt16BE_returns buffer offset Hb Ho) as [keyLen [-> Hk]]; [lia|].
  unfold mbind, outcome_bind.
  destruct (len buffer <? offset + 2 + keyLen) eqn:E3; [eauto|].
  destruct (len buffer <=? offset + 2 + keyLen) eqn:E4; [eauto|].
  apply Z.ltb_ge in E3. apply Z.leb_gt in E4.
  destruct (at_in_range buffer (offset + 2 + keyLen)) as [t ->]; [lia|].
  destruct ((t =? 0) || (t =? 1)).
  { destruct (len buffer <? offset + 2 + keyLen + 1 + 16) eqn:E5; [eauto|].
    apply Z.ltb_ge in E5.
    destruct (readBigUInt64BE_returns buffer (offset + 2 + keyLen + 1))
      as [v ->]; [lia..|].
    apply IH; [exact Hb | lia..]. }
  destruct ((t =? 6) || (t =? 7)).
  { destruct (len buffer <? offset + 2 + keyLen + 1 + 2) eqn:E5; [eauto|].
    apply Z.ltb_ge in E5.
    destruct (readUInt16BE_returns buffer (offset + 2 + keyLen + 1) Hb)
      as [strLen [-> Hs]]; [lia..|].
    destruct (len buffer <? offset + 2 + keyLen + 1 + 2 + strLen) eqn:E6;
      [eauto|].
    apply Z.ltb_ge in E6.
    apply IH; [exact Hb | lia..]. }
  destruct (t =? 9); [|eauto].
  destruct (len buffer <? offset + 2 + keyLen + 1 + 21) eqn:E5; [eauto|].
  apply Z.ltb_ge in E5.
  apply IH; [exact Hb | lia..].
Qed.

Lemma parseClarityTuple_returns (buffer : list Z) :
  isBytes buffer -> exists v, parseClarityTuple buffer = Ret v.
Proof.
  intros Hb. unfold parseClarityTuple.
  destruct (walk_returns (S (length buffer)) buffer 3 [] Hb) as [r ->];
    [unfold len; lia..|].
  simpl. eauto.
Qed.

Lemma parse_never_out_of_fuel (text : JsString) : Json.parse text <> OutOfFuel.
Proof.
  unfold Json.parse.
  destruct (Json.lex Json.LStart text) as [ts|]; [|discriminate].
  destruct (Json.parseTokens (Json.PValue []) ts); discriminate.
Qed.

(** C6.  [decodeClarityValue] returns a value on every string; when the
    bytes of the string (after a leading 0x) are not JSON text and do
    not start with the byte 0x0c, the value is the object whose [raw]
    property is the string as it was given. *)
Theorem decodeClarityValue_returns (hexValue : JsString) :
  (exists v, decodeClarityValue hexValue = Ret v)
  /\ (let hex :=
        if startsWith (js "0x") hexValue then skipn 2 hexValue else hexValue in
      (forall v, Json.parse (toUtf8String (fromHex hex)) <> Ret v) ->
      at_ (fromHex hex) 0 <> Some 12 ->
      decodeClarityValue hexValue = Ret (VObj [(js "raw", VStr hexValue)])).
Proof.
  unfold decodeClarityValue.
  set (hex := if startsWith (js "0x") hexValue then skipn 2 hexValue
              else hexValue).
  split.
  - destruct (Json.parse (toUtf8String (fromHex hex))) as [v|e|] eqn:E.
    + simpl. eauto.
    + destruct ((0 <? len (fromHex hex))
                && bool_decide (at_ (fromHex hex) 0 = Some 12)).
      * destruct (parseClarityTuple_returns (fromHex hex)) as [v ->];
          [apply isBytes_fromHex|]. simpl. eauto.
      * simpl. eauto.
    + now apply parse_never_out_of_fuel in E.
  - cbv zeta. fold hex. intros Hjson Htag.
    destruct (Json.parse (toUtf8String (fromHex hex))) as [v|e|] eqn:E.
    + now destruct (Hjson v).
    + rewrite bool_decide_eq_false_2 by exact Htag.
      rewrite andb_false_r. reflexivity.
    + now apply parse_never_out_of_fuel in E.
Qed.

Lemma decodeClarityValue_returns_witness :
  decodeClarityValue (js "0xdeadbeef")
  = Ret (VObj [(js "raw", VStr (js "0xdeadbeef"))]).
Proof.
  apply (proj2 (decodeClarityValue_returns (js "0xdeadbeef"))).
  - intros v. vm_compute. discriminate.
  - vm_compute. discriminate.
Defined.

(** *** Hex strings of tuples *)

Lemma hexDigit_hexChar (d : Z) : 0 <= d < 16 -> hexDigit (hexChar d) = Some d.
Proof.
  intros Hd. unfold hexChar, hexDigit.
  destruct (d <? 10) eqn:E; [apply Z.ltb_lt in E | apply Z.ltb_ge in E];
    decide_tests; cbn [andb]; f_equal; lia.
Qed.

Lemma fromHex_toHex (b : list Z) : isBytes b -> fromHex (toHex b) = b.
Proof.
  induction 1 as [|x b Hx Hb IH]; [reflexivity|].
  unfold toHex. cbn [flat_map app]. cbn [fromHex].
  rewrite !hexDigit_hexChar.
  - fold (toHex b). rewrite IH. f_equal. symmetry. apply Z.div_mod. lia.
  - apply Z.mod_pos_bound. lia.
  - split; [apply Z.div_pos; lia | apply Z.div_lt_upper_bound; lia].
Qed.

Lemma parse_rejects_marker (rest : list Z) :
  Json.parse (toUtf8String (12 :: rest)) = Throw SyntaxError.
Proof. reflexivity. Qed.

Lemma parseClarityTuple_no_throw (buffer : list Z) (h : JsError -> Outcome JsVal) :
  tryCatch (parseClarityTuple buffer) h = parseClarityTuple buffer.
Proof.
  unfold parseClarityTuple.
  destruct (walk (S (length buffer)) buffer 3 []); reflexivity.
Qed.

(** The hex string of bytes that start with the marker goes to
    [parseClarityTuple], with or without the prefix. *)
Lemma decodeClarityValue_tuple (rest : list Z) :
  isBytes rest ->
  decodeClarityValue (js "0x" ++ toHex (12 :: rest))
  = parseClarityTuple (12 :: rest).
Proof.
  intros Hb. unfold decodeClarityValue.
  change (startsWith (js "0x") (js "0x" ++ toHex (12 :: rest))) with true.
  cbv iota.
  change (skipn 2 (js "0x" ++ toHex (12 :: rest))) with (toHex (12 :: rest)).
  rewrite fromHex_toHex by (constructor; [lia | exact Hb]).
  rewrite parse_rejects_marker.
  change (at_ (12 :: rest) 0) with (Some 12).
  rewrite bool_decide_eq_true_2 by reflexivity.
  rewrite len_cons. assert (H := len_nonneg rest). decide_tests. cbn [andb].
  apply parseClarityTuple_no_throw.
Qed.

Lemma isBytes_beBytes (k : nat) (v : Z) : isBytes (beBytes k v).
Proof.
  induction k as [|k IH]; [constructor|].
  constructor; [apply Z.mod_pos_bound; lia | exact IH].
Qed.

Lemma high_byte (v : Z) (k : nat) :
  0 <= v < 2 ^ 64 -> (8 <= k)%nat -> (v / 256 ^ Z.of_nat k) mod 256 = 0.
Proof.
  intros Hv Hk. rewrite Z.div_small; [reflexivity|].
  split; [lia|].
  apply Z.lt_le_trans with (256 ^ 8); [exact (proj2 Hv)|].
  apply Z.pow_le_mono_r; lia.
Qed.

Lemma high_half_beBytes (v : Z) :
  0 <= v < 2 ^ 64 -> firstn 8 (beBytes 16 v) = [0; 0; 0; 0; 0; 0; 0; 0].
Proof.
  intros Hv. cbv [beBytes firstn].
  rewrite !(high_byte v) by (exact Hv || lia). reflexivity.
Qed.

(** C1.  The tuple of the documented layout with an unsigned integer
    [v] below 2^64 in [field1] and the ASCII string "pulse" in [field2]:
    the decoder gives ["0"] for [field1] whatever [v] is, since it
    reads the first eight of the sixteen bytes of the value; the low 64
    bits are the ones it drops. *)
Theorem decodeClarityValue_uint_high_half (v tagInt tagStr : Z) :
  0 <= v < 2 ^ 64 ->
  tagInt = 0 \/ tagInt = 1 ->
  tagStr = 6 \/ tagStr = 7 ->
  decodeClarityValue
    (js "0x" ++ toHex (encodeTuple [IntField (js "field1") tagInt (beBytes 16 v);
                                    StrField (js "field2") tagStr (js "pulse")]))
  = Ret (VObj [(js "field1", VStr (js "0")); (js "field2", VStr (js "pulse"))]).
Proof.
  intros Hv Hi Hs. unfold encodeTuple.
  rewrite decodeClarityValue_tuple.
  - unfold parseClarityTuple.
    set (fs := [IntField (js "field1") tagInt (beBytes 16 v);
                StrField (js "field2") tagStr (js "pulse")]).
    change (12 :: be16 (Z.of_nat (length fs)) ++ flat_map encodeField fs)
      with ([12; 0; 2] ++ flat_map encodeField fs).
    rewrite <- (app_nil_r (flat_map encodeField fs)).
    change 3 with (len [12; 0; 2]).
    rewrite (walk_fields fs []).
    + unfold fs, decodedFields. cbn [fold_left fieldKey decodedValue].
      rewrite high_half_beBytes by exact Hv. reflexivity.
    + subst fs. apply List.Forall_cons; [|apply List.Forall_cons].
      * split; [reflexivity | split; [assumption | reflexivity]].
      * split; [reflexivity | split; [assumption | reflexivity]].
      * apply List.Forall_nil.
    + intros fuel pre result. apply walk_end.
    + rewrite !length_app. assert (H := length_encoded fs). lia.
  - cbn [flat_map encodeField app length].
    repeat first [ apply List.Forall_nil | apply isBytes_beBytes
                 | apply Forall_app_2 | apply List.Forall_cons ];
      try (vm_compute; split; congruence); lia.
Qed.

Lemma decodeClarityValue_uint_high_half_witness :
  decodeClarityValue
    (js "0x0c000200066669656c6431010000000000000000000000000000002a00066669656c643206000570756c7365")
  = Ret (VObj [(js "field1", VStr (js "0")); (js "field2", VStr (js "pulse"))]).
Proof.
  apply (decodeClarityValue_uint_high_half 42 1 6); [lia | now right | now left].
Defined.

End DecoderFacts.

(** ** Shape resolution *)

Module NormalizerFacts.
Import Normalizer.
Local Open Scope string_scope.

Lemma truthy_orElse (a b : JsVal) :
  truthy (orElse a b) = truthy a || truthy b.
Proof. unfold orElse. destruct (truthy a) eqn:E; [now rewrite E | reflexivity]. Qed.

Lemma object_test (v : JsVal) :
  truthy v && typeofObject v = isObjectValue v.
Proof. destruct v; simpl; rewrite ?andb_false_r; reflexivity. Qed.

(** C5.  The block list [processPayload] settles on is what the first
    matching rule of the six documented ones gives, the rules tried in
    their documented order; so a payload whose [apply] is a list has
    that list used, whatever its [event.apply] is. *)
Theorem resolveApplyBlocks_first_match (nowMs : Z) (p : JsVal) :
  firstMatch documentedRules nowMs p = Some (resolveApplyBlocks nowMs p)
  /\ (forall top : list JsVal,
        field "apply" p = VArr top -> resolveApplyBlocks nowMs p = top).
Proof.
  split.
  - unfold resolveApplyBlocks, documentedRules, firstMatch.
    unfold ruleTopLevelApply at 1.
    destruct (field "apply" p) eqn:E1; cbn [isArray elements];
      try reflexivity;
      (unfold ruleEventApply at 1;
       destruct (field "apply" (field "event" p)) eqn:E2;
       cbn [isArray elements]; try reflexivity;
       (unfold ruleEventBlocks at 1;
        destruct (field "blocks" (field "event" p)) eqn:E3;
        cbn [isArray elements]; try reflexivity;
        (unfold ruleInlineTransaction at 1, ruleContractLog at 1, ruleNothing;
         rewrite object_test, !truthy_orElse;
         destruct (isObjectValue (field "event" p)); cbn [andb];
         try reflexivity;
         destruct (truthy (field "transaction_identifier" (field "event" p))
                   || truthy (field "transaction" (field "event" p))
                   || truthy (field "metadata" (field "event" p)));
         try reflexivity;
         destruct (truthy (field "contract_log" (field "event" p)));
         reflexivity))).
  - intros top E. unfold resolveApplyBlocks. rewrite E. reflexivity.
Qed.

Lemma resolveApplyBlocks_first_match_witness :
  resolveApplyBlocks 0
    (obj [("apply", VArr [VNum 1 0]);
          ("event", obj [("apply", VArr [VNum 2 0])])])
  = [VNum 1 0].
Proof.
  apply (proj2 (resolveApplyBlocks_first_match 0
                  (obj [("apply", VArr [VNum 1 0]);
                        ("event", obj [("apply", VArr [VNum 2 0])])]))).
  reflexivity.
Defined.

End NormalizerFacts.

(** ** The handler *)

Module HandlerFacts.
Import Handler.

Lemma preserves_ret {A X} (f : State -> X) (a : A) : preserves f (ret a).
Proof. intros s. reflexivity. Qed.

Lemma preserves_bind {A B X} (f : State -> X) (m : M A) (k : A -> M B) :
  preserves f m -> (forall a, preserves f (k a)) -> preserves f (bind m k).
Proof.
  intros Hm Hk s. unfold bind. specialize (Hm s).
  destruct (m s) as [[a|e|] s']; simpl in *; [rewrite Hk|..]; exact Hm.
Qed.

Lemma preserves_tryM {X} (f : State -> X) (m : M unit) :
  preserves f m -> preserves f (tryM m).
Proof.
  intros Hm s. unfold tryM. specialize (Hm s).
  destruct (m s) as [[a|e|] s']; exact Hm.
Qed.

Lemma preserves_forOf {X Y} (f : State -> X) (xs : list Y) (g : Y -> M unit) :
  (forall y, preserves f (g y)) -> preserves f (forOf xs g).
Proof.
  intros Hg. induction xs as [|x xs IH]; [apply preserves_ret|].
  cbn [forOf]. apply preserves_bind; [apply Hg | intros _; exact IH].
Qed.

Lemma preserves_modify {X} (f : State -> X) (g : State -> State) :
  (forall s, f (g s) = f s) -> preserves f (modify g).
Proof. intros Hg s. apply Hg. Qed.

Lemma preserves_emit {X} (f : State -> X) (channel : string) (p : Payload) :
  (forall c s, f (setCalls c s) = f s) -> preserves f (emit channel p).
Proof. intros Hf s. apply Hf. Qed.

Lemma preserves_newDate {X} (f : State -> X) :
  (forall n s, f (setTicks n s) = f s) -> preserves f newDate.
Proof. intros Hf s. apply Hf. Qed.

Lemma preserves_updateLeaderboard {X} (f : State -> X)
    (user : JsString) (points pulses streak : Z) :
  (forall c s, f (setCalls c s) = f s) ->
  (forall n s, f (setTicks n s) = f s) ->
  (forall v s, f (setLeaderboard v s) = f s) ->
  preserves f (updateLeaderboard user points pulses streak).
Proof.
  intros Hc Ht Hl. unfold updateLeaderboard.
  apply preserves_bind.
  - intros s. destruct (mapGet user (leaderboard s)); [reflexivity|].
    revert s. apply preserves_bind; [now apply preserves_newDate|].
    intros now. apply preserves_bind; [|intros _; apply preserves_ret].
    apply preserves_modify. intros s. apply Hl.
  - intros entry. apply preserves_bind; [now apply preserves_newDate|].
    intros now. apply preserves_bind; [|intros _; now apply preserves_emit].
    apply preserves_modify. intros s. apply Hl.
Qed.

Lemma preserves_overwriteTier {X} (f : State -> X) (user tier : JsString) :
  (forall v s, f (setLeaderboard v s) = f s) ->
  preserves f (overwriteTier user tier).
Proof.
  intros Hl s. unfold overwriteTier, modify. cbn [snd].
  destruct (mapGet user (leaderboard s)); [apply Hl | reflexivity].
Qed.

Lemma bind_modify {B} (g : State -> State) (k : unit -> M B) (s : State) :
  bind (modify g) k s = k tt (g s).
Proof. reflexivity. Qed.

Lemma forOf_modify {Y} (xs : list Y) (g : Y -> State -> State) (s : State) :
  forOf xs (fun y => modify (g y)) s
  = (Ret tt, fold_left (fun s y => g y s) xs s).
Proof.
  revert s. induction xs as [|x xs IH]; intros s; [reflexivity|].
  cbn [forOf fold_left]. rewrite bind_modify. apply IH.
Qed.

(** *** Queries *)

(** C10.  [getActivities(0)] is the whole log, the last record first;
    with a positive limit [n] it is the first [min n (length of the
    log)] records of the log read backwards, that is the last ones, the
    most recent first. *)
Theorem getActivities_limit (s : State) :
  getActivities 0 s = rev (activities s)
  /\ (forall n : Z, 0 < n ->
        getActivities n s
        = firstn (Z.to_nat (Z.min n (Z.of_nat (length (activities s)))))
                 (rev (activities s))).
Proof.
  unfold getActivities, sliceFrom, Buf.clamp. split.
  - cbn [Z.opp]. rewrite Z.ltb_irrefl.
    rewrite Z.min_l by lia. reflexivity.
  - intros n Hn. rewrite (proj2 (Z.ltb_lt (- n) 0)) by lia.
    rewrite firstn_rev. do 2 f_equal. lia.
Qed.

Lemma getActivities_limit_witness :
  getActivities 2
    (setActivities
       (map (fun h => {| ActivityRecord.id := []; ActivityRecord.user := [];
                         ActivityRecord.eventType := [];
                         ActivityRecord.points := 0; ActivityRecord.fee := 0;
                         ActivityRecord.blockHeight := h;
                         ActivityRecord.txHash := [];
                         ActivityRecord.timestamp := 0;
                         ActivityRecord.metadata := [] |}) [1; 2; 3])
       (initial (fun _ => 0)))
  = map (fun h => {| ActivityRecord.id := []; ActivityRecord.user := [];
                     ActivityRecord.eventType := [];
                     ActivityRecord.points := 0; ActivityRecord.fee := 0;
                     ActivityRecord.blockHeight := h;
                     ActivityRecord.txHash := [];
                     ActivityRecord.timestamp := 0;
                     ActivityRecord.metadata := [] |}) [3; 2].
Proof.
  refine (eq_trans (proj2 (getActivities_limit _) 2 _) _); [lia | reflexivity].
Defined.

(** *** Rollback *)

Lemma filter_heights (rollback : list Z) (acts : list ActivityRecord.t) :
  fold_left
    (fun acts index =>
       List.filter (fun a => negb (ActivityRecord.blockHeight a =? index)) acts)
    rollback acts
  = List.filter
      (fun a => negb (existsb (Z.eqb (ActivityRecord.blockHeight a)) rollback))
      acts.
Proof.
  revert acts. induction rollback as [|index rollback IH]; intros acts.
  - cbn [fold_left existsb negb]. induction acts as [|a acts IHa];
      [reflexivity | simpl; now rewrite <- IHa].
  - cbn [fold_left]. rewrite IH. clear IH.
    induction acts as [|a acts IHa]; [reflexivity|].
    cbn [List.filter existsb].
    destruct (ActivityRecord.blockHeight a =? index); cbn [negb orb];
      [exact IHa | cbn [List.filter]].
    destruct (existsb (Z.eqb (ActivityRecord.blockHeight a)) rollback);
      cbn [negb]; [exact IHa | now rewrite IHa].
Qed.

Lemma rollback_state (rollback : list Z) (s : State) :
  fold_left
    (fun s index =>
       setActivities
         (List.filter
            (fun a => negb (ActivityRecord.blockHeight a =? index))
            (activities s)) s)
    rollback s
  = setActivities
      (fold_left
         (fun acts index =>
            List.filter
              (fun a => negb (ActivityRecord.blockHeight a =? index)) acts)
         rollback (activities s)) s.
Proof.
  revert s. induction rollback as [|index rollback IH]; intros s.
  - now destruct s.
  - cbn [fold_left]. rewrite IH. reflexivity.
Qed.

(** C3.  After [handleRollback] the log holds the records whose block
    height is none of the rolled-back indices, in their order, and
    nothing else; the leaderboard and the two counters are what they
    were. *)
Theorem handleRollback_removes_heights (rollback : list Z) (s : State) :
  activities (run (handleRollback rollback) s)
  = List.filter
      (fun a => negb (existsb (Z.eqb (ActivityRecord.blockHeight a)) rollback))
      (activities s)
  /\ leaderboard (run (handleRollback rollback) s) = leaderboard s
  /\ totalFees (run (handleRollback rollback) s) = totalFees s
  /\ totalTransactions (run (handleRollback rollback) s) = totalTransactions s.
Proof.
  unfold run, handleRollback, bind.
  rewrite forOf_modify, rollback_state, filter_heights.
  repeat split; reflexivity.
Qed.

(** *** The leaderboard map *)

Lemma mapGet_mapSet_eq {V} (k : JsString) (v : V) (m : list (JsString * V)) :
  mapGet k (mapSet k v m) = Some v.
Proof.
  induction m as [|[k' v'] m IH]; cbn [mapSet mapGet].
  - now rewrite decide_True.
  - destruct (decide (k = k')) as [E|E]; cbn [mapGet].
    + now rewrite decide_True.
    + now rewrite decide_False.
Qed.

Lemma mapGet_mapSet_ne {V} (k k' : JsString) (v : V) (m : list (JsString * V)) :
  k <> k' -> mapGet k (mapSet k' v m) = mapGet k m.
Proof.
  intros Hk. induction m as [|[k0 v0] m IH]; cbn [mapSet mapGet].
  - now rewrite decide_False.
  - destruct (decide (k' = k0)) as [E|E]; cbn [mapGet].
    + subst k0. now rewrite !decide_False.
    + destruct (decide (k = k0)); [reflexivity | exact IH].
Qed.

Lemma run_tryM (m : M unit) (s : State) : run (tryM m) s = run m s.
Proof. unfold run, tryM. now destruct (m s) as [[a|e|] s']. Qed.

(** *** Rewards *)

Lemma overwriteTier_lookup (user tier : JsString) (s : State) (v : JsString) :
  mapGet v (leaderboard (snd (overwriteTier user tier s)))
  = if decide (v = user)
    then option_map (setTier tier) (mapGet v (leaderboard s))
    else mapGet v (leaderboard s).
Proof.
  unfold overwriteTier, modify. cbn [snd].
  destruct (decide (v = user)) as [->|Hv].
  - destruct (mapGet user (leaderboard s)) as [e|] eqn:E;
      cbn [leaderboard setLeaderboard option_map];
      [apply mapGet_mapSet_eq | exact E].
  - destruct (mapGet user (leaderboard s)) as [e|];
      cbn [leaderboard setLeaderboard]; [|reflexivity].
    now apply mapGet_mapSet_ne.
Qed.

Lemma run_handleRewardEvent
    (event : RewardEvent.t) (txHash : JsString) (blockHeight timestamp : Z)
    (s : State) :
  exists a cs,
    run (handleRewardEvent event txHash blockHeight timestamp) s
    = setCalls cs
        (snd (overwriteTier (RewardEvent.user event) (RewardEvent.new_tier event)
                (setActivities (activities s ++ [a]) s)))
    /\ ActivityRecord.user a = RewardEvent.user event
    /\ ActivityRecord.eventType a = js "reward"
    /\ ActivityRecord.points a = - RewardEvent.points_spent event
    /\ ActivityRecord.fee a = 0
    /\ ActivityRecord.blockHeight a = blockHeight.
Proof.
  eexists. eexists. split; [reflexivity | now repeat split].
Qed.

(** C4.  A reward-claimed event appends one record, of the user, with
    the spent points negated and fee 0; on the leaderboard the entry of
    the user, if there is one, has its tier overwritten with the new
    tier and every other entry is as it was; the total points of every
    user and the fee counter do not change. *)
Theorem reward_claimed_ledger_only
    (event : RewardEvent.t) (txHash : JsString) (blockHeight timestamp : Z)
    (s : State) :
  let s' := run (processPrintEvent (RewardClaimed event) txHash blockHeight
                                   timestamp) s in
  (exists a,
      activities s' = activities s ++ [a]
      /\ ActivityRecord.user a = RewardEvent.user event
      /\ ActivityRecord.eventType a = js "reward"
      /\ ActivityRecord.points a = - RewardEvent.points_spent event
      /\ ActivityRecord.fee a = 0
      /\ ActivityRecord.blockHeight a = blockHeight)
  /\ (forall v,
        mapGet v (leaderboard s')
        = if decide (v = RewardEvent.user event)
          then option_map (setTier (RewardEvent.new_tier event))
                          (mapGet v (leaderboard s))
          else mapGet v (leaderboard s))
  /\ (forall v,
        option_map LeaderboardEntry.totalPoints (mapGet v (leaderboard s'))
        = option_map LeaderboardEntry.totalPoints (mapGet v (leaderboard s)))
  /\ totalFees s' = totalFees s
  /\ totalTransactions s' = totalTransactions s.
Proof.
  cbv zeta. unfold processPrintEvent. rewrite run_tryM.
  destruct (run_handleRewardEvent event txHash blockHeight timestamp s)
    as (a & cs & -> & Hu & Hty & Hp & Hf & Hh).
  assert (Hlb := overwriteTier_lookup (RewardEvent.user event)
                   (RewardEvent.new_tier event)
                   (setActivities (activities s ++ [a]) s)).
  cbn [leaderboard activities totalFees totalTransactions setCalls].
  split; [|split; [|split; [|split]]].
  - exists a. split; [|now repeat split].
    now rewrite (preserves_overwriteTier activities).
  - exact Hlb.
  - intros v. rewrite Hlb. cbn [leaderboard setActivities].
    destruct (decide (v = RewardEvent.user event)); [|reflexivity].
    now destruct (mapGet v (leaderboard s)).
  - now rewrite (preserves_overwriteTier totalFees).
  - now rewrite (preserves_overwriteTier totalTransactions).
Qed.

(** *** Tiers *)

(** The entry of the user after [updateLeaderboard], whether the
    listeners of the update return or throw. *)
Lemma updateLeaderboard_lookup (user : JsString) (points pulses streak : Z)
    (s : State) :
  exists now now',
    mapGet user (leaderboard (run (updateLeaderboard user points pulses streak) s))
    = Some (updateEntry points pulses streak now
              match mapGet user (leaderboard s) with
              | Some entry => entry
              | None => newEntry user now'
              end).
Proof.
  unfold run, updateLeaderboard, bind at 1.
  destruct (mapGet user (leaderboard s)) as [entry|] eqn:E.
  - exists (clock s (ticks s)), 0. cbn. apply mapGet_mapSet_eq.
  - exists (clock s (S (ticks s))), (clock s (ticks s)). cbn.
    apply mapGet_mapSet_eq.
Qed.

Lemma updateLeaderboard_others (user other : JsString)
    (points pulses streak : Z) (s : State) :
  other <> user ->
  mapGet other (leaderboard (run (updateLeaderboard user points pulses streak) s))
  = mapGet other (leaderboard s).
Proof.
  intros Ho. unfold run, updateLeaderboard, bind at 1.
  destruct (mapGet user (leaderboard s)) as [entry|] eqn:E; cbn;
    now rewrite !mapGet_mapSet_ne.
Qed.

Lemma tierUpdate_from_100 (total : Z) (a b : JsString) :
  100 <= total -> tierUpdate total a = tierUpdate total b.
Proof.
  intros Ht. unfold tierUpdate.
  destruct (5000 <=? total); [reflexivity|].
  destruct (1000 <=? total); [reflexivity|].
  destruct (500 <=? total); [reflexivity|].
  now rewrite (proj2 (Z.leb_le 100 total)).
Qed.

Lemma tierUpdate_below_100 (total : Z) (a : JsString) :
  total < 100 -> tierUpdate total a = a.
Proof.
  intros Ht. unfold tierUpdate.
  rewrite (proj2 (Z.leb_gt 5000 total)), (proj2 (Z.leb_gt 1000 total)),
    (proj2 (Z.leb_gt 500 total)), (proj2 (Z.leb_gt 100 total)) by lia.
  reflexivity.
Qed.

Lemma tierUpdate_grow (total points : Z) :
  0 <= points ->
  tierUpdate (total + points) (tierUpdate total (js "none"))
  = tierUpdate (total + points) (js "none").
Proof.
  intros Hp. destruct (Z_lt_le_dec (total + points) 100) as [H|H].
  - rewrite (tierUpdate_below_100 total) by lia. reflexivity.
  - now apply tierUpdate_from_100.
Qed.

Lemma updates_keep_tier (user : JsString) (ups : list (Z * Z * Z)) :
  forall (s : State) (entry : LeaderboardEntry.t),
    mapGet user (leaderboard s) = Some entry ->
    LeaderboardEntry.tier entry
    = tierUpdate (LeaderboardEntry.totalPoints entry) (js "none") ->
    Forall (fun u => 0 <= fst (fst u)) ups ->
    exists entry',
      mapGet user
        (leaderboard
           (fold_left
              (fun s u =>
                 run (updateLeaderboard user (fst (fst u)) (snd (fst u)) (snd u)) s)
              ups s))
      = Some entry'
      /\ LeaderboardEntry.totalPoints entry'
         = LeaderboardEntry.totalPoints entry
           + fold_right Z.add 0 (map (fun u => fst (fst u)) ups)
      /\ LeaderboardEntry.tier entry'
         = tierUpdate (LeaderboardEntry.totalPoints entry') (js "none").
Proof.
  induction ups as [|[[points pulses] streak] ups IH]; intros s entry E Ht Hups.
  - exists entry. cbn. split; [exact E | split; [lia | exact Ht]].
  - apply Forall_cons in Hups as [Hp Hups]. cbn [fst snd] in Hp.
    cbn [fold_left fst snd].
    destruct (updateLeaderboard_lookup user points pulses streak s)
      as (now & now' & E').
    rewrite E in E'.
    destruct (IH _ _ E') as (entry' & Hget & Htot & Htier);
      [cbn [updateEntry LeaderboardEntry.tier LeaderboardEntry.totalPoints];
       rewrite Ht; now apply tierUpdate_grow | exact Hups |].
    exists entry'. split; [exact Hget | split; [|exact Htier]].
    rewrite Htot. cbn. lia.
Qed.

(** C8.  A user with no entry who is given leaderboard updates with
    points that are not negative has, after them, the sum of the points
    as total and the tier of that sum: none below 100, bronze from 100,
    silver from 500, gold from 1000 and platinum from 5000. *)
Theorem tier_thresholds (user : JsString) (ups : list (Z * Z * Z)) (s : State) :
  mapGet user (leaderboard s) = None ->
  ups <> [] ->
  Forall (fun u => 0 <= fst (fst u)) ups ->
  let s' :=
    fold_left
      (fun s u => run (updateLeaderboard user (fst (fst u)) (snd (fst u)) (snd u)) s)
      ups s in
  let total := fold_right Z.add 0 (map (fun u => fst (fst u)) ups) in
  exists entry,
    mapGet user (leaderboard s') = Some entry
    /\ LeaderboardEntry.totalPoints entry = total
    /\ (total < 100 -> LeaderboardEntry.tier entry = js "none")
    /\ (100 <= total < 500 -> LeaderboardEntry.tier entry = js "bronze")
    /\ (500 <= total < 1000 -> LeaderboardEntry.tier entry = js "silver")
    /\ (1000 <= total < 5000 -> LeaderboardEntry.tier entry = js "gold")
    /\ (5000 <= total -> LeaderboardEntry.tier entry = js "platinum").
Proof.
  intros E Hne Hups. destruct ups as [|[[points pulses] streak] ups];
    [contradiction|]. clear Hne.
  apply Forall_cons in Hups as [Hp Hups]. cbn [fst snd] in Hp.
  cbv zeta. cbn [fold_left fst snd map fold_right].
  destruct (updateLeaderboard_lookup user points pulses streak s)
    as (now & now' & E').
  rewrite E in E'.
  destruct (updates_keep_tier user ups _ _ E') as (entry & Hget & Htot & Htier);
    [reflexivity | exact Hups |].
  cbn [updateEntry newEntry LeaderboardEntry.totalPoints] in Htot.
  exists entry. split; [exact Hget|]. split; [lia|].
  rewrite Htier, Htot.
  set (total := 0 + points + fold_right Z.add 0 (map (fun u => fst (fst u)) ups)).
  replace (points + fold_right Z.add 0 (map (fun u => fst (fst u)) ups))
    with total by (unfold total; lia).
  unfold tierUpdate.
  repeat split; intros H; DecoderFacts.decide_tests; reflexivity.
Qed.

Lemma tier_thresholds_witness :
  exists entry,
    mapGet (js "SP1")
      (leaderboard
         (fold_left
            (fun s u =>
               run (updateLeaderboard (js "SP1") (fst (fst u)) (snd (fst u))
                                      (snd u)) s)
            [(60, 1, 1); (40, 0, 0)] (initial (fun _ => 0))))
    = Some entry
    /\ LeaderboardEntry.totalPoints entry = 100
    /\ LeaderboardEntry.tier entry = js "bronze".
Proof.
  destruct (tier_thresholds (js "SP1") [(60, 1, 1); (40, 0, 0)]
              (initial (fun _ => 0)))
    as (entry & Hget & Htot & _ & Hbronze & _).
  - reflexivity.
  - discriminate.
  - repeat constructor; cbn; lia.
  - exists entry. split; [exact Hget | split; [exact Htot|]].
    apply Hbronze. cbn. lia.
Defined.

(** *** Counters *)

Lemma run_modify_bind {B} (g : State -> State) (k : unit -> M B) (s : State) :
  run (bind (modify g) k) s = run (k tt) (g s).
Proof. reflexivity. Qed.

Lemma run_single {Y} (y : Y) (g : Y -> M unit) (s : State) :
  run (forOf [y] g) s = run (g y) s.
Proof.
  unfold run. cbn [forOf]. unfold bind.
  now destruct (g y s) as [[[]|e|] s'].
Qed.

Lemma preserves_after {A B X} (f : State -> X) (m : M A) (k : A -> M B)
    (s : State) :
  (forall a, preserves f (k a)) -> f (run (bind m k) s) = f (run m s).
Proof.
  intros Hk. unfold run, bind.
  destruct (m s) as [[a|e|] s']; cbn [snd]; [apply Hk | reflexivity..].
Qed.

Lemma fees_after (a : ActivityRecord.t) (fee : Z) (rest : M unit) (s : State) :
  preserves totalFees rest ->
  totalFees (run (push a >> addFees fee >> rest) s) = totalFees s + fee.
Proof.
  intros H. unfold push, addFees. rewrite !run_modify_bind.
  unfold run. now rewrite H.
Qed.

Lemma fees_kept (a : ActivityRecord.t) (rest : M unit) (s : State) :
  preserves totalFees rest ->
  totalFees (run (push a >> rest) s) = totalFees s.
Proof.
  intros H. unfold push. rewrite run_modify_bind. unfold run. now rewrite H.
Qed.

Lemma activities_after (a : ActivityRecord.t) (rest : M unit) (s : State) :
  preserves activities rest ->
  activities (run (push a >> rest) s) = activities s ++ [a].
Proof.
  intros H. unfold push. rewrite run_modify_bind. unfold run. now rewrite H.
Qed.

(** *** Notifications *)

Lemma callListeners_return (ls : list (Emitter.Listener Payload))
    (channel : JsString) (p : Payload) :
  Forall (fun l => Emitter.call l p = None) ls ->
  Emitter.callListeners ls channel p = (Ret tt, map (callOf channel p) ls).
Proof.
  induction 1 as [|l ls Hl Hls IH]; [reflexivity|].
  cbn [Emitter.callListeners map]. now rewrite Hl, IH.
Qed.

Lemma callListeners_throw (pre post : list (Emitter.Listener Payload))
    (l : Emitter.Listener Payload) (e : JsError)
    (channel : JsString) (p : Payload) :
  Forall (fun l' => Emitter.call l' p = None) pre ->
  Emitter.call l p = Some e ->
  Emitter.callListeners (pre ++ l :: post) channel p
  = (Throw e, map (callOf channel p) (pre ++ [l])).
Proof.
  intros Hpre Hl. induction Hpre as [|l' pre Hl' Hpre IH].
  - cbn [app Emitter.callListeners map]. now rewrite Hl.
  - cbn [app Emitter.callListeners map]. now rewrite Hl', IH.
Qed.

(** C9 (as amended).  [emit] calls the listeners of the channel in the
    order of their subscription.  When none throws all are called and
    [emit] returns.  When one throws, those before it and it have been
    called, those after it are not, and [emit] throws what it threw.
    And whatever the listeners do, [handlePulseEvent] has appended its
    record, added the fee and set the entry of the user. *)
Theorem emit_stops_at_first_throw :
  (forall (channel : string) (p : Payload) (s : State),
      (Forall (fun l => Emitter.call l p = None) (listeners s (js channel)) ->
       outcome (emit channel p) s = Ret tt
       /\ calls (run (emit channel p) s)
          = calls s ++ map (callOf (js channel) p) (listeners s (js channel)))
      /\ (forall pre l post e,
            listeners s (js channel) = pre ++ l :: post ->
            Forall (fun l' => Emitter.call l' p = None) pre ->
            Emitter.call l p = Some e ->
            outcome (emit channel p) s = Throw e
            /\ calls (run (emit channel p) s)
               = calls s ++ map (callOf (js channel) p) (pre ++ [l])))
  /\ (forall (event : PulseEvent.t) (txHash : JsString)
             (blockHeight timestamp : Z) (s : State),
        let s' := run (handlePulseEvent event txHash blockHeight timestamp) s in
        (exists a,
            activities s' = activities s ++ [a]
            /\ ActivityRecord.fee a = PulseEvent.fee event)
        /\ totalFees s' = totalFees s + PulseEvent.fee event
        /\ mapGet (PulseEvent.user event) (leaderboard s') <> None).
Proof.
  split.
  - intros channel p s. unfold outcome, run, emit, Emitter.emit. cbn [fst snd].
    split.
    + intros H. rewrite (callListeners_return _ _ _ H). split; reflexivity.
    + intros pre l post e -> Hpre Hl.
      rewrite (callListeners_throw pre post l e _ _ Hpre Hl). split; reflexivity.
  - intros event txHash blockHeight timestamp s. cbv zeta.
    unfold handlePulseEvent. cbv zeta. split; [|split].
    + eexists. split.
      * apply activities_after.
        apply preserves_bind; [apply preserves_modify; intros ?; reflexivity|].
        intros _.
        apply preserves_bind; [now apply preserves_updateLeaderboard|].
        intros _. now apply preserves_emit.
      * reflexivity.
    + apply fees_after.
      apply preserves_bind; [now apply preserves_updateLeaderboard|].
      intros _. now apply preserves_emit.
    + unfold push, addFees. rewrite !run_modify_bind.
      rewrite (preserves_after (fun s => mapGet (PulseEvent.user event)
                                           (leaderboard s)))
        by (intros _; now apply preserves_emit).
      match goal with
      | |- context [run (updateLeaderboard ?u ?p ?q ?k) ?s] =>
          destruct (updateLeaderboard_lookup u p q k s) as (now & now' & ->)
      end.
      discriminate.
Qed.

Lemma emit_stops_at_first_throw_witness :
  let failing :=
    {| Emitter.lid := 1; Emitter.call := fun _ : Payload => Some ListenerError |} in
  let quiet :=
    {| Emitter.lid := 2; Emitter.call := fun _ : Payload => None |} in
  let s0 := run (on "rollback" failing >> on "rollback" quiet)
                (initial (fun _ => 0)) in
  outcome (emit "rollback" (OfRollback [7])) s0 = Throw ListenerError
  /\ calls (run (emit "rollback" (OfRollback [7])) s0)
     = [callOf (js "rollback") (OfRollback [7]) failing].
Proof.
  cbv zeta.
  refine (proj2 (proj1 emit_stops_at_first_throw "rollback"%string
                       (OfRollback [7]) _)
            [] _ [_] ListenerError _ _ _); [reflexivity | constructor | reflexivity].
Defined.

(** The reading of C9 that the code does not bear out: of two
    subscribers of the pulse channel the first throws, and the second is
    not called when a pulse is handled; the handler throws what the
    first threw. *)
Lemma failing_subscriber_counterexample :
  let failing :=
    {| Emitter.lid := 1; Emitter.call := fun _ : Payload => Some ListenerError |} in
  let quiet :=
    {| Emitter.lid := 2; Emitter.call := fun _ : Payload => None |} in
  let pulse :=
    {| PulseEvent.user := js "SP1"; PulseEvent.points := 10;
       PulseEvent.streak := 1; PulseEvent.fee := 5;
       PulseEvent.total_pulses := 1 |} in
  let s0 := run (on "pulse" failing >> on "pulse" quiet) (initial (fun _ => 0)) in
  map Emitter.lid (listeners s0 (js "pulse")) = [1%nat; 2%nat]
  /\ outcome (handlePulseEvent pulse (js "0xab") 7 0) s0 = Throw ListenerError
  /\ map Emitter.callee (calls (run (handlePulseEvent pulse (js "0xab") 7 0) s0))
     = [1%nat].
Proof.
  cbv zeta. repeat split.
Qed.

End HandlerFacts.

(** ** More on the queries *)

Module QueryFacts.
Import Handler.

Lemma rev_sliceFrom_last {X} (xs : list X) (n : Z) :
  0 < n ->
  rev (sliceFrom xs (- n))
  = firstn (Z.to_nat (Z.min n (Z.of_nat (length xs)))) (rev xs).
Proof.
  intros Hn. unfold sliceFrom, Buf.clamp.
  rewrite (proj2 (Z.ltb_lt (- n) 0)) by lia.
  rewrite firstn_rev. do 2 f_equal. lia.
Qed.

Lemma sliceFrom_skip {X} (xs : list X) (n : Z) :
  0 <= n -> sliceFrom xs n = skipn (Z.to_nat n) xs.
Proof.
  intros Hn. unfold sliceFrom, Buf.clamp.
  rewrite (proj2 (Z.ltb_ge n 0)) by lia.
  destruct (Z_le_gt_dec n (Z.of_nat (length xs))) as [H|H].
  - now rewrite Z.min_l by lia.
  - rewrite Z.min_r by lia. rewrite Nat2Z.id.
    rewrite skipn_all. symmetry. apply skipn_all2. lia.
Qed.

(** A negative limit [-n] makes [getActivities] drop the [n] oldest
    records and return all the others, the most recent first. *)
Theorem getActivities_negative_limit (n : Z) (s : State) :
  0 < n ->
  getActivities (- n) s = rev (skipn (Z.to_nat n) (activities s)).
Proof.
  intros Hn. unfold getActivities. rewrite Z.opp_involutive.
  rewrite sliceFrom_skip by lia. reflexivity.
Qed.

Lemma getActivities_negative_limit_witness :
  map ActivityRecord.blockHeight
    (getActivities (- 1)
       (setActivities
          (map (fun h => {| ActivityRecord.id := []; ActivityRecord.user := [];
                            ActivityRecord.eventType := [];
                            ActivityRecord.points := 0; ActivityRecord.fee := 0;
                            ActivityRecord.blockHeight := h;
                            ActivityRecord.txHash := [];
                            ActivityRecord.timestamp := 0;
                            ActivityRecord.metadata := [] |}) [1; 2; 3])
          (initial (fun _ => 0))))
  = [3; 2].
Proof.
  rewrite (getActivities_negative_limit 1); [reflexivity | lia].
Defined.

(** With a positive limit [n], [getUserActivities] returns records of
    the user only, the last [min n k] of the [k] the user has, the most
    recent first. *)
Theorem getUserActivities_recent (user : JsString) (n : Z) (s : State) :
  0 < n ->
  let mine :=
    List.filter (fun a => bool_decide (ActivityRecord.user a = user))
                (activities s) in
  getUserActivities user n s
  = firstn (Z.to_nat (Z.min n (Z.of_nat (length mine)))) (rev mine)
  /\ Forall (fun a => ActivityRecord.user a = user) (getUserActivities user n s)
  /\ Z.of_nat (length (getUserActivities user n s))
     = Z.min n (Z.of_nat (length mine)).
Proof.
  intros Hn mine. unfold getUserActivities. fold mine.
  rewrite rev_sliceFrom_last by exact Hn.
  split; [reflexivity|]. split.
  - apply Forall_take, Forall_rev. unfold mine.
    apply List.Forall_forall. intros a Ha.
    apply List.filter_In in Ha as [_ Ha]. now apply bool_decide_eq_true in Ha.
  - rewrite length_firstn, length_rev. lia.
Qed.

Lemma getUserActivities_recent_witness :
  let record user h :=
    {| ActivityRecord.id := []; ActivityRecord.user := user;
       ActivityRecord.eventType := [];
       ActivityRecord.points := 0; ActivityRecord.fee := 0;
       ActivityRecord.blockHeight := h; ActivityRecord.txHash := [];
       ActivityRecord.timestamp := 0; ActivityRecord.metadata := [] |} in
  let s := setActivities
             [record (js "a") 1; record (js "b") 2; record (js "a") 3;
              record (js "a") 4]
             (initial (fun _ => 0)) in
  map ActivityRecord.blockHeight (getUserActivities (js "a") 2 s) = [4; 3].
Proof.
  cbv zeta.
  rewrite (proj1 (getUserActivities_recent (js "a") 2 _ ltac:(lia))).
  reflexivity.
Defined.

(** *** The leaderboard query *)

Lemma insertSorted_perm (e : LeaderboardEntry.t) (l : list LeaderboardEntry.t) :
  Permutation (insertSorted e l) (e :: l).
Proof.
  induction l as [|x l IH]; cbn [insertSorted]; [reflexivity|].
  destruct (LeaderboardEntry.totalPoints x <=? LeaderboardEntry.totalPoints e);
    [reflexivity|].
  rewrite IH. apply perm_swap.
Qed.

Lemma sortByPoints_perm (l : list LeaderboardEntry.t) :
  Permutation (sortByPoints l) l.
Proof.
  induction l as [|e l IH]; [reflexivity|].
  cbn [sortByPoints fold_right]. fold (sortByPoints l).
  rewrite insertSorted_perm. now constructor.
Qed.

Lemma insertSorted_sorted (e : LeaderboardEntry.t) (l : list LeaderboardEntry.t) :
  StronglySorted
    (fun a b => LeaderboardEntry.totalPoints b <= LeaderboardEntry.totalPoints a) l ->
  StronglySorted
    (fun a b => LeaderboardEntry.totalPoints b <= LeaderboardEntry.totalPoints a)
    (insertSorted e l).
Proof.
  induction 1 as [|x l Hl IH Hx]; cbn [insertSorted].
  - repeat constructor.
  - destruct (LeaderboardEntry.totalPoints x <=? LeaderboardEntry.totalPoints e)
      eqn:E.
    + apply Z.leb_le in E. constructor; [now constructor|].
      constructor; [exact E|].
      eapply List.Forall_impl; [|exact Hx]. cbn. intros a Ha. lia.
    + apply Z.leb_gt in E. constructor; [exact IH|].
      apply List.Forall_forall. intros a Ha.
      apply (Permutation_in _ (insertSorted_perm e l)) in Ha.
      destruct Ha as [<-|Ha]; [lia|].
      rewrite List.Forall_forall in Hx. now apply Hx.
Qed.

Lemma sortByPoints_sorted (l : list LeaderboardEntry.t) :
  StronglySorted
    (fun a b => LeaderboardEntry.totalPoints b <= LeaderboardEntry.totalPoints a)
    (sortByPoints l).
Proof.
  induction l as [|e l IH]; [constructor|].
  cbn [sortByPoints fold_right]. now apply insertSorted_sorted.
Qed.

Lemma sliceTo_take {X} (xs : list X) (n : Z) :
  0 <= n -> sliceTo xs n = firstn (Z.to_nat n) xs.
Proof.
  intros Hn. unfold sliceTo, Buf.clamp.
  rewrite (proj2 (Z.ltb_ge n 0)) by lia.
  destruct (Z_le_gt_dec n (Z.of_nat (length xs))) as [H|H].
  - now rewrite Z.min_l by lia.
  - rewrite Z.min_r by lia. rewrite Nat2Z.id.
    rewrite firstn_all. symmetry. apply firstn_all2. lia.
Qed.

(** With a limit [n] that is not negative, [getLeaderboard] returns the
    first [min n k] of the [k] entries put in descending order of their
    points: the entries it leaves out come after them in that order,
    none has more points than one it returns. *)
Theorem getLeaderboard_top (limit : Z) (s : State) :
  0 <= limit ->
  exists rest,
    Permutation (getLeaderboard limit s ++ rest) (map snd (leaderboard s))
    /\ StronglySorted
         (fun a b =>
            LeaderboardEntry.totalPoints b <= LeaderboardEntry.totalPoints a)
         (getLeaderboard limit s ++ rest)
    /\ Z.of_nat (length (getLeaderboard limit s))
       = Z.min limit (Z.of_nat (length (leaderboard s))).
Proof.
  intros Hl. unfold getLeaderboard. rewrite sliceTo_take by exact Hl.
  exists (skipn (Z.to_nat limit) (sortByPoints (map snd (leaderboard s)))).
  rewrite firstn_skipn. split; [apply sortByPoints_perm|].
  split; [apply sortByPoints_sorted|].
  rewrite length_firstn.
  rewrite (Permutation_length (sortByPoints_perm _)), length_map. lia.
Qed.

Lemma getLeaderboard_top_witness :
  let entry user points :=
    {| LeaderboardEntry.user := user; LeaderboardEntry.totalPoints := points;
       LeaderboardEntry.totalPulses := 0; LeaderboardEntry.currentStreak := 0;
       LeaderboardEntry.longestStreak := 0; LeaderboardEntry.tier := js "none";
       LeaderboardEntry.lastActive := 0 |} in
  let s := setLeaderboard
             [(js "a", entry (js "a") 10); (js "b", entry (js "b") 30);
              (js "c", entry (js "c") 20)]
             (initial (fun _ => 0)) in
  Z.of_nat (length (getLeaderboard 2 s)) = 2.
Proof.
  cbv zeta.
  match goal with
  | |- context [getLeaderboard 2 ?s] =>
      destruct (getLeaderboard_top 2 s ltac:(lia)) as (rest & _ & _ & H)
  end.
  exact H.
Defined.

(** The sort keeps entries of equal points in the order in which the
    users entered the leaderboard. *)
Theorem sortByPoints_stable (points : Z) (l : list LeaderboardEntry.t) :
  List.filter (fun e => LeaderboardEntry.totalPoints e =? points) (sortByPoints l)
  = List.filter (fun e => LeaderboardEntry.totalPoints e =? points) l.
Proof.
  induction l as [|e l IH]; [reflexivity|].
  cbn [sortByPoints fold_right]. fold (sortByPoints l).
  cbn [List.filter]. rewrite <- IH. clear IH.
  induction (sortByPoints l) as [|x sorted IHs]; [reflexivity|].
  cbn [insertSorted].
  destruct (LeaderboardEntry.totalPoints x <=? LeaderboardEntry.totalPoints e)
    eqn:E; [reflexivity|].
  apply Z.leb_gt in E. cbn [List.filter]. rewrite IHs.
  destruct (LeaderboardEntry.totalPoints e =? points) eqn:Ee; [|reflexivity].
  apply Z.eqb_eq in Ee.
  now rewrite (proj2 (Z.eqb_neq (LeaderboardEntry.totalPoints x) points)) by lia.
Qed.

End QueryFacts.

(** ** Invariants *)

Module InvariantFacts.
Import Handler Invariant HandlerFacts.

Lemma keeps_ret {A} (I : State -> Prop) (a : A) : keeps I (ret a).
Proof. intros s H. exact H. Qed.

Lemma keeps_bind {A B} (I : State -> Prop) (m : M A) (k : A -> M B) :
  keeps I m -> (forall a, keeps I (k a)) -> keeps I (bind m k).
Proof.
  intros Hm Hk s H. unfold bind. specialize (Hm s H).
  destruct (m s) as [[a|e|] s']; cbn [snd] in *; [now apply Hk | exact Hm..].
Qed.

Lemma keeps_tryM (I : State -> Prop) (m : M unit) :
  keeps I m -> keeps I (tryM m).
Proof.
  intros Hm s H. unfold tryM. specialize (Hm s H).
  destruct (m s) as [[a|e|] s']; exact Hm.
Qed.

Lemma keeps_forOf {Y} (I : State -> Prop) (xs : list Y) (g : Y -> M unit) :
  (forall y, keeps I (g y)) -> keeps I (forOf xs g).
Proof.
  intros Hg. induction xs as [|x xs IH]; [apply keeps_ret|].
  cbn [forOf]. apply keeps_bind; [apply Hg | intros _; exact IH].
Qed.

Lemma keeps_modify (I : State -> Prop) (g : State -> State) :
  (forall s, I s -> I (g s)) -> keeps I (modify g).
Proof. intros Hg s H. now apply Hg. Qed.

Lemma keeps_emit (I : State -> Prop) (channel : string) (p : Payload) :
  (forall c s, I s -> I (setCalls c s)) -> keeps I (emit channel p).
Proof. intros Hc s H. now apply Hc. Qed.

Section Store.
Variable I : State -> Prop.
Hypothesis I_calls : forall c s, I s -> I (setCalls c s).
Hypothesis I_activities : forall v s, I s -> I (setActivities v s).
Hypothesis I_fees : forall v s, I s -> I (setTotalFees v s).
Hypothesis I_transactions : forall v s, I s -> I (setTotalTransactions v s).
Hypothesis I_update :
  forall user points pulses streak,
    keeps I (updateLeaderboard user points pulses streak).
Hypothesis I_tier : forall user tier, keeps I (overwriteTier user tier).

Lemma keeps_processPrintEvent (eventData : PrintEvent) (txHash : JsString)
    (blockHeight timestamp : Z) :
  keeps I (processPrintEvent eventData txHash blockHeight timestamp).
Proof.
  unfold processPrintEvent. apply keeps_tryM.
  destruct eventData;
    [ unfold handlePulseEvent | unfold handleBoostEvent
    | unfold handleCheckinEvent | unfold handleMegaPulseEvent
    | unfold handleChallengeEvent | unfold handleRewardEvent
    | unfold handleTierEvent | ];
    cbv zeta; unfold push, addFees;
    repeat first
      [ apply keeps_ret
      | apply I_update
      | apply I_tier
      | apply keeps_emit; exact I_calls
      | apply keeps_modify; intros s Hs;
        first [now apply I_activities | now apply I_fees]
      | apply keeps_bind; [|intros ?] ].
Qed.

Lemma keeps_processTransaction (tx : Transaction) (blockHeight timestamp : Z) :
  keeps I (processTransaction tx blockHeight timestamp).
Proof.
  unfold processTransaction. apply keeps_forOf. intros [data|data|data|].
  - apply keeps_processPrintEvent.
  - unfold processNFTEvent. cbv zeta. unfold push.
    apply keeps_bind;
      [apply keeps_modify; intros s Hs; now apply I_activities|].
    intros _. now apply keeps_emit.
  - unfold processSTXTransfer. cbv zeta. unfold push.
    apply keeps_bind;
      [apply keeps_modify; intros s Hs; now apply I_activities|].
    intros _. now apply keeps_emit.
  - apply keeps_ret.
Qed.

Lemma keeps_processPayload (rollback : list Z) (applyBlocks : list Block) :
  keeps I (processPayload rollback applyBlocks).
Proof.
  unfold processPayload.
  apply keeps_bind; [|intros _; apply keeps_bind; [|intros _]].
  - destruct (0 <? Z.of_nat (length rollback)); [|apply keeps_ret].
    unfold handleRollback.
    apply keeps_bind; [|intros _; now apply keeps_emit].
    apply keeps_forOf. intros index. apply keeps_modify.
    intros s Hs. now apply I_activities.
  - apply keeps_forOf. intros block. apply keeps_forOf. intros tx.
    apply keeps_processTransaction.
  - apply keeps_modify. intros s Hs. now apply I_transactions.
Qed.

End Store.

(** *** Keys *)

Lemma mapGet_None_keys {V} (k : JsString) (m : list (JsString * V)) :
  mapGet k m = None -> ~ In k (map fst m).
Proof.
  induction m as [|[k' v'] m IH]; cbn [mapGet map fst In]; [tauto|].
  destruct (decide (k = k')) as [E|E]; [discriminate|].
  intros H [Hk|Hk]; [congruence | now apply IH].
Qed.

Lemma keys_mapSet {V} (k : JsString) (v : V) (m : list (JsString * V)) :
  map fst (mapSet k v m)
  = match mapGet k m with
    | Some _ => map fst m
    | None => map fst m ++ [k]
    end.
Proof.
  induction m as [|[k' v'] m IH]; cbn [mapSet mapGet map fst app]; [reflexivity|].
  destruct (decide (k = k')) as [->|E]; cbn [map fst]; [reflexivity|].
  rewrite IH. now destruct (mapGet k m).
Qed.

Lemma NoDup_mapSet {V} (k : JsString) (v : V) (m : list (JsString * V)) :
  NoDup (map fst m) -> NoDup (map fst (mapSet k v m)).
Proof.
  intros H. rewrite keys_mapSet.
  destruct (mapGet k m) eqn:E; [exact H|].
  apply NoDup_app. split; [exact H|]. split; [|apply NoDup_singleton].
  intros x Hx Hk. apply list_elem_of_singleton in Hk. subst x.
  apply list_elem_of_In in Hx. now apply (mapGet_None_keys k m).
Qed.

Lemma Forall_mapSet {V} (P : JsString * V -> Prop) (k : JsString) (v : V)
    (m : list (JsString * V)) :
  Forall P m -> P (k, v) -> Forall P (mapSet k v m).
Proof.
  intros Hm Hv. induction Hm as [|[k' v'] m Hx Hm IH]; cbn [mapSet].
  - now repeat constructor.
  - destruct (decide (k = k')); constructor; assumption.
Qed.

Lemma mapGet_Forall {V} (P : JsString * V -> Prop) (k : JsString) (v : V)
    (m : list (JsString * V)) :
  Forall P m -> mapGet k m = Some v -> P (k, v).
Proof.
  induction 1 as [|[k' v'] m Hx Hm IH]; cbn [mapGet]; [discriminate|].
  destruct (decide (k = k')) as [->|E]; [now intros [= <-] | exact IH].
Qed.

Lemma keyed_mapSet (user : JsString) (entry : LeaderboardEntry.t) (s : State) :
  keyedByUser s -> LeaderboardEntry.user entry = user ->
  keyedByUser (setLeaderboard (mapSet user entry (leaderboard s)) s).
Proof.
  intros [Hn Hf] Hu. split; cbn [leaderboard setLeaderboard].
  - now apply NoDup_mapSet.
  - now apply Forall_mapSet.
Qed.

Lemma keyed_updateLeaderboard (user : JsString) (points pulses streak : Z) :
  keeps keyedByUser (updateLeaderboard user points pulses streak).
Proof.
  intros s H. unfold updateLeaderboard, bind at 1.
  destruct (mapGet user (leaderboard s)) as [entry|] eqn:E.
  - cbn. apply (keyed_mapSet user _ (setTicks _ s)); [exact H|].
    cbn. destruct H as [_ Hf].
    exact (mapGet_Forall _ _ _ _ Hf E).
  - cbn.
    apply (keyed_mapSet user _
             (setTicks _ (setLeaderboard _ (setTicks _ s)))); [|reflexivity].
    now apply (keyed_mapSet user _ (setTicks _ s)).
Qed.

Lemma keyed_overwriteTier (user tier : JsString) :
  keeps keyedByUser (overwriteTier user tier).
Proof.
  intros s H. unfold overwriteTier, modify. cbn [snd].
  destruct (mapGet user (leaderboard s)) as [entry|] eqn:E; [|exact H].
  apply keyed_mapSet; [exact H|]. cbn. destruct H as [_ Hf].
  exact (mapGet_Forall _ _ _ _ Hf E).
Qed.

(** Every entry of the leaderboard is stored under the name of its own
    user and no user has two entries, so [getStats] counts each user
    once; [processPayload] keeps it so. *)
Theorem processPayload_keeps_keys
    (rollback : list Z) (applyBlocks : list Block) (s : State) :
  keyedByUser s ->
  keyedByUser (run (processPayload rollback applyBlocks) s).
Proof.
  apply (keeps_processPayload keyedByUser); try (intros; assumption).
  - apply keyed_updateLeaderboard.
  - apply keyed_overwriteTier.
Qed.

Lemma processPayload_keeps_keys_witness :
  keyedByUser
    (run (processPayload []
            [{| index := Some 7; blockTimestamp := Some 0;
                transactions :=
                  Some [{| hash := js "0xab";
                           events :=
                             [PrintEventOf
                                (BoostActivated
                                   {| BoostEvent.user := js "SP1";
                                      BoostEvent.points := 10;
                                      BoostEvent.fee := 5;
                                      BoostEvent.total_boosts := 1 |})] |}] |}])
         (initial (fun _ => 0))).
Proof.
  apply processPayload_keeps_keys. split; constructor.
Defined.

(** *** Entries stay *)

(** A user who has an entry has one after [processPayload]: nothing
    deletes from the leaderboard, a rollback least of all. *)
Theorem processPayload_keeps_entries
    (user : JsString) (rollback : list Z) (applyBlocks : list Block) (s : State) :
  mapGet user (leaderboard s) <> None ->
  mapGet user (leaderboard (run (processPayload rollback applyBlocks) s)) <> None.
Proof.
  apply (keeps_processPayload
           (fun s => mapGet user (leaderboard s) <> None));
    try (intros; assumption).
  - intros u points pulses streak s0 H.
    destruct (decide (user = u)) as [->|Hu].
    + destruct (updateLeaderboard_lookup u points pulses streak s0)
        as (now & now' & E).
      unfold run in E. now rewrite E.
    + assert (Ho := updateLeaderboard_others u user points pulses streak s0 Hu).
      unfold run in Ho. now rewrite Ho.
  - intros u tier s0 H. rewrite overwriteTier_lookup.
    destruct (decide (user = u)); [|exact H].
    now destruct (mapGet user (leaderboard s0)).
Qed.

Lemma processPayload_keeps_entries_witness :
  let entry :=
    {| LeaderboardEntry.user := js "SP1"; LeaderboardEntry.totalPoints := 10;
       LeaderboardEntry.totalPulses := 1; LeaderboardEntry.currentStreak := 1;
       LeaderboardEntry.longestStreak := 1; LeaderboardEntry.tier := js "none";
       LeaderboardEntry.lastActive := 0 |} in
  mapGet (js "SP1")
    (leaderboard
       (run (processPayload [7] [])
            (setLeaderboard [(js "SP1", entry)] (initial (fun _ => 0)))))
  <> None.
Proof.
  cbv zeta. apply processPayload_keeps_entries. discriminate.
Defined.

End InvariantFacts.

(** ** More on the event handlers *)

Module EventFacts.
Import Handler HandlerFacts.

(** An update that leaves the total of a user below 100 leaves the
    tier of the entry as it was: a tier reached earlier, or set by a
    reward or tier event, is not taken back to none. *)
Theorem tier_kept_below_100
    (user : JsString) (points pulses streak : Z) (s : State)
    (entry : LeaderboardEntry.t) :
  mapGet user (leaderboard s) = Some entry ->
  LeaderboardEntry.totalPoints entry + points < 100 ->
  exists entry',
    mapGet user (leaderboard (run (updateLeaderboard user points pulses streak) s))
    = Some entry'
    /\ LeaderboardEntry.totalPoints entry'
       = LeaderboardEntry.totalPoints entry + points
    /\ LeaderboardEntry.tier entry' = LeaderboardEntry.tier entry.
Proof.
  intros E Hlow.
  destruct (updateLeaderboard_lookup user points pulses streak s)
    as (now & now' & ->).
  rewrite E. eexists. split; [reflexivity|]. split; [reflexivity|].
  cbn [updateEntry LeaderboardEntry.tier].
  now apply tierUpdate_below_100.
Qed.

Lemma tier_kept_below_100_witness :
  let entry :=
    {| LeaderboardEntry.user := js "SP1"; LeaderboardEntry.totalPoints := 600;
       LeaderboardEntry.totalPulses := 1; LeaderboardEntry.currentStreak := 1;
       LeaderboardEntry.longestStreak := 1; LeaderboardEntry.tier := js "silver";
       LeaderboardEntry.lastActive := 0 |} in
  exists entry',
    mapGet (js "SP1")
      (leaderboard
         (run (updateLeaderboard (js "SP1") (- 550) 0 0)
              (setLeaderboard [(js "SP1", entry)] (initial (fun _ => 0)))))
    = Some entry'
    /\ LeaderboardEntry.totalPoints entry' = 50
    /\ LeaderboardEntry.tier entry' = js "silver".
Proof.
  cbv zeta.
  match goal with
  | |- context [run (updateLeaderboard ?u ?p ?q ?k) ?s0] =>
      destruct (tier_kept_below_100 u p q k s0 _ eq_refl)
        as (entry' & Hget & Htot & Htier); [cbn; lia|]
  end.
  exists entry'. split; [exact Hget|]. split; [exact Htot | exact Htier].
Defined.

(** A tier-achieved event appends a record with no points and no fee,
    and writes its tier into the entry of the user when there is one;
    it adds no entry, keeps the totals of every entry (the
    [total_points] of the event go to the metadata only) and keeps the
    fee counter. *)
Theorem tier_event_overwrites_label
    (event : TierEvent.t) (txHash : JsString) (blockHeight timestamp : Z)
    (s : State) :
  let s' := run (handleTierEvent event txHash blockHeight timestamp) s in
  (exists a,
      activities s' = activities s ++ [a]
      /\ ActivityRecord.eventType a = js "tier"
      /\ ActivityRecord.points a = 0
      /\ ActivityRecord.fee a = 0)
  /\ map fst (leaderboard s') = map fst (leaderboard s)
  /\ (forall v,
        mapGet v (leaderboard s')
        = if decide (v = TierEvent.user event)
          then option_map (setTier (TierEvent.tier event))
                          (mapGet v (leaderboard s))
          else mapGet v (leaderboard s))
  /\ totalFees s' = totalFees s.
Proof.
  cbv zeta. unfold handleTierEvent. cbv zeta. split; [|split; [|split]].
  - eexists. split.
    + apply activities_after.
      apply preserves_bind; [now apply preserves_overwriteTier|].
      intros _. now apply preserves_emit.
    + now repeat split.
  - unfold push, overwriteTier. rewrite !run_modify_bind.
    cbn [run emit snd leaderboard setCalls setActivities].
    destruct (mapGet (TierEvent.user event) (leaderboard s)) as [entry|] eqn:E;
      cbn [leaderboard setLeaderboard setActivities]; [|reflexivity].
    rewrite InvariantFacts.keys_mapSet. now rewrite E.
  - intros v. unfold push. rewrite run_modify_bind.
    rewrite (preserves_after (fun s => mapGet v (leaderboard s)))
      by (intros _; now apply preserves_emit).
    unfold run. now rewrite overwriteTier_lookup.
  - apply fees_kept.
    apply preserves_bind; [now apply preserves_overwriteTier|].
    intros _. now apply preserves_emit.
Qed.

(** An NFT mint event appends a badge-minted record whose user is the
    recipient, or "unknown" when the recipient is missing or empty; the
    record has no points and no fee, and the leaderboard and the fee
    counter stay as they are. *)
Theorem nft_event_records_recipient
    (data : NFTEvent.t) (txHash : JsString) (blockHeight timestamp : Z)
    (s : State) :
  let s' := run (processNFTEvent data txHash blockHeight timestamp) s in
  (exists a,
      activities s' = activities s ++ [a]
      /\ ActivityRecord.eventType a = js "badge-minted"
      /\ ActivityRecord.points a = 0
      /\ ActivityRecord.fee a = 0
      /\ (forall r, NFTEvent.recipient data = Some r -> r <> [] ->
                    ActivityRecord.user a = r)
      /\ (NFTEvent.recipient data = None \/ NFTEvent.recipient data = Some [] ->
          ActivityRecord.user a = js "unknown"))
  /\ leaderboard s' = leaderboard s
  /\ totalFees s' = totalFees s.
Proof.
  cbv zeta. unfold processNFTEvent. cbv zeta. split; [|split].
  - eexists. split; [apply activities_after; now apply preserves_emit|].
    cbn [ActivityRecord.eventType ActivityRecord.points ActivityRecord.fee
         ActivityRecord.user].
    repeat split.
    + intros r -> Hr. cbn [recipientOrUnknown].
      now rewrite bool_decide_eq_false_2.
    + intros [->| ->]; reflexivity.
  - reflexivity.
  - reflexivity.
Qed.

Lemma nft_event_records_recipient_witness :
  let data := {| NFTEvent.recipient := Some []; NFTEvent.asset_identifier := VNull |} in
  map ActivityRecord.user
    (activities (run (processNFTEvent data (js "0xab") 7 0) (initial (fun _ => 0))))
  = [js "unknown"].
Proof.
  cbv zeta.
  match goal with
  | |- context [run (processNFTEvent ?d ?tx ?h ?t) ?s0] =>
      destruct (nft_event_records_recipient d tx h t s0)
        as ((a & -> & _ & _ & _ & _ & Hu) & _)
  end.
  cbn [activities initial app map]. f_equal. apply Hu. now right.
Defined.

(** *** The same transaction twice *)

Lemma record_of_event
    (event : TxEvent) (txHash : JsString) (blockHeight timestamp : Z) :
  event <> OtherEvent -> event <> PrintEventOf UnknownTag ->
  exists a suffix,
    ActivityRecord.id a = txHash ++ suffix
    /\ ActivityRecord.txHash a = txHash
    /\ ActivityRecord.blockHeight a = blockHeight
    /\ forall s,
        activities
          (run (processTransaction {| hash := txHash; events := [event] |}
                                   blockHeight timestamp) s)
        = activities s ++ [a].
Proof.
  intros Ho Hu. unfold processTransaction. cbn [hash events].
  destruct event as [[e|e|e|e|e|e|e|]|data|data|]; try contradiction;
  (eexists; eexists;
    (split; [|split; [|split]]);
    [ | |
    | intros s; rewrite run_single; unfold processPrintEvent;
      rewrite ?run_tryM;
      unfold handlePulseEvent, handleBoostEvent, handleCheckinEvent,
        handleMegaPulseEvent, handleChallengeEvent, handleRewardEvent,
        handleTierEvent, processNFTEvent, processSTXTransfer;
      cbv zeta; apply activities_after;
      repeat first
        [ apply preserves_updateLeaderboard; intros; reflexivity
        | apply preserves_overwriteTier; intros; reflexivity
        | apply preserves_emit; intros; reflexivity
        | apply preserves_modify; intros; reflexivity
        | apply preserves_bind; [|intros ?] ] ];
    reflexivity).
Qed.

(** Handling a transaction of one recognised event appends one record
    that is made from the event, the hash, the height and the time of
    the block alone, and whose id is the hash with a suffix; handling
    the same transaction again appends the same record again, with the
    same id: the log is not searched for the id. *)
Theorem same_transaction_twice
    (event : TxEvent) (txHash : JsString) (blockHeight timestamp : Z) :
  event <> OtherEvent -> event <> PrintEventOf UnknownTag ->
  exists a suffix,
    ActivityRecord.id a = txHash ++ suffix
    /\ forall s,
        let once :=
          run (processTransaction {| hash := txHash; events := [event] |}
                                  blockHeight timestamp) in
        activities (once (once s)) = activities s ++ [a; a].
Proof.
  intros Ho Hu.
  destruct (record_of_event event txHash blockHeight timestamp Ho Hu)
    as (a & suffix & Hid & _ & _ & Hrun).
  exists a, suffix. split; [exact Hid|].
  intros s. cbv zeta. rewrite !Hrun, <- app_assoc. reflexivity.
Qed.

Lemma same_transaction_twice_witness :
  exists a suffix,
    ActivityRecord.id a = js "0xab" ++ suffix
    /\ forall s,
        let once :=
          run (processTransaction
                 {| hash := js "0xab";
                    events :=
                      [STXTransfer
                         {| STXTransferEvent.sender := js "SP1";
                            STXTransferEvent.recipient := js "fee-receiver";
                            STXTransferEvent.amount := 5;
                            STXTransferEvent.block_height := 7 |}] |}
                 7 0) in
        activities (once (once s)) = activities s ++ [a; a].
Proof.
  apply same_transaction_twice; discriminate.
Defined.

End EventFacts.

(** ** Deliveries *)

Module DeliveryFacts.
Import Handler Invariant HandlerFacts.

Lemma fueled_ret {A} (a : A) : fueled (ret a).
Proof. intros s. discriminate. Qed.

Lemma fueled_bind {A B} (m : M A) (k : A -> M B) :
  fueled m -> (forall a, fueled (k a)) -> fueled (bind m k).
Proof.
  intros Hm Hk s. unfold bind. specialize (Hm s).
  destruct (m s) as [[a|e|] s']; cbn [fst] in *;
    [apply Hk | discriminate | contradiction].
Qed.

Lemma fueled_modify (g : State -> State) : fueled (modify g).
Proof. intros s. discriminate. Qed.

Lemma callListeners_fueled (ls : list (Emitter.Listener Payload))
    (channel : JsString) (p : Payload) :
  fst (Emitter.callListeners ls channel p) <> OutOfFuel.
Proof.
  induction ls as [|l ls IH]; cbn [Emitter.callListeners]; [discriminate|].
  destruct (Emitter.call l p); [discriminate | exact IH].
Qed.

Lemma fueled_emit (channel : string) (p : Payload) : fueled (emit channel p).
Proof. intros s. apply callListeners_fueled. Qed.

Lemma fueled_updateLeaderboard (user : JsString) (points pulses streak : Z) :
  fueled (updateLeaderboard user points pulses streak).
Proof.
  unfold updateLeaderboard. apply fueled_bind.
  - intros s. destruct (mapGet user (leaderboard s)); discriminate.
  - intros entry. apply fueled_bind; [intros s; discriminate|].
    intros now. apply fueled_bind; [apply fueled_modify|].
    intros _. apply fueled_emit.
Qed.

(** [processPrintEvent] returns, whatever the event and whatever the
    listeners do: what a listener throws is caught there and goes no
    further. *)
Theorem processPrintEvent_returns
    (eventData : PrintEvent) (txHash : JsString) (blockHeight timestamp : Z)
    (s : State) :
  outcome (processPrintEvent eventData txHash blockHeight timestamp) s = Ret tt.
Proof.
  unfold outcome, processPrintEvent, tryM.
  match goal with
  | |- context [match ?m s with _ => _ end] =>
      assert (H : fueled m)
  end.
  { destruct eventData;
      [ unfold handlePulseEvent | unfold handleBoostEvent
      | unfold handleCheckinEvent | unfold handleMegaPulseEvent
      | unfold handleChallengeEvent | unfold handleRewardEvent
      | unfold handleTierEvent | ];
      cbv zeta; unfold push, addFees, overwriteTier;
      repeat first
        [ apply fueled_ret
        | apply fueled_updateLeaderboard
        | apply fueled_emit
        | apply fueled_modify
        | apply fueled_bind; [|intros ?] ]. }
  specialize (H s).
  match goal with
  | |- context [match ?m s with _ => _ end] =>
      destruct (m s) as [[[]|e|] s']
  end; cbn [fst] in *; [reflexivity | reflexivity | contradiction].
Qed.

Lemma emit_first_throws (channel : string) (p : Payload) (s : State)
    (l : Emitter.Listener Payload) (ls : list (Emitter.Listener Payload))
    (e : JsError) :
  listeners s (js channel) = l :: ls ->
  Emitter.call l p = Some e ->
  emit channel p s = (Throw e, setCalls (calls s ++ [callOf (js channel) p l]) s).
Proof.
  intros Hl Hc. unfold emit, Emitter.emit. rewrite Hl.
  cbn [Emitter.callListeners]. rewrite Hc. reflexivity.
Qed.

Lemma bind_throws {A B} (m : M A) (k : A -> M B) (s s' : State) (e : JsError) :
  m s = (Throw e, s') -> bind m k s = (Throw e, s').
Proof. intros H. unfold bind. now rewrite H. Qed.

Lemma forOf_throws {Y} (y : Y) (ys : list Y) (g : Y -> M unit)
    (s s' : State) (e : JsError) :
  g y s = (Throw e, s') -> forOf (y :: ys) g s = (Throw e, s').
Proof. intros H. cbn [forOf]. now apply bind_throws. Qed.

(** A listener of the stx-transfer channel that throws fails the
    delivery: [processPayload] throws what it threw, after the record
    of the transfer was appended; the events, transactions and blocks
    after it are not handled and [totalTransactions] is not raised. *)
Theorem transfer_listener_failure
    (l : Emitter.Listener Payload) (ls : list (Emitter.Listener Payload))
    (e : JsError) (data : STXTransferEvent.t) (txHash : JsString)
    (more : list TxEvent) (txs : list Transaction)
    (height time : option Z) (blocks : list Block) (s : State) :
  listeners s (js "stx-transfer") = l :: ls ->
  (forall p, Emitter.call l p = Some e) ->
  let block :=
    {| index := height; blockTimestamp := time;
       transactions :=
         Some ({| hash := txHash; events := STXTransfer data :: more |} :: txs) |} in
  let m := processPayload [] (block :: blocks) in
  outcome m s = Throw e
  /\ totalTransactions (run m s) = totalTransactions s
  /\ exists a,
      activities (run m s) = activities s ++ [a]
      /\ ActivityRecord.fee a = STXTransferEvent.amount data
      /\ calls (run m s) = calls s ++ [callOf (js "stx-transfer") (OfActivity a) l].
Proof.
  intros Hl Hc block m.
  assert (H : exists a,
             m s = (Throw e,
                    setCalls (calls s ++ [callOf (js "stx-transfer") (OfActivity a) l])
                             (setActivities (activities s ++ [a]) s))
             /\ ActivityRecord.fee a = STXTransferEvent.amount data).
  { eexists. split.
    - unfold m, processPayload. cbn [length Z.of_nat Z.ltb Z.compare].
      unfold bind at 1. cbn [ret].
      apply bind_throws, forOf_throws.
      unfold block, transactionsOf. cbn [transactions].
      apply forOf_throws. unfold processTransaction. cbn [events hash].
      apply forOf_throws. unfold processSTXTransfer. cbv zeta.
      unfold push. rewrite bind_modify.
      match goal with
      | |- emit _ ?p ?s0 = _ =>
          rewrite (emit_first_throws "stx-transfer" p s0 l ls e Hl (Hc p))
      end.
      reflexivity.
    - reflexivity. }
  destruct H as (a & Hm & Hfee). unfold outcome, run. rewrite Hm.
  split; [reflexivity|]. split; [reflexivity|].
  exists a. now repeat split.
Qed.

Lemma transfer_listener_failure_witness :
  let failing :=
    {| Emitter.lid := 1; Emitter.call := fun _ : Payload => Some ListenerError |} in
  let transfer :=
    {| STXTransferEvent.sender := js "SP1";
       STXTransferEvent.recipient := js "fee-receiver";
       STXTransferEvent.amount := 5; STXTransferEvent.block_height := 7 |} in
  let s := run (on "stx-transfer" failing) (initial (fun _ => 0)) in
  let m :=
    processPayload []
      [{| index := Some 7; blockTimestamp := Some 0;
          transactions :=
            Some [{| hash := js "0xab"; events := [STXTransfer transfer] |}] |}] in
  outcome m s = Throw ListenerError /\ totalTransactions (run m s) = 0.
Proof.
  cbv zeta.
  match goal with
  | |- context [outcome _ ?s0] =>
      destruct (transfer_listener_failure
                  {| Emitter.lid := 1;
                     Emitter.call := fun _ : Payload => Some ListenerError |}
                  [] ListenerError
                  {| STXTransferEvent.sender := js "SP1";
                     STXTransferEvent.recipient := js "fee-receiver";
                     STXTransferEvent.amount := 5;
                     STXTransferEvent.block_height := 7 |}
                  (js "0xab") [] [] (Some 7) (Some 0) [] s0 eq_refl
                  (fun _ => eq_refl)) as (Ho & Ht & _)
  end.
  split; [exact Ho | exact Ht].
Defined.

(** *** Quiet listeners *)

Lemma quiet_same (s s' : State) :
  listeners s' = listeners s -> quiet s -> quiet s'.
Proof. intros E H channel p. rewrite E. apply H. Qed.

Lemma quiet_emit (channel : string) (p : Payload) (s : State) :
  quiet s ->
  emit channel p s
  = (Ret tt,
     setCalls (calls s ++ map (callOf (js channel) p) (listeners s (js channel)))
              s).
Proof.
  intros H. unfold emit, Emitter.emit.
  now rewrite (callListeners_return _ _ _ (H (js channel) p)).
Qed.

(** *** The order of the notifications *)

Lemma updateLeaderboard_emits (user : JsString) (points pulses streak : Z)
    (s : State) :
  exists s1 entry',
    updateLeaderboard user points pulses streak s
    = emit "leaderboard-update" (OfEntry entry') s1
    /\ listeners s1 = listeners s
    /\ calls s1 = calls s
    /\ activities s1 = activities s
    /\ mapGet user (leaderboard s1) = Some entry'.
Proof.
  unfold updateLeaderboard, bind at 1.
  destruct (mapGet user (leaderboard s)) as [entry|] eqn:E.
  - eexists. eexists. split; [reflexivity|].
    repeat split. cbn. apply mapGet_mapSet_eq.
  - eexists. eexists. split; [reflexivity|].
    repeat split. cbn. apply mapGet_mapSet_eq.
Qed.

(** When every listener returns, handling a pulse calls the listeners
    of the leaderboard-update channel, with the entry of the user as
    updated, and after them the listeners of the pulse channel, with the
    record appended. *)
Theorem pulse_notifies_leaderboard_first
    (event : PulseEvent.t) (txHash : JsString) (blockHeight timestamp : Z)
    (s : State) :
  quiet s ->
  let s' := run (handlePulseEvent event txHash blockHeight timestamp) s in
  exists entry' a,
    mapGet (PulseEvent.user event) (leaderboard s') = Some entry'
    /\ activities s' = activities s ++ [a]
    /\ calls s'
       = calls s
         ++ map (callOf (js "leaderboard-update") (OfEntry entry'))
                (listeners s (js "leaderboard-update"))
         ++ map (callOf (js "pulse") (OfActivity a)) (listeners s (js "pulse")).
Proof.
  intros Hq. cbv zeta. unfold handlePulseEvent. cbv zeta.
  unfold push, addFees. rewrite !run_modify_bind.
  match goal with
  | |- context [run (bind (updateLeaderboard ?u ?p ?q ?k) _) ?s0] =>
      destruct (updateLeaderboard_emits u p q k s0)
        as (s1 & entry' & Heq & Hl & Hc & Ha & Hget)
  end.
  cbn [listeners calls activities setTotalFees setActivities] in Hl, Hc, Ha.
  assert (Hq1 : quiet s1) by now apply (quiet_same s).
  exists entry'. eexists.
  unfold run, bind. rewrite Heq, (quiet_emit _ _ s1 Hq1).
  rewrite quiet_emit by now apply (quiet_same s1).
  cbn [snd leaderboard activities calls listeners setCalls].
  rewrite Hl, Hc, Ha, <- app_assoc.
  split; [exact Hget|]. split; reflexivity.
Qed.

Lemma pulse_notifies_leaderboard_first_witness :
  let first :=
    {| Emitter.lid := 1; Emitter.call := fun _ : Payload => None |} in
  let second :=
    {| Emitter.lid := 2; Emitter.call := fun _ : Payload => None |} in
  let pulse :=
    {| PulseEvent.user := js "SP1"; PulseEvent.points := 10;
       PulseEvent.streak := 1; PulseEvent.fee := 5;
       PulseEvent.total_pulses := 1 |} in
  let s := run (on "pulse" first >> on "leaderboard-update" second)
               (initial (fun _ => 0)) in
  map Emitter.callee (calls (run (handlePulseEvent pulse (js "0xab") 7 0) s))
  = [2%nat; 1%nat].
Proof.
  cbv zeta.
  match goal with
  | |- context [run (handlePulseEvent ?ev ?tx ?h ?t) ?s0] =>
      destruct (pulse_notifies_leaderboard_first ev tx h t s0)
        as (entry' & a & _ & _ & ->)
  end.
  - intros channel p. cbn. unfold Emitter.on, Emitter.noListeners.
    repeat (destruct (decide _); cbn [app]); repeat constructor.
  - reflexivity.
Defined.

End DeliveryFacts.

(** ** More on rollbacks *)

Module RollbackFacts.
Import Handler HandlerFacts.

Lemma activities_handleRollback (rollback : list Z) (s : State) :
  activities (run (handleRollback rollback) s)
  = List.filter
      (fun a => negb (existsb (Z.eqb (ActivityRecord.blockHeight a)) rollback))
      (activities s).
Proof.
  unfold run, handleRollback, bind.
  now rewrite forOf_modify, rollback_state, filter_heights.
Qed.

Lemma filter_twice {X} (f : X -> bool) (l : list X) :
  List.filter f (List.filter f l) = List.filter f l.
Proof.
  induction l as [|x l IH]; [reflexivity|]. cbn [List.filter].
  destruct (f x) eqn:E; [|exact IH]. cbn [List.filter]. now rewrite E, IH.
Qed.

(** After a rollback no record of the log sits at a rolled-back
    height, and the same rollback once more removes nothing. *)
Theorem rollback_once_is_enough (rollback : list Z) (s : State) :
  let s1 := run (handleRollback rollback) s in
  Forall (fun a => ~ In (ActivityRecord.blockHeight a) rollback) (activities s1)
  /\ activities (run (handleRollback rollback) s1) = activities s1.
Proof.
  cbv zeta. rewrite !activities_handleRollback. split.
  - apply List.Forall_forall. intros a Ha Hin.
    apply List.filter_In in Ha as [_ Ha].
    apply negb_true_iff in Ha.
    assert (Hex : existsb (Z.eqb (ActivityRecord.blockHeight a)) rollback = true).
    { apply List.existsb_exists. exists (ActivityRecord.blockHeight a).
      split; [exact Hin | apply Z.eqb_refl]. }
    congruence.
  - apply filter_twice.
Qed.

End RollbackFacts.

(** ** More on the decoder *)

Module DecoderMore.
Import Buf Layout BufFacts Decoder DecoderFacts.

(** The hex string of bytes that start with the marker 0x0c goes to
    [parseClarityTuple], with the 0x prefix and without it. *)
Theorem marker_goes_to_tuple_parser (rest : list Z) :
  isBytes rest ->
  decodeClarityValue (js "0x" ++ toHex (12 :: rest))
  = parseClarityTuple (12 :: rest)
  /\ decodeClarityValue (toHex (12 :: rest)) = parseClarityTuple (12 :: rest).
Proof.
  intros Hb. split; [now apply decodeClarityValue_tuple|].
  unfold decodeClarityValue.
  change (startsWith (js "0x") (toHex (12 :: rest))) with false. cbv iota.
  rewrite fromHex_toHex by (constructor; [lia | exact Hb]).
  rewrite parse_rejects_marker.
  change (at_ (12 :: rest) 0) with (Some 12).
  rewrite bool_decide_eq_true_2 by reflexivity.
  rewrite len_cons. assert (H := len_nonneg rest).
  rewrite (proj2 (Z.ltb_lt 0 (1 + len rest))) by lia. cbn [andb].
  apply parseClarityTuple_no_throw.
Qed.

Lemma marker_goes_to_tuple_parser_witness :
  decodeClarityValue (js "0c0001000161060002686921")
  = parseClarityTuple [12; 0; 1; 0; 1; 97; 6; 0; 2; 104; 105; 33].
Proof.
  refine (proj2 (marker_goes_to_tuple_parser
                   [0; 1; 0; 1; 97; 6; 0; 2; 104; 105; 33] _)).
  repeat constructor; lia.
Defined.

(** A buffer of well-formed fields after the three leading bytes is
    read to its end: every field is in the result, a later field of the
    same key in place of the earlier one.  The two bytes of the declared
    length are skipped, whatever they hold. *)
Theorem parseClarityTuple_reads_all_fields (l1 l2 : Z) (fs : list Field) :
  Forall wfField fs ->
  parseClarityTuple (12 :: l1 :: l2 :: flat_map encodeField fs)
  = Ret (VObj (decodedFields fs [])).
Proof.
  intros Hwf. unfold parseClarityTuple.
  change (12 :: l1 :: l2 :: flat_map encodeField fs)
    with ([12; l1; l2] ++ flat_map encodeField fs).
  rewrite <- (app_nil_r (flat_map encodeField fs)).
  change 3 with (len [12; l1; l2]).
  rewrite (walk_fields fs [] Hwf).
  - reflexivity.
  - intros fuel pre result. apply walk_end.
  - rewrite !length_app. assert (H := length_encoded fs). lia.
Qed.

Lemma parseClarityTuple_reads_all_fields_witness :
  parseClarityTuple
    [12; 255; 255; 0; 1; 97; 6; 0; 2; 104; 105; 0; 1; 97; 7; 0; 1; 33]
  = Ret (VObj [(js "a", VStr (js "!"))]).
Proof.
  apply (parseClarityTuple_reads_all_fields 255 255
           [StrField [97] 6 [104; 105]; StrField [97] 7 [33]]).
  repeat (apply List.Forall_cons || apply List.Forall_nil);
    (split; [reflexivity | split; [auto | reflexivity]]).
Defined.

(** A buffer of four bytes or fewer has no room for a field: the
    result is the empty object. *)
Theorem parseClarityTuple_short_buffer (buffer : list Z) :
  len buffer <= 4 -> parseClarityTuple buffer = Ret (VObj []).
Proof.
  intros H. unfold parseClarityTuple. cbn [walk].
  now rewrite (proj2 (Z.ltb_ge 3 (len buffer - 1))) by lia.
Qed.

Lemma parseClarityTuple_short_buffer_witness :
  parseClarityTuple [12; 0; 1; 0] = Ret (VObj []).
Proof.
  apply parseClarityTuple_short_buffer. vm_compute. discriminate.
Defined.

(** *** The integer that is read *)

Lemma fold_beBytes (k : nat) (w acc : Z) :
  fold_left (fun acc x => 256 * acc + x) (beBytes k w) acc
  = acc * 256 ^ Z.of_nat k + w mod 256 ^ Z.of_nat k.
Proof.
  revert acc. induction k as [|k IH]; intros acc.
  - cbn [beBytes fold_left Z.of_nat]. rewrite Z.pow_0_r, Z.mod_1_r. lia.
  - cbn [beBytes fold_left]. rewrite IH.
    rewrite Nat2Z.inj_succ, Z.pow_succ_r by lia.
    rewrite (Z.mul_comm 256 (256 ^ Z.of_nat k)).
    rewrite Z.rem_mul_r by lia. lia.
Qed.

Lemma beValue_beBytes (k : nat) (w : Z) :
  beValue (beBytes k w) = w mod 256 ^ Z.of_nat k.
Proof. unfold beValue. rewrite fold_beBytes. lia. Qed.

Lemma firstn_beBytes (j i : nat) (v : Z) :
  0 <= v ->
  firstn j (beBytes (j + i) v) = beBytes j (v / 256 ^ Z.of_nat i).
Proof.
  intros Hv. induction j as [|j IH]; [reflexivity|].
  cbn [Nat.add beBytes firstn]. rewrite IH. f_equal.
  rewrite Z.div_div by lia.
  now rewrite Nat2Z.inj_add, Z.pow_add_r, (Z.mul_comm (256 ^ Z.of_nat i)) by lia.
Qed.

(** Of the sixteen bytes of an integer the decoder keeps the first
    eight: a value [v] below 2^128 comes out as the decimal string of
    [v / 2^64], its high half. *)
Theorem parseClarityTuple_integer_high_half
    (l1 l2 : Z) (key : list Z) (tag v : Z) :
  len key < 65536 -> tag = 0 \/ tag = 1 -> 0 <= v < 2 ^ 128 ->
  parseClarityTuple
    (12 :: l1 :: l2 :: encodeField (IntField key tag (beBytes 16 v)))
  = Ret (VObj (assignProp (toUtf8String key)
                          (VStr (bigintToString (v / 2 ^ 64))) [])).
Proof.
  intros Hk Ht Hv.
  assert (H := parseClarityTuple_reads_all_fields l1 l2
                 [IntField key tag (beBytes 16 v)]).
  cbn [flat_map] in H. rewrite app_nil_r in H. rewrite H.
  - unfold decodedFields.
    cbn [fold_left fieldKey decodedValue].
    change (beBytes 16 v) with (beBytes (8 + 8) v).
    rewrite (firstn_beBytes 8 8 v) by lia.
    rewrite beValue_beBytes.
    change (256 ^ Z.of_nat 8) with (2 ^ 64).
    rewrite Z.mod_small; [reflexivity|].
    split; [apply Z.div_pos; lia|].
    apply Z.div_lt_upper_bound; [lia|].
    change (2 ^ 64 * 2 ^ 64) with (2 ^ 128). lia.
  - apply List.Forall_cons; [|apply List.Forall_nil].
    split; [exact Hk | split; [exact Ht | reflexivity]].
Qed.

Lemma parseClarityTuple_integer_high_half_witness :
  parseClarityTuple
    [12; 0; 1; 0; 1; 110; 1;
     0; 0; 0; 0; 0; 0; 0; 7; 0; 0; 0; 0; 0; 0; 0; 42]
  = Ret (VObj [(js "n", VStr (js "7"))]).
Proof.
  apply (parseClarityTuple_integer_high_half 0 1 [110] 1 (7 * 2 ^ 64 + 42));
    [reflexivity | now right | lia].
Defined.

(** *** The prefix *)

(** The prefix 0x is optional: a string that does not start with it
    decodes as the string with the prefix put before it does, except
    that the fallback object holds each string as it was given. *)
Theorem decodeClarityValue_prefix_optional (h : JsString) :
  startsWith (js "0x") h = false ->
  decodeClarityValue (js "0x" ++ h) = decodeClarityValue h
  \/ (decodeClarityValue h = Ret (rawFallback h)
      /\ decodeClarityValue (js "0x" ++ h) = Ret (rawFallback (js "0x" ++ h))).
Proof.
  intros Hp. unfold decodeClarityValue. rewrite Hp.
  change (startsWith (js "0x") (js "0x" ++ h)) with true. cbv iota.
  change (skipn 2 (js "0x" ++ h)) with h.
  destruct (Json.parse (toUtf8String (fromHex h))) as [v|e|];
    [now left | | now left].
  destruct ((0 <? len (fromHex h)) && bool_decide (at_ (fromHex h) 0 = Some 12)).
  - left. now rewrite !parseClarityTuple_no_throw.
  - right. split; reflexivity.
Qed.

Lemma decodeClarityValue_prefix_optional_witness :
  decodeClarityValue (js "0x0c0001000161060002686921")
  = decodeClarityValue (js "0c0001000161060002686921").
Proof.
  destruct (decodeClarityValue_prefix_optional (js "0c0001000161060002686921")
              eq_refl) as [H|[H _]].
  - exact H.
  - vm_compute in H. discriminate H.
Defined.

End DecoderMore.

(** ** From the payload to the handlers *)

Module GatherFacts.
Import Buf Layout Decoder DecoderFacts Normalizer NormalizerFacts Gather.
Local Open Scope string_scope.

(** A payload whose [apply] is no array and whose [event] is no object,
    or is an object with no block list and none of the four fields the
    resolution looks for, gives no block: there is nothing to
    process. *)
Theorem unrecognised_shape_gives_no_block (nowMs : Z) (p : JsVal) :
  isArray (field "apply" p) = false ->
  isObjectValue (field "event" p) = false
  \/ (isArray (field "apply" (field "event" p)) = false
      /\ isArray (field "blocks" (field "event" p)) = false
      /\ truthy (field "transaction_identifier" (field "event" p)) = false
      /\ truthy (field "transaction" (field "event" p)) = false
      /\ truthy (field "metadata" (field "event" p)) = false
      /\ truthy (field "contract_log" (field "event" p)) = false) ->
  resolveApplyBlocks nowMs p = [].
Proof.
  intros Ha H. unfold resolveApplyBlocks. rewrite Ha.
  destruct H as [He | (H1 & H2 & H3 & H4 & H5 & H6)].
  - rewrite object_test, He.
    now destruct (field "event" p).
  - rewrite H1, H2, !truthy_orElse, H3, H4, H5, H6.
    now destruct (truthy (field "event" p) && typeofObject (field "event" p)).
Qed.

Lemma unrecognised_shape_gives_no_block_witness :
  resolveApplyBlocks 0 (obj [("chainhook", obj [("uuid", VStr (js "u1"))])]) = [].
Proof.
  apply unrecognised_shape_gives_no_block; [reflexivity | now left].
Defined.

Section Runtime.
Variable absParseInt : JsVal -> JsVal.

(** The block made for a payload whose [event] holds a [contract_log]
    (and no transaction of its own) carries one transaction with one
    event, of type contract_log: the loop of [processTransaction] has
    no handler for that type, so the log is counted as a transaction
    and produces no record. *)
Theorem contract_log_shape_reaches_no_handler
    (nowMs : Z) (p blockHeight : JsVal) :
  isArray (field "apply" p) = false ->
  isArray (field "apply" (field "event" p)) = false ->
  isArray (field "blocks" (field "event" p)) = false ->
  isObjectValue (field "event" p) = true ->
  truthy (field "transaction_identifier" (field "event" p)) = false ->
  truthy (field "transaction" (field "event" p)) = false ->
  truthy (field "metadata" (field "event" p)) = false ->
  truthy (field "contract_log" (field "event" p)) = true ->
  exists block tx event,
    resolveApplyBlocks nowMs p = [block]
    /\ field "transactions" block = VArr [tx]
    /\ gatherEvents absParseInt tx blockHeight
       = Ret (orElse (field "tx_id" (field "contract_log" (field "event" p)))
                     (VStr []),
              [event])
    /\ field "data" event = field "contract_log" (field "event" p)
    /\ branchOf event = Ret NoHandler.
Proof.
  intros H1 H2 H3 H4 H5 H6 H7 H8.
  unfold resolveApplyBlocks.
  rewrite H1, H2, H3, object_test, H4, !truthy_orElse, H5, H6, H7, H8.
  cbn [orb andb].
  eexists. eexists. eexists.
  split; [reflexivity|]. split; [reflexivity|].
  split; [reflexivity|]. split; reflexivity.
Qed.

Lemma parseClarityTuple_object (buffer : list Z) :
  isBytes buffer -> exists o, parseClarityTuple buffer = Ret (VObj o).
Proof.
  intros Hb. unfold parseClarityTuple.
  destruct (walk_returns (S (length buffer)) buffer 3 [] Hb) as [r ->];
    [unfold len; lia..|].
  now exists r.
Qed.

Lemma decode_returns (hexValue : JsString) :
  exists v, decodeClarityValue hexValue = Ret v.
Proof.
  unfold decodeClarityValue.
  set (hex := if startsWith (js "0x") hexValue then skipn 2 hexValue
              else hexValue).
  destruct (Json.parse (toUtf8String (fromHex hex))) as [v|e|] eqn:E.
  - cbn. eauto.
  - destruct ((0 <? len (fromHex hex))%Z
              && bool_decide (at_ (fromHex hex) 0 = Some 12)).
    + destruct (parseClarityTuple_object (fromHex hex)) as [o ->];
        [apply isBytes_fromHex|]. cbn. eauto.
    + cbn. eauto.
  - now apply parse_never_out_of_fuel in E.
Qed.

(** A contract_log operation of topic print whose value is a string
    that is not empty adds one event of type print_event, with what the
    decoder returns for the string as its data; the event goes to
    [processPrintEvent].  The catch around the decoder is not reached
    by a string. *)
Theorem print_operation_is_decoded (op blockHeight : JsVal) (hexValue : JsString) :
  field "type" op = VStr (js "contract_log") ->
  field "topic" (field "metadata" op) = VStr (js "print") ->
  field "value" (field "metadata" op) = VStr hexValue ->
  hexValue <> [] ->
  exists decoded,
    decodeClarityValue hexValue = Ret decoded
    /\ opEvents absParseInt blockHeight op
       = Ret [obj [("type", VStr (js "print_event")); ("data", decoded)]]
    /\ branchOf (obj [("type", VStr (js "print_event")); ("data", decoded)])
       = Ret ToPrintEvent.
Proof.
  intros Ht Hp Hv Hne.
  destruct (decode_returns hexValue) as [decoded Hd].
  exists decoded. split; [exact Hd|]. split; [|reflexivity].
  unfold opEvents, member.
  destruct op; try discriminate Ht.
  cbn [mbind outcome_bind]. unfold mbind, outcome_bind.
  rewrite Ht, Hp, Hv. cbn [isStr].
  rewrite !bool_decide_eq_true_2 by reflexivity. cbn [andb truthy].
  rewrite bool_decide_eq_false_2 by exact Hne. cbn [negb decodeAny].
  now rewrite Hd.
Qed.

(** An [event] that is taken for a transaction because it has
    [metadata], and that has no [transaction_identifier], makes
    [processTransaction] throw a TypeError at the read of the hash,
    before any event is looked at. *)
Theorem inline_event_without_identifier_throws
    (nowMs : Z) (p blockHeight : JsVal) :
  isArray (field "apply" p) = false ->
  isArray (field "apply" (field "event" p)) = false ->
  isArray (field "blocks" (field "event" p)) = false ->
  isObjectValue (field "event" p) = true ->
  field "transaction_identifier" (field "event" p) = VUndefined ->
  truthy (field "transaction" (field "event" p)) = false ->
  truthy (field "metadata" (field "event" p)) = true ->
  exists block,
    resolveApplyBlocks nowMs p = [block]
    /\ field "transactions" block = VArr [field "event" p]
    /\ gatherEvents absParseInt (field "event" p) blockHeight = Throw TypeError.
Proof.
  intros H1 H2 H3 H4 H5 H6 H7.
  unfold resolveApplyBlocks.
  rewrite H1, H2, H3, object_test, H4, !truthy_orElse, H5, H6, H7.
  cbn [truthy orb andb].
  assert (Htx : orElse (field "transaction" (field "event" p)) (field "event" p)
                = field "event" p) by (unfold orElse; now rewrite H6).
  rewrite Htx.
  eexists. split; [reflexivity|]. split.
  - reflexivity.
  - unfold gatherEvents, member.
    destruct (field "event" p); try discriminate H4;
      unfold mbind, outcome_bind; now rewrite ?H5.
Qed.

End Runtime.

Lemma contract_log_shape_reaches_no_handler_witness :
  let log := obj [("tx_id", VStr (js "0xab")); ("topic", VStr (js "print"))] in
  exists block tx event,
    resolveApplyBlocks 0 (obj [("event", obj [("contract_log", log)])]) = [block]
    /\ field "transactions" block = VArr [tx]
    /\ gatherEvents (fun v => v) tx (VNum 0 0) = Ret (VStr (js "0xab"), [event])
    /\ branchOf event = Ret NoHandler.
Proof.
  cbv zeta.
  destruct (contract_log_shape_reaches_no_handler (fun v => v) 0
              (obj [("event",
                     obj [("contract_log",
                           obj [("tx_id", VStr (js "0xab"));
                                ("topic", VStr (js "print"))])])])
              (VNum 0 0) eq_refl eq_refl eq_refl eq_refl eq_refl eq_refl
              eq_refl eq_refl)
    as (block & tx & event & Hb & Ht & Hg & _ & Hbr).
  exists block, tx, event. now repeat split.
Defined.

Lemma print_operation_is_decoded_witness :
  let op :=
    obj [("type", VStr (js "contract_log"));
         ("metadata", obj [("topic", VStr (js "print"));
                           ("value", VStr (js "0xdeadbeef"))])] in
  exists decoded,
    opEvents (fun v => v) (VNum 7 0) op
    = Ret [obj [("type", VStr (js "print_event")); ("data", decoded)]].
Proof.
  cbv zeta.
  destruct (print_operation_is_decoded (fun v => v)
              (obj [("type", VStr (js "contract_log"));
                    ("metadata", obj [("topic", VStr (js "print"));
                                      ("value", VStr (js "0xdeadbeef"))])])
              (VNum 7 0) (js "0xdeadbeef") eq_refl eq_refl eq_refl
              ltac:(discriminate))
    as (decoded & _ & H & _).
  now exists decoded.
Defined.

Lemma inline_event_without_identifier_throws_witness :
  let event := obj [("metadata", obj [("receipt", obj [])])] in
  gatherEvents (fun v => v) event (VNum 0 0) = Throw TypeError.
Proof.
  cbv zeta.
  destruct (inline_event_without_identifier_throws (fun v => v) 0
              (obj [("event", obj [("metadata", obj [("receipt", obj [])])])])
              (VNum 0 0) eq_refl eq_refl eq_refl eq_refl eq_refl eq_refl
              eq_refl)
    as (block & _ & _ & H).
  exact H.
Defined.

(** What the decoder returns for bytes that are not JSON text is an
    object, so that [processPrintEvent] can read its [event] without
    throwing; when the bytes are no tuple either, the object is the
    fallback, which has no [event] and reaches the default case of the
    switch: the event is dropped. *)
Theorem non_json_data_is_classified (hexValue : JsString) :
  let hex :=
    if startsWith (js "0x") hexValue then skipn 2 hexValue else hexValue in
  (forall v, Json.parse (toUtf8String (fromHex hex)) <> Ret v) ->
  exists o,
    decodeClarityValue hexValue = Ret (VObj o)
    /\ printCase (VObj o) = caseOfTag (getProp (js "event") o)
    /\ (at_ (fromHex hex) 0 <> Some 12 -> printCase (VObj o) = CaseDefault).
Proof.
  cbv zeta. unfold decodeClarityValue.
  set (hex := if startsWith (js "0x") hexValue then skipn 2 hexValue
              else hexValue).
  intros Hjson.
  destruct (Json.parse (toUtf8String (fromHex hex))) as [v|e|] eqn:E.
  - now destruct (Hjson v).
  - destruct (bool_decide (at_ (fromHex hex) 0 = Some 12)) eqn:Et.
    + destruct (0 <? len (fromHex hex))%Z; cbn [andb].
      * destruct (parseClarityTuple_object (fromHex hex)) as [o ->];
          [apply isBytes_fromHex|].
        exists o. split; [reflexivity|]. split; [reflexivity|].
        apply bool_decide_eq_true in Et. intros H. contradiction.
      * eexists. split; [reflexivity|]. split; reflexivity.
    + rewrite andb_false_r.
      eexists. split; [reflexivity|]. split; reflexivity.
  - now apply parse_never_out_of_fuel in E.
Qed.

Lemma non_json_data_is_classified_witness :
  exists o,
    decodeClarityValue (js "0xdeadbeef") = Ret (VObj o)
    /\ printCase (VObj o) = CaseDefault.
Proof.
  destruct (non_json_data_is_classified (js "0xdeadbeef"))
    as (o & Hd & _ & Hc).
  - intros v. vm_compute. discriminate.
  - exists o. split; [exact Hd|]. apply Hc. vm_compute. discriminate.
Defined.

End GatherFacts.

(** ** The handlers on the values as they arrive *)

Module UntypedFacts.
Import Normalizer Gather Untyped.
Local Open Scope string_scope.

(** *** What a method leaves alone *)

Lemma frame_ret {A X} (f : State -> X) (a : A) : preserves f (ret a).
Proof. intros s. reflexivity. Qed.

Lemma frame_lift {A X} (f : State -> X) (o : option A) :
  preserves f (lift o).
Proof. intros s. unfold lift. now destruct o. Qed.

Lemma frame_read {A X} (f : State -> X) (g : State -> option A) :
  preserves f (read g).
Proof. intros s. unfold read, lift. now destruct (g s). Qed.

Lemma frame_ofOutcome {A X} (f : State -> X) (o : Outcome A) :
  preserves f (ofOutcome o).
Proof. intros s. unfold ofOutcome. now destruct o. Qed.

Lemma frame_bind {A B X} (f : State -> X) (m : W A) (k : A -> W B) :
  preserves f m -> (forall a, preserves f (k a)) -> preserves f (bind m k).
Proof.
  intros Hm Hk s. unfold bind. specialize (Hm s).
  destruct (m s) as [[a|e|] s1]; cbn [snd] in *; try assumption.
  now rewrite Hk.
Qed.

Lemma frame_tryW {X} (f : State -> X) (m : W unit) :
  preserves f m -> preserves f (tryW m).
Proof.
  intros Hm s. unfold tryW. specialize (Hm s).
  now destruct (m s) as [[a|e|] s1].
Qed.

Lemma frame_forOf {X Y} (f : State -> X) (xs : list Y) (g : Y -> W unit) :
  (forall x, preserves f (g x)) -> preserves f (forOf xs g).
Proof.
  intros Hg. induction xs as [|x xs IH]; cbn [forOf].
  - apply frame_ret.
  - apply frame_bind; [apply Hg | intros _; exact IH].
Qed.

Lemma frame_modify {X} (f : State -> X) (g : State -> State) :
  (forall s, f (g s) = f s) -> preserves f (modify g).
Proof. intros Hg s. apply Hg. Qed.

Lemma frame_newDate {X} (f : State -> X) :
  (forall n s, f (setTicks n s) = f s) -> preserves f newDate.
Proof. intros Hf s. apply Hf. Qed.

Lemma frame_emit {X} (f : State -> X) (channel : string) (p : Payload) :
  (forall c s, f (setCalls c s) = f s) -> preserves f (emit channel p).
Proof. intros Hf s. apply Hf. Qed.

Lemma frame_logs {X} (f : State -> X) (values : list JsVal) :
  preserves f (logs values).
Proof. apply frame_lift. Qed.

(** The frame of a method built from the steps above, for a component
    that the assignments it makes do not touch. *)
Ltac frame :=
  repeat first
    [ apply frame_ret
    | apply frame_lift
    | apply frame_read
    | apply frame_ofOutcome
    | apply frame_logs
    | apply frame_newDate; reflexivity
    | apply frame_emit; reflexivity
    | apply frame_modify; intros ?; reflexivity
    | apply frame_tryW
    | apply frame_forOf; intros ?
    | apply frame_bind; [|intros ?]
    | match goal with
      | |- preserves _ (match ?x with _ => _ end) => destruct x
      end ].



(** *** The steps of a modelled run *)

Lemma modelled_tryW (m : W unit) (s : State) :
  modelled (tryW m s) -> modelled (m s).
Proof. unfold modelled, tryW. now destruct (m s) as [[a|e|] s1]. Qed.

Lemma snd_tryW (m : W unit) (s : State) : snd (tryW m s) = snd (m s).
Proof. unfold tryW. now destruct (m s) as [[a|e|] s1]. Qed.

Lemma modelled_lift_bind {A B} (o : option A) (k : A -> W B) (s : State) :
  modelled (bind (lift o) k s) ->
  exists a, o = Some a /\ bind (lift o) k s = k a s.
Proof.
  unfold modelled, bind, lift. destruct o as [a|]; cbn.
  - intros _. now exists a.
  - intros H. now contradiction H.
Qed.

Lemma modelled_read_bind {A B} (g : State -> option A) (k : A -> W B)
    (s : State) :
  modelled (bind (read g) k s) ->
  exists a, g s = Some a /\ bind (read g) k s = k a s.
Proof.
  unfold modelled, bind, read, lift. destruct (g s) as [a|]; cbn.
  - intros _. now exists a.
  - intros H. now contradiction H.
Qed.

Lemma modelled_ofOutcome_bind {A B} (o : Outcome A) (k : A -> W B) (s : State) :
  modelled (bind (ofOutcome o) k s) ->
  (exists a, o = Ret a /\ bind (ofOutcome o) k s = k a s)
  \/ (exists e, o = Throw e /\ bind (ofOutcome o) k s = (Thrown e, s)).
Proof.
  unfold modelled, bind, ofOutcome. destruct o as [a|e|]; cbn.
  - intros _. left. now exists a.
  - intros _. right. now exists e.
  - intros H. now contradiction H.
Qed.

(** A step of a modelled run that is the value of an operation. *)
Ltac step H :=
  first
    [ let a := fresh "v" in let E := fresh "E" in let R := fresh "R" in
      destruct (modelled_lift_bind _ _ _ H) as [a [E R]];
      rewrite R in H |- *; clear R
    | let a := fresh "v" in let E := fresh "E" in let R := fresh "R" in
      destruct (modelled_read_bind _ _ _ H) as [a [E R]];
      rewrite R in H |- *; clear R ].

(** *** The counters *)

Lemma fees_added (activity : Activity.t) (fee : JsVal) (rest : W unit)
    (s : State) :
  preserves totalFees rest ->
  modelled ((push activity >> addFees fee >> rest) s) ->
  plus (totalFees s) fee
  = Some (totalFees (snd ((push activity >> addFees fee >> rest) s))).
Proof.
  intros Hrest. unfold push, addFees, modelled, bind, modify, read, lift.
  cbn [totalFees setActivities].
  destruct (plus (totalFees s) fee) as [total|]; cbn [fst snd].
  - intros _. now rewrite Hrest.
  - intros H. now contradiction H.
Qed.











Lemma logs_run (values : list JsVal) (s : State) :
  logs values s = (Returned tt, s) \/ logs values s = (Unmodelled, s).
Proof.
  unfold logs, lift.
  destruct (existsb isObjectValue values); [now right | now left].
Qed.

Lemma modelled_logs_bind {B} (values : list JsVal) (k : unit -> W B)
    (s : State) :
  modelled (bind (logs values) k s) -> bind (logs values) k s = k tt s.
Proof.
  unfold modelled, bind.
  destruct (logs_run values s) as [-> | ->]; cbn; [reflexivity|].
  intros H. now contradiction H.
Qed.






(** *** The leaderboard *)

Lemma bind_ret {A B} (a : A) (k : A -> W B) (s : State) :
  bind (ret a) k s = k a s.
Proof. reflexivity. Qed.

Lemma bind_newDate {B} (k : Z -> W B) (s : State) :
  bind newDate k s = k (clock s (ticks s)) (setTicks (S (ticks s)) s).
Proof. reflexivity. Qed.

Lemma bind_assoc {A B C} (m : W A) (f : A -> W B) (g : B -> W C) (s : State) :
  bind (bind m f) g s = bind m (fun a => bind (f a) g) s.
Proof. unfold bind. now destruct (m s) as [[a|e|] s1]. Qed.

Lemma updateLeaderboard_run (user points pulses streak : JsVal) (s : State) :
  modelled (updateLeaderboard user points pulses streak s) ->
  exists found now entry',
    findKey user (leaderboard s) = Some found
    /\ updateEntry points pulses streak now (startEntry user found s)
       = Some entry'
    /\ leaderboard (snd (updateLeaderboard user points pulses streak s))
       = match found with
         | Some _ => replaceKey user entry' (leaderboard s)
         | None => (leaderboard s ++ [(user, entry')])%list
         end.
Proof.
  unfold updateLeaderboard. intros H.
  destruct (modelled_read_bind _ _ _ H) as [found [E R]];
    rewrite R in H |- *; clear R.
  exists found. destruct found as [entry|].
  - rewrite bind_ret, bind_newDate in H |- *.
    destruct (modelled_lift_bind _ _ _ H) as [entry' [E' R]];
      rewrite R in H |- *; clear R.
    exists (clock s (ticks s)), entry'. repeat split; assumption.
  - rewrite bind_assoc, bind_newDate, bind_ret, bind_newDate in H |- *.
    destruct (modelled_lift_bind _ _ _ H) as [entry' [E' R]];
      rewrite R in H |- *; clear R.
    eexists _, entry'. repeat split; [assumption | exact E'].
Qed.

Lemma updateEntry_fields (points pulses streak : JsVal) (now : Z)
    (entry entry' : Entry.t) :
  updateEntry points pulses streak now entry = Some entry' ->
  plus (Entry.totalPoints entry) points = Some (Entry.totalPoints entry')
  /\ plus (Entry.totalPulses entry) pulses = Some (Entry.totalPulses entry')
  /\ (exists positive longer : bool,
        gt streak (VNum 0 0) = Some positive
        /\ (if positive then gt streak (Entry.longestStreak entry)
            else Some false) = Some longer
        /\ Entry.currentStreak entry'
           = (if positive then streak else Entry.currentStreak entry)
        /\ Entry.longestStreak entry'
           = (if longer then streak else Entry.longestStreak entry))
  /\ tierUpdate (Entry.totalPoints entry') (Entry.tier entry)
     = Some (Entry.tier entry')
  /\ Entry.user entry' = Entry.user entry
  /\ Entry.lastActive entry' = now.
Proof.
  unfold updateEntry. intros H.
  destruct (plus (Entry.totalPoints entry) points) as [totalPoints|];
    [|discriminate].
  destruct (plus (Entry.totalPulses entry) pulses) as [totalPulses|];
    [|discriminate].
  destruct (gt streak (VNum 0 0)) as [positive|]; [|discriminate].
  cbn in H.
  destruct (if positive then gt streak (Entry.longestStreak entry)
            else Some false) as [longer|] eqn:El; [|discriminate].
  cbn in H.
  destruct (tierUpdate totalPoints (Entry.tier entry)) as [tier|] eqn:Et;
    [|discriminate].
  cbn in H. injection H as <-. cbn.
  repeat split; try reflexivity; [|exact Et].
  exists positive, longer. now repeat split.
Qed.

Lemma findKey_replaceKey (key : JsVal) (entry entry' : Entry.t)
    (m : list (JsVal * Entry.t)) :
  findKey key m = Some (Some entry) ->
  findKey key (replaceKey key entry' m) = Some (Some entry').
Proof.
  induction m as [|[key0 entry0] m IH]; cbn [findKey replaceKey];
    [discriminate|].
  destruct (sameValueZero key key0) as [[|]|] eqn:E; cbn.
  - intros _. cbn [findKey]. now rewrite E.
  - intros H. cbn [findKey]. rewrite E. cbn. now apply IH.
  - discriminate.
Qed.

Lemma after_bind {A B X} (f : State -> X) (m : W A) (k : A -> W B) (s : State) :
  (forall a, preserves f (k a)) -> f (snd (bind m k s)) = f (snd (m s)).
Proof.
  intros Hk. unfold bind. destruct (m s) as [[a|e|] s1]; cbn [snd];
    [apply Hk | reflexivity | reflexivity].
Qed.

Lemma modelled_bind {A B} (m : W A) (k : A -> W B) (s : State) :
  modelled (bind m k s) -> modelled (m s).
Proof.
  unfold modelled, bind. destruct (m s) as [[a|e|] s1]; cbn; try discriminate.
  intros H _. now apply H.
Qed.

Lemma run_modify {B} (g : State -> State) (k : unit -> W B) (s : State) :
  bind (modify g) k s = k tt (g s).
Proof. reflexivity. Qed.

(** The entry of the user after a handler that appends a record and
    calls [updateLeaderboard]. *)
Lemma entry_after_update (activity : Activity.t) (after : W unit)
    (user points pulses streak : JsVal) (s : State) :
  modelled ((push activity
             >> updateLeaderboard user points pulses streak >> after) s) ->
  preserves leaderboard after ->
  exists found now entry',
    findKey user (leaderboard s) = Some found
    /\ updateEntry points pulses streak now (startEntry user found s)
       = Some entry'
    /\ leaderboard
         (snd ((push activity
                >> updateLeaderboard user points pulses streak >> after) s))
       = match found with
         | Some _ => replaceKey user entry' (leaderboard s)
         | None => (leaderboard s ++ [(user, entry')])%list
         end.
Proof.
  unfold push. rewrite run_modify. intros H Hafter.
  rewrite (after_bind leaderboard) by (intros _; exact Hafter).
  apply modelled_bind in H.
  exact (updateLeaderboard_run _ _ _ _ _ H).
Qed.

Lemma entry_after_fee_update (activity : Activity.t) (fee : JsVal)
    (after : W unit) (user points pulses streak : JsVal) (s : State) :
  modelled ((push activity >> addFees fee
             >> updateLeaderboard user points pulses streak >> after) s) ->
  preserves leaderboard after ->
  exists found now entry',
    findKey user (leaderboard s) = Some found
    /\ updateEntry points pulses streak now (startEntry user found s)
       = Some entry'
    /\ leaderboard
         (snd ((push activity >> addFees fee
                >> updateLeaderboard user points pulses streak >> after) s))
       = match found with
         | Some _ => replaceKey user entry' (leaderboard s)
         | None => (leaderboard s ++ [(user, entry')])%list
         end.
Proof.
  unfold push, addFees. rewrite run_modify, bind_assoc.
  intros H Hafter. step H. rewrite run_modify in H |- *.
  rewrite (after_bind leaderboard) by (intros _; exact Hafter).
  apply modelled_bind in H.
  exact (updateLeaderboard_run _ _ _ _ _ H).
Qed.

Lemma entry_after_overwrite (activity : Activity.t) (after : W unit)
    (user tier : JsVal) (entry : Entry.t) (s : State) :
  modelled ((push activity >> overwriteTier user tier >> after) s) ->
  findKey user (leaderboard s) = Some (Some entry) ->
  preserves leaderboard after ->
  leaderboard (snd ((push activity >> overwriteTier user tier >> after) s))
  = replaceKey user (setTier tier entry) (leaderboard s).
Proof.
  unfold push. rewrite run_modify. intros H Hfound Hafter.
  rewrite (after_bind leaderboard) by (intros _; exact Hafter).
  unfold overwriteTier, bind, read, lift. cbn [leaderboard setActivities].
  now rewrite Hfound.
Qed.

(** A streak of 0, which every handler but that of a pulse passes,
    leaves the streaks of the entry. *)
Lemma updateEntry_no_streak (points pulses : JsVal) (now : Z)
    (entry entry' : Entry.t) :
  updateEntry points pulses (VNum 0 0) now entry = Some entry' ->
  Entry.currentStreak entry' = Entry.currentStreak entry
  /\ Entry.longestStreak entry' = Entry.longestStreak entry.
Proof.
  intros H. apply updateEntry_fields in H.
  destruct H as (_ & _ & (positive & longer & Hp & Hl & Hc & Hg) & _).
  cbn in Hp. injection Hp as <-. injection Hl as <-. now split.
Qed.

Lemma bind_Ret {A B} (a : A) (k : A -> W B) (s : State) :
  bind (ofOutcome (Ret a)) k s = k a s.
Proof. reflexivity. Qed.

Lemma bind_Throw {A B} (e : JsError) (k : A -> W B) (s : State) :
  bind (ofOutcome (Throw e)) k s = (Thrown e, s).
Proof. reflexivity. Qed.

(** The entry a handler has updated, for a user who had one. *)
Ltac updated H Hfound entry' Eu El :=
  step H; step H; cbv zeta in *;
  let found := fresh "found" in
  let now := fresh "now" in
  let Ef := fresh "Ef" in
  first
    [ destruct (entry_after_fee_update _ _ _ _ _ _ _ _ H ltac:(frame))
        as (found & now & entry' & Ef & Eu & El)
    | destruct (entry_after_update _ _ _ _ _ _ _ H ltac:(frame))
        as (found & now & entry' & Ef & Eu & El) ];
  rewrite Hfound in Ef; injection Ef as <-; cbn [startEntry] in Eu.

(** What a print event does to the entry of a user who has one.
    Pulse-sent adds its points and 1 to the pulses, mega-pulse its
    points and its multiplier, boost, check-in and challenge their
    points and 0, each by [+=], and the last four leave the streaks;
    reward-claimed and tier-achieved set the tier and nothing else; any
    other data leaves the entry. *)
Theorem print_event_on_entry
    (data txHash blockHeight timestamp eventData : JsVal) (s : State)
    (entry : Entry.t) :
  parsed data = Ret eventData ->
  findKey (field "user" eventData) (leaderboard s) = Some (Some entry) ->
  let r := processPrintEvent data txHash blockHeight timestamp s in
  modelled r ->
  exists entry',
    findKey (field "user" eventData) (leaderboard (snd r)) = Some (Some entry')
    /\ match caseOfTag (field "event" eventData) with
       | CasePulse =>
           moved entry entry' (field "points" eventData) (VNum 1 0)
       | CaseMegaPulse =>
           moved entry entry' (field "points" eventData)
                 (field "multiplier" eventData)
           /\ sameStreaks entry entry'
       | CaseBoost | CaseCheckin | CaseChallenge =>
           moved entry entry' (field "points" eventData) (VNum 0 0)
           /\ sameStreaks entry entry'
       | CaseReward => entry' = setTier (field "new_tier" eventData) entry
       | CaseTier => entry' = setTier (field "tier" eventData) entry
       | CaseDefault | Caught => entry' = entry
       end.
Proof.
  intros Hparsed Hfound. cbv zeta. intros H.
  unfold processPrintEvent in *. rewrite snd_tryW. apply modelled_tryW in H.
  rewrite Hparsed, bind_Ret in H |- *.
  destruct (modelled_ofOutcome_bind _ _ _ H) as [[eventType [E' R]]|[e [E' R]]];
    rewrite R in H |- *; clear R.
  2:{ assert (Ht : field "event" eventData = VUndefined).
      { unfold member in E'. now destruct eventData. }
      rewrite Ht. now exists entry. }
  assert (Ht : eventType = field "event" eventData).
  { unfold member in E'. destruct eventData; now inversion E'. }
  subst eventType. rewrite (modelled_logs_bind _ _ _ H) in H |- *.
  destruct (caseOfTag (field "event" eventData)).
  - unfold handlePulseEvent in *. updated H Hfound entry' Eu El.
    exists entry'. split; [rewrite El; exact (findKey_replaceKey _ _ _ _ Hfound)|].
    apply updateEntry_fields in Eu. now split.
  - unfold handleBoostEvent in *. updated H Hfound entry' Eu El.
    exists entry'. split; [rewrite El; exact (findKey_replaceKey _ _ _ _ Hfound)|].
    split; [apply updateEntry_fields in Eu; now split
           | exact (updateEntry_no_streak _ _ _ _ _ Eu)].
  - unfold handleCheckinEvent in *. updated H Hfound entry' Eu El.
    exists entry'. split; [rewrite El; exact (findKey_replaceKey _ _ _ _ Hfound)|].
    split; [apply updateEntry_fields in Eu; now split
           | exact (updateEntry_no_streak _ _ _ _ _ Eu)].
  - unfold handleMegaPulseEvent in *. updated H Hfound entry' Eu El.
    exists entry'. split; [rewrite El; exact (findKey_replaceKey _ _ _ _ Hfound)|].
    split; [apply updateEntry_fields in Eu; now split
           | exact (updateEntry_no_streak _ _ _ _ _ Eu)].
  - unfold handleChallengeEvent in *. updated H Hfound entry' Eu El.
    exists entry'. split; [rewrite El; exact (findKey_replaceKey _ _ _ _ Hfound)|].
    split; [apply updateEntry_fields in Eu; now split
           | exact (updateEntry_no_streak _ _ _ _ _ Eu)].
  - unfold handleRewardEvent in *. step H. step H. step H. cbv zeta in *.
    rewrite (entry_after_overwrite _ _ _ _ entry _ H Hfound ltac:(frame)).
    eexists. split; [exact (findKey_replaceKey _ _ _ _ Hfound) | reflexivity].
  - unfold handleTierEvent in *. step H. step H. cbv zeta in *.
    rewrite (entry_after_overwrite _ _ _ _ entry _ H Hfound ltac:(frame)).
    eexists. split; [exact (findKey_replaceKey _ _ _ _ Hfound) | reflexivity].
  - exists entry. split; [|reflexivity].
    now rewrite (frame_logs leaderboard).
  - exists entry. split; [|reflexivity].
    now rewrite (frame_logs leaderboard).
Qed.

(** *** Streaks *)

Lemma gt_numbers (a b : JsVal) (x y : Z) :
  intOf a = Some x -> intOf b = Some y -> gt a b = Some (y <? x)%Z.
Proof.
  intros Ha Hb. destruct a; try discriminate. destruct b; try discriminate.
  unfold gt, numberOf. rewrite Ha, Hb. reflexivity.
Qed.

Lemma updateEntry_ordered (points pulses streak : JsVal) (k now : Z)
    (entry entry' : Entry.t) :
  intOf streak = Some k ->
  streaksOrdered entry ->
  updateEntry points pulses streak now entry = Some entry' ->
  streaksOrdered entry'.
Proof.
  intros Hk (current & longest & Hc & Hl & Hle) H.
  apply updateEntry_fields in H.
  destruct H as (_ & _ & (positive & longer & Hp & Hg & Hc' & Hl') & _).
  rewrite (gt_numbers streak (VNum 0 0) k 0 Hk eq_refl) in Hp.
  injection Hp as <-.
  unfold streaksOrdered. rewrite Hc', Hl'.
  destruct (0 <? k)%Z.
  - rewrite (gt_numbers _ _ _ _ Hk Hl) in Hg. injection Hg as <-.
    destruct (longest <? k)%Z eqn:E.
    + exists k, k. repeat split; [assumption | assumption | lia].
    + exists k, longest. repeat split; [assumption | assumption | lia].
  - injection Hg as <-. now exists current, longest.
Qed.

Lemma findKey_In (key : JsVal) (entry : Entry.t) (m : list (JsVal * Entry.t)) :
  findKey key m = Some (Some entry) -> exists key', In (key', entry) m.
Proof.
  induction m as [|[key0 entry0] m IH]; cbn [findKey]; [discriminate|].
  destruct (sameValueZero key key0) as [[|]|]; cbn.
  - intros H. injection H as <-. exists key0. now left.
  - intros H. destruct (IH H) as [key' Hin]. exists key'. now right.
  - discriminate.
Qed.

Lemma Forall_replaceKey (P : JsVal * Entry.t -> Prop) (key : JsVal)
    (entry : Entry.t) (m : list (JsVal * Entry.t)) :
  (forall key', P (key', entry)) ->
  List.Forall P m -> List.Forall P (replaceKey key entry m).
Proof.
  intros He. induction 1 as [|[key0 entry0] m H0 Hm IH]; cbn [replaceKey].
  - constructor.
  - destruct (sameValueZero key key0) as [[|]|];
      apply List.Forall_cons; auto.
Qed.

Lemma ordered_of_frame {A} (m : W A) :
  preserves leaderboard m -> keeps allStreaksOrdered m.
Proof. intros Hm s Hs. unfold allStreaksOrdered. now rewrite Hm. Qed.

Lemma ordered_bind {A B} (I : State -> Prop) (m : W A) (k : A -> W B) :
  keeps I m -> (forall a, keeps I (k a)) -> keeps I (bind m k).
Proof.
  intros Hm Hk s Hs. unfold bind. specialize (Hm s Hs).
  destruct (m s) as [[a|e|] s1]; cbn [snd] in *; try assumption.
  now apply Hk.
Qed.

Lemma ordered_tryW (I : State -> Prop) (m : W unit) :
  keeps I m -> keeps I (tryW m).
Proof. intros Hm s Hs. rewrite snd_tryW. now apply Hm. Qed.

Lemma ordered_updateLeaderboard (user points pulses streak : JsVal) (k : Z) :
  intOf streak = Some k ->
  keeps allStreaksOrdered (updateLeaderboard user points pulses streak).
Proof.
  intros Hk s Hs. unfold updateLeaderboard, bind, read, lift.
  destruct (findKey user (leaderboard s)) as [[entry|]|] eqn:Ef;
    cbn [ret newDate snd fst]; [| |exact Hs].
  - destruct (updateEntry points pulses streak (clock s (ticks s)) entry)
      as [entry'|] eqn:Eu; cbn; [|exact Hs].
    unfold allStreaksOrdered. cbn.
    apply Forall_replaceKey; [|exact Hs].
    intros key0. cbn. refine (updateEntry_ordered _ _ _ _ _ _ _ Hk _ Eu).
    destruct (findKey_In _ _ _ Ef) as [key' Hin].
    unfold allStreaksOrdered in Hs. rewrite List.Forall_forall in Hs.
    exact (Hs _ Hin).
  - cbn [ticks clock setTicks].
    destruct (updateEntry points pulses streak _ (newEntry user _))
      as [entry'|] eqn:Eu; cbn; [|exact Hs].
    unfold allStreaksOrdered. cbn.
    apply Forall_app_2; [exact Hs|].
    apply List.Forall_cons; [|constructor]. cbn.
    refine (updateEntry_ordered _ _ _ _ _ _ _ Hk _ Eu).
    now exists 0%Z, 0%Z.
Qed.

Lemma ordered_overwriteTier (user tier : JsVal) :
  keeps allStreaksOrdered (overwriteTier user tier).
Proof.
  intros s Hs. unfold overwriteTier, bind, read, lift.
  destruct (findKey user (leaderboard s)) as [[entry|]|] eqn:Ef;
    cbn; [| exact Hs | exact Hs].
  unfold allStreaksOrdered. cbn.
  apply Forall_replaceKey; [|exact Hs]. intros key0. cbn.
  destruct (findKey_In _ _ _ Ef) as [key' Hin].
  unfold allStreaksOrdered in Hs. rewrite List.Forall_forall in Hs.
  exact (Hs _ Hin).
Qed.

Ltac ordered :=
  repeat first
    [ apply ordered_overwriteTier
    | eapply ordered_updateLeaderboard; first [eassumption | reflexivity]
    | apply ordered_bind; [|intros ?]
    | apply ordered_of_frame; solve [unfold push, addFees; frame] ].

Lemma ordered_processPrintEvent
    (data txHash blockHeight timestamp eventData : JsVal) :
  parsed data = Ret eventData ->
  (caseOfTag (field "event" eventData) = CasePulse ->
   exists k, intOf (field "streak" eventData) = Some k) ->
  keeps allStreaksOrdered (processPrintEvent data txHash blockHeight timestamp).
Proof.
  intros Hparsed Hstreak s Hs. unfold processPrintEvent.
  rewrite snd_tryW, Hparsed, bind_Ret.
  destruct (member "event" eventData) as [eventType|e|] eqn:E';
    [rewrite bind_Ret | exact Hs | exact Hs].
  assert (Ht : eventType = field "event" eventData).
  { unfold member in E'. destruct eventData; now inversion E'. }
  subst eventType. revert s Hs.
  change (keeps allStreaksOrdered
            (logs [field "event" eventData]
             >> match caseOfTag (field "event" eventData) with
                | CasePulse =>
                    handlePulseEvent eventData txHash blockHeight timestamp
                | CaseBoost =>
                    handleBoostEvent eventData txHash blockHeight timestamp
                | CaseCheckin =>
                    handleCheckinEvent eventData txHash blockHeight timestamp
                | CaseMegaPulse =>
                    handleMegaPulseEvent eventData txHash blockHeight timestamp
                | CaseChallenge =>
                    handleChallengeEvent eventData txHash blockHeight timestamp
                | CaseReward =>
                    handleRewardEvent eventData txHash blockHeight timestamp
                | CaseTier =>
                    handleTierEvent eventData txHash blockHeight timestamp
                | CaseDefault | Caught => logs [field "event" eventData]
                end)).
  apply ordered_bind; [apply ordered_of_frame; frame|]. intros _.
  destruct (caseOfTag (field "event" eventData)) eqn:Ec;
    unfold handlePulseEvent, handleBoostEvent, handleCheckinEvent,
      handleMegaPulseEvent, handleChallengeEvent, handleRewardEvent,
      handleTierEvent;
    try (destruct (Hstreak eq_refl) as [k Hk]);
    ordered.
Qed.

(** With numbers for streaks, the current streak of an entry stays at
    most its longest: through [updateLeaderboard] called with a number,
    and through a print event, when the streak of a pulse is a number.
    With the strings the tuple decoder gives, [>] compares the streak
    and the longest streak as strings: after the streaks "7" and "10"
    the entry has the current streak "10" and the longest streak "7". *)
Theorem numeric_streaks_stay_ordered :
  (forall (user points pulses streak : JsVal) (k : Z) (s : State),
      intOf streak = Some k ->
      allStreaksOrdered s ->
      modelled (updateLeaderboard user points pulses streak s) ->
      allStreaksOrdered (snd (updateLeaderboard user points pulses streak s)))
  /\ (forall (data txHash blockHeight timestamp eventData : JsVal) (s : State),
        parsed data = Ret eventData ->
        (caseOfTag (field "event" eventData) = CasePulse ->
         exists k, intOf (field "streak" eventData) = Some k) ->
        allStreaksOrdered s ->
        modelled (processPrintEvent data txHash blockHeight timestamp s) ->
        allStreaksOrdered
          (snd (processPrintEvent data txHash blockHeight timestamp s)))
  /\ (let pulse (streak : string) :=
        obj [("event", VStr (js "pulse-sent")); ("user", VStr (js "SP1"));
             ("points", VStr (js "1")); ("streak", VStr (js streak));
             ("fee", VStr (js "2")); ("total_pulses", VStr (js "1"))] in
      let s1 :=
        snd (processPrintEvent (pulse "7") (VStr (js "0xab")) (VNum 7 0)
               (VNum 0 0) (initial (fun _ => 0%Z))) in
      let s2 :=
        snd (processPrintEvent (pulse "10") (VStr (js "0xcd")) (VNum 8 0)
               (VNum 0 0) s1) in
      map (fun kv => (Entry.currentStreak (snd kv), Entry.longestStreak (snd kv)))
          (leaderboard s2)
      = [(VStr (js "10"), VStr (js "7"))]).
Proof.
  split; [|split].
  - intros user points pulses streak k s Hk Hs _.
    exact (ordered_updateLeaderboard _ _ _ _ _ Hk s Hs).
  - intros data txHash blockHeight timestamp eventData s Hparsed Hstreak Hs _.
    exact (ordered_processPrintEvent _ _ _ _ _ Hparsed Hstreak s Hs).
  - vm_compute. reflexivity.
Qed.

Lemma numeric_streaks_stay_ordered_witness :
  let pulse :=
    obj [("event", VStr (js "pulse-sent")); ("user", VStr (js "SP1"));
         ("points", VNum 10 0); ("streak", VNum 3 0); ("fee", VNum 5 0);
         ("total_pulses", VNum 1 0)] in
  let s0 := initial (fun _ => 0%Z) in
  allStreaksOrdered
    (snd (updateLeaderboard (VStr (js "SP1")) (VNum 10 0) (VNum 1 0) (VNum 3 0)
            s0))
  /\ allStreaksOrdered
       (snd (processPrintEvent pulse (VStr (js "0xab")) (VNum 7 0) (VNum 0 0)
               s0)).
Proof.
  cbv zeta. split.
  - refine (proj1 numeric_streaks_stay_ordered (VStr (js "SP1")) (VNum 10 0)
              (VNum 1 0) (VNum 3 0) 3%Z _ eq_refl _ _).
    + constructor.
    + intros E. vm_compute in E. discriminate E.
  - match goal with
    | |- allStreaksOrdered (snd (processPrintEvent ?d ?tx ?h ?t ?s)) =>
        refine (proj1 (proj2 numeric_streaks_stay_ordered) d tx h t d s
                  eq_refl _ _ _)
    end.
    + intros _. now exists 3%Z.
    + constructor.
    + intros E. vm_compute in E. discriminate E.
Defined.

(** A pulse-sent event of a user who has an entry: points and one
    pulse go to the entry by [+=]; when the streak is above 0 it
    becomes the current streak, and the longest streak when it is above
    that one too.  [>] is the order of numbers on two numbers and the
    order of strings on two strings, in which "10" is not above "7". *)
Theorem pulse_sets_streaks :
  (forall (event txHash blockHeight timestamp : JsVal) (s : State)
          (entry : Entry.t),
      findKey (field "user" event) (leaderboard s) = Some (Some entry) ->
      let r := handlePulseEvent event txHash blockHeight timestamp s in
      modelled r ->
      exists (entry' : Entry.t) (positive longer : bool),
        findKey (field "user" event) (leaderboard (snd r)) = Some (Some entry')
        /\ moved entry entry' (field "points" event) (VNum 1 0)
        /\ gt (field "streak" event) (VNum 0 0) = Some positive
        /\ (if positive
            then gt (field "streak" event) (Entry.longestStreak entry)
            else Some false) = Some longer
        /\ Entry.currentStreak entry'
           = (if positive then field "streak" event
              else Entry.currentStreak entry)
        /\ Entry.longestStreak entry'
           = (if longer then field "streak" event
              else Entry.longestStreak entry))
  /\ (forall (a b : JsVal) (x y : Z),
        intOf a = Some x -> intOf b = Some y -> gt a b = Some (y <? x)%Z)
  /\ (forall s t : JsString, gt (VStr s) (VStr t) = Some (strLt t s))
  /\ gt (VStr (js "10")) (VStr (js "7")) = Some false.
Proof.
  split; [|split; [|split]].
  - intros event txHash blockHeight timestamp s entry Hfound. cbv zeta.
    intros H. unfold handlePulseEvent in *. updated H Hfound entry' Eu El.
    apply updateEntry_fields in Eu.
    destruct Eu as (Hp & Hq & (positive & longer & H1 & H2 & H3 & H4) & _).
    exists entry', positive, longer.
    split; [rewrite El; exact (findKey_replaceKey _ _ _ _ Hfound)|].
    now repeat split.
  - exact gt_numbers.
  - reflexivity.
  - reflexivity.
Qed.

Lemma pulse_sets_streaks_witness :
  let pulse (streak : string) :=
    obj [("event", VStr (js "pulse-sent")); ("user", VStr (js "SP1"));
         ("points", VStr (js "1")); ("streak", VStr (js streak));
         ("fee", VStr (js "2")); ("total_pulses", VStr (js "1"))] in
  let s1 :=
    snd (handlePulseEvent (pulse "7") (VStr (js "0xab")) (VNum 7 0) (VNum 0 0)
           (initial (fun _ => 0%Z))) in
  let r := handlePulseEvent (pulse "10") (VStr (js "0xcd")) (VNum 8 0)
             (VNum 0 0) s1 in
  (exists entry',
      findKey (VStr (js "SP1")) (leaderboard (snd r)) = Some (Some entry')
      /\ Entry.totalPoints entry' = VStr (js "011")
      /\ Entry.currentStreak entry' = VStr (js "10")
      /\ Entry.longestStreak entry' = VStr (js "7"))
  /\ gt (VNum 10 0) (VNum 7 0) = Some true.
Proof.
  cbv zeta. split;
    [| exact (proj1 (proj2 pulse_sets_streaks) (VNum 10 0) (VNum 7 0) 10%Z 7%Z
                eq_refl eq_refl) ].
  match goal with
  | |- exists entry',
         findKey _ (leaderboard (snd (handlePulseEvent ?ev ?tx ?h ?t ?s))) = _
         /\ _ =>
      unshelve epose proof (proj1 pulse_sets_streaks ev tx h t s _ _ _) as K;
        [ shelve
        | vm_compute; reflexivity
        | intros E; vm_compute in E; discriminate E
        | ]
  end.
  destruct K as (entry' & positive & longer & Hf & [Hp _] & H1 & H2 & H3 & H4).
  exists entry'. split; [exact Hf|].
  vm_compute in H1. injection H1 as <-.
  vm_compute in H2. injection H2 as <-.
  vm_compute in Hp. injection Hp as Hp.
  now repeat split.
Defined.

Lemma print_event_on_entry_witness :
  let mega :=
    obj [("event", VStr (js "mega-pulse")); ("user", VStr (js "SP1"));
         ("multiplier", VNum 3 0); ("points", VNum 30 0); ("fee", VNum 5 0)] in
  let s1 :=
    snd (processPrintEvent mega (VStr (js "0xab")) (VNum 7 0) (VNum 0 0)
           (initial (fun _ => 0%Z))) in
  let r := processPrintEvent mega (VStr (js "0xcd")) (VNum 8 0) (VNum 0 0) s1 in
  exists entry',
    findKey (VStr (js "SP1")) (leaderboard (snd r)) = Some (Some entry')
    /\ Entry.totalPoints entry' = VNum 60 0
    /\ Entry.totalPulses entry' = VNum 6 0.
Proof.
  cbv zeta.
  match goal with
  | |- exists entry',
         findKey _ (leaderboard (snd (processPrintEvent ?d ?tx ?h ?t ?s))) = _
         /\ _ =>
      unshelve epose proof (print_event_on_entry d tx h t d s _ eq_refl _ _)
        as K;
        [ shelve
        | vm_compute; reflexivity
        | intros E; vm_compute in E; discriminate E
        | ]
  end.
  destruct K as (entry' & Hf & [Hp Hq] & _).
  exists entry'. split; [exact Hf|].
  vm_compute in Hp. injection Hp as Hp.
  vm_compute in Hq. injection Hq as Hq.
  now split.
Defined.

(** *** Accounting *)

Lemma plusAll_app (total : JsVal) (fees more : list JsVal) :
  plusAll total (fees ++ more)
  = match plusAll total fees with
    | Some total' => plusAll total' more
    | None => None
    end.
Proof.
  revert total. induction fees as [|fee fees IH]; intros total; cbn [plusAll app].
  - reflexivity.
  - destruct (plus total fee) as [total'|]; cbn; [apply IH | reflexivity].
Qed.

Lemma accounted_refl (s s' : State) :
  activities s' = activities s -> totalFees s' = totalFees s -> accounted s s'.
Proof.
  intros Ha Hf. exists []. rewrite app_nil_r, Ha, Hf. now split.
Qed.

Lemma accounted_trans (s0 s1 s2 : State) :
  accounted s0 s1 -> accounted s1 s2 -> accounted s0 s2.
Proof.
  intros (new1 & Ha1 & Hf1) (new2 & Ha2 & Hf2). exists (new1 ++ new2)%list.
  split.
  - now rewrite Ha2, Ha1, app_assoc.
  - now rewrite List.filter_app, map_app, plusAll_app, Hf1.
Qed.

Lemma accounts_of_frame {A} (m : W A) :
  preserves activities m -> preserves totalFees m -> accounts m.
Proof. intros Ha Hf s _. apply accounted_refl; [apply Ha | apply Hf]. Qed.

Lemma accounts_bind {A B} (m : W A) (k : A -> W B) :
  accounts m -> (forall a, accounts (k a)) -> accounts (bind m k).
Proof.
  intros Hm Hk s H. pose proof (Hm s (modelled_bind _ _ _ H)) as H1.
  unfold modelled, bind in *.
  destruct (m s) as [[a|e|] s1]; cbn [fst snd] in *; try assumption.
  exact (accounted_trans _ _ _ H1 (Hk a s1 H)).
Qed.

Lemma accounts_tryW (m : W unit) : accounts m -> accounts (tryW m).
Proof.
  intros Hm s H. rewrite snd_tryW. apply Hm. now apply modelled_tryW.
Qed.

Lemma accounts_forOf {X} (xs : list X) (g : X -> W unit) :
  (forall x, accounts (g x)) -> accounts (forOf xs g).
Proof.
  intros Hg. induction xs as [|x xs IH]; cbn [forOf].
  - apply accounts_of_frame; apply frame_ret.
  - apply accounts_bind; [apply Hg | intros _; exact IH].
Qed.

(** A handler that appends the record of a fee and adds the fee. *)
Lemma accounts_fee (activity : Activity.t) (rest : W unit) :
  feeCounted activity = true ->
  preserves activities rest -> preserves totalFees rest ->
  accounts (push activity >> addFees (Activity.fee activity) >> rest).
Proof.
  intros Hc Ha Hf s H. exists [activity]. split.
  - unfold push. rewrite run_modify.
    rewrite (after_bind activities)
      by (intros _; exact Ha).
    unfold addFees. rewrite (after_bind activities)
      by (intros total; apply frame_modify; reflexivity).
    now rewrite (frame_read activities).
  - cbn [List.filter]. rewrite Hc. cbn [map plusAll].
    rewrite (fees_added _ _ _ _ Hf H). reflexivity.
Qed.

(** A handler that appends a record whose fee is not added. *)
Lemma accounts_no_fee (activity : Activity.t) (rest : W unit) :
  feeCounted activity = false ->
  preserves activities rest -> preserves totalFees rest ->
  accounts (push activity >> rest).
Proof.
  intros Hc Ha Hf s _. exists [activity]. split.
  - unfold push. rewrite run_modify. now rewrite Ha.
  - cbn [List.filter]. rewrite Hc. cbn [map plusAll].
    unfold push. rewrite run_modify. now rewrite Hf.
Qed.

Ltac account :=
  repeat first
    [ match goal with
      | |- accounts (push ?a >> addFees _ >> ?rest) =>
          refine (accounts_fee a rest eq_refl _ _); frame
      | |- accounts (push ?a >> ?rest) =>
          refine (accounts_no_fee a rest eq_refl _ _); frame
      end
    | apply accounts_bind;
        [ apply accounts_of_frame; solve [frame] | intros ? ]
    | apply accounts_of_frame; solve [frame] ].

Lemma accounts_processPrintEvent (data txHash blockHeight timestamp : JsVal) :
  accounts (processPrintEvent data txHash blockHeight timestamp).
Proof.
  unfold processPrintEvent. apply accounts_tryW.
  apply accounts_bind; [apply accounts_of_frame; frame|]. intros eventData.
  apply accounts_bind; [apply accounts_of_frame; frame|]. intros eventType.
  apply accounts_bind; [apply accounts_of_frame; frame|]. intros _.
  destruct (caseOfTag eventType);
    unfold handlePulseEvent, handleBoostEvent, handleCheckinEvent,
      handleMegaPulseEvent, handleChallengeEvent, handleRewardEvent,
      handleTierEvent;
    cbv zeta; account.
Qed.

Lemma accounts_processTransaction (absParseInt : JsVal -> JsVal)
    (tx blockHeight timestamp : JsVal) :
  accounts (processTransaction absParseInt tx blockHeight timestamp).
Proof.
  unfold processTransaction, dispatch.
  apply accounts_bind; [apply accounts_of_frame; frame|]. intros _.
  apply accounts_bind; [apply accounts_of_frame; frame|]. intros gathered.
  apply accounts_bind; [apply accounts_of_frame; frame|]. intros _.
  apply accounts_forOf. intros event.
  apply accounts_bind; [apply accounts_of_frame; frame|]. intros branch.
  destruct branch.
  - apply accounts_processPrintEvent.
  - unfold processNFTEvent. cbv zeta. account.
  - unfold processSTXTransfer. cbv zeta. account.
  - apply accounts_of_frame; frame.
Qed.

(** Accounting without rollback.  A payload in which nothing is rolled
    back only appends records, and [totalFees] is what [+=] has made of
    it with the fees of the appended pulse, boost, mega-pulse and
    challenge records, in their order. *)
Theorem payload_accounts_fees (absParseInt : JsVal -> JsVal) (nowMs : Z)
    (p : JsVal) (s : State) :
  elements (resolveRollback p) = [] ->
  modelled (processPayload absParseInt nowMs p s) ->
  accounted s (snd (processPayload absParseInt nowMs p s)).
Proof.
  intros Hrollback. revert s.
  change (accounts (processPayload absParseInt nowMs p)).
  unfold processPayload. cbv zeta. rewrite Hrollback.
  rewrite andb_false_r.
  apply accounts_bind; [apply accounts_of_frame; frame|]. intros _.
  apply accounts_bind; [apply accounts_of_frame; frame|]. intros _.
  apply accounts_bind; [|intros _; apply accounts_of_frame; frame].
  apply accounts_forOf. intros block.
  apply accounts_bind; [apply accounts_of_frame; frame|]. intros identifier.
  apply accounts_bind; [apply accounts_of_frame; frame|]. intros _.
  apply accounts_bind; [apply accounts_of_frame; frame|]. intros transactions.
  apply accounts_forOf. intros tx. apply accounts_processTransaction.
Qed.

(** *** Delivery *)

























Lemma payload_accounts_fees_witness :
  let print (data : JsVal) :=
    obj [("type", VStr (js "print_event")); ("data", data)] in
  let pulse :=
    obj [("event", VStr (js "pulse-sent")); ("user", VStr (js "SP1"));
         ("points", VStr (js "1")); ("streak", VStr (js "7"));
         ("fee", VStr (js "2")); ("total_pulses", VStr (js "1"))] in
  let boost :=
    obj [("event", VStr (js "boost-activated")); ("user", VStr (js "SP1"));
         ("points", VNum 5 0); ("fee", VNum 3 0); ("total_boosts", VNum 1 0)] in
  let block (tx : JsVal) :=
    obj [("block_identifier", obj [("index", VNum 7 0)]);
         ("timestamp", VNum 0 0);
         ("transactions", VArr [tx])] in
  let receipt :=
    obj [("apply",
          VArr [block
                  (obj [("transaction_identifier",
                         obj [("hash", VStr (js "0xab"))]);
                        ("metadata",
                         obj [("receipt",
                               obj [("events",
                                     VArr [print pulse; print boost])])])])])] in
  let tuple :=
    Layout.encodeTuple
      [Layout.StrField (js "event") 6 (js "pulse-sent");
       Layout.StrField (js "user") 6 (js "SP1");
       Layout.IntField (js "points") 1 (Layout.beBytes 16 1);
       Layout.IntField (js "streak") 1 (Layout.beBytes 16 7);
       Layout.IntField (js "fee") 1 (Layout.beBytes 16 2);
       Layout.IntField (js "total_pulses") 1 (Layout.beBytes 16 1)] in
  let operations :=
    obj [("apply",
          VArr [block
                  (obj [("transaction_identifier",
                         obj [("hash", VStr (js "0xab"))]);
                        ("operations",
                         VArr [obj [("type", VStr (js "contract_log"));
                                    ("metadata",
                                     obj [("topic", VStr (js "print"));
                                          ("value",
                                           VStr (js "0x" ++ Buf.toHex tuple))])]])])])] in
  let s0 := initial (fun _ => 0%Z) in
  let s1 := snd (processPayload (fun v => v) 0 receipt s0) in
  let s2 := snd (processPayload (fun v => v) 0 operations s0) in
  (accounted s0 s1 /\ totalFees s1 = VStr (js "023"))
  /\ (accounted s0 s2
      /\ map Activity.fee (activities s2) = [VStr (js "0")]
      /\ totalFees s2 = VStr (js "00")).
Proof.
  cbv zeta. split; split.
  - apply payload_accounts_fees; [reflexivity|].
    intros E. vm_compute in E. discriminate E.
  - vm_compute. reflexivity.
  - apply payload_accounts_fees; [reflexivity|].
    intros E. vm_compute in E. discriminate E.
  - vm_compute. split; reflexivity.
Defined.

End UntypedFacts.
